(** * A model of [preprocess.py]: sanitising, enriching and tag-unifying posts

    The development embeds the four functions of [src/preprocess.py]
    ([clean_unicode_text], [extract_metadata], [get_unified_tags] and
    [process_posts]) together with the fragment of Python they rely on:

    - a Python [str] is a list of code points ([N]);
    - JSON values are the inductive type [value]; JSON numbers are integers
      (floats are outside the model), objects are finite maps keyed by
      strings (field order is not recorded: no statement depends on it);
    - exceptions are values of type [exn], and code that may raise returns a
      [result]; an exception carries its message when the message holds
      data;
    - the generation service, the input file, the output file and the
      standard output form the environment: the service is an oracle from
      the history of earlier prompts and the current prompt to a reply, and
      the calls made and what became of the output file are logged in the
      [world];
    - [print] writes to a standard output that encodes ASCII and, beyond
      ASCII, the code points its encoding has: a line with any other code
      point raises [UnicodeEncodeError].  What is printed is not recorded.
      The prints that show data are modelled (lines 70, 75, 78, 81, 120,
      123, 145, 174 and 178); those whose line is made of literals, numbers
      and messages of Python's own exceptions are ASCII, cannot raise, and
      are left out (lines 26, 39, 50, 57 and 170);
    - a Python [set] is a hash table: a finite map from hash keys to the
      first object inserted under that key.  Its iteration order is the one
      of the underlying map, so no statement below depends on it. *)

From Stdlib Require Import NArith ZArith Lia Ascii String.
From stdpp Require Import gmap list strings.

Open Scope N_scope.

(** ** Exceptions and results *)

(** A [str] is a sequence of code points. *)
Abbreviation pystr := (list N).

(** The exception classes the code raises, catches or may receive.  All of
    them derive from Python's [Exception].  Three of them carry their
    message, which holds data: the parser's quotes the text it rejected,
    an error of the file system names the path, and [ServiceError] stands
    for whatever else the service call raises, with whatever it says.  A
    constructor without a message stands for an exception whose message
    is ASCII, as those are that Python itself makes of type names, keys,
    positions and escaped code points, and the literals of this code; the
    message of [FileNotFoundError] names a path, but no handler prints
    it. *)
Inductive exn :=
  | FileNotFoundError
  | JSONDecodeError
  | OutputParserException (msg : pystr)
  | ValueError
  | TypeError
  | KeyError
  | AttributeError
  | UnicodeDecodeError
  | UnicodeEncodeError
  | OSError (msg : pystr)
  | ServiceError (msg : pystr).

Inductive result (A : Type) :=
  | Ok (a : A)
  | Raise (e : exn).
Arguments Ok {A} a.
Arguments Raise {A} e.

Definition rbind {A B} (m : result A) (k : A -> result B) : result B :=
  match m with
  | Ok a => k a
  | Raise e => Raise e
  end.

(** [try: body except e => handler]. *)
Definition rcatch {A} (body : result A) (handler : exn -> result A) : result A :=
  match body with
  | Ok a => Ok a
  | Raise e => handler e
  end.

Declare Scope result_scope.
Delimit Scope result_scope with res.
Notation "x <- m ;; k" := (rbind m (fun x => k))
  (at level 60, m at next level, right associativity) : result_scope.

(** ** Python strings *)


(** What a Python [str] can hold: code points up to U+10FFFF (lone
    surrogates included). *)
Definition valid_str (s : pystr) : Prop := Forall (fun c => c <= 0x10FFFF) s.

(** ASCII literals. *)
Definition str (s : string) : pystr :=
  (fun a => N_of_ascii a) <$> list_ascii_of_string s.

#[global] Arguments str : simpl never.

Definition LF : N := 10.
Definition TAB : N := 9.
Definition SPACE : N := 32.
Definition BACKSLASH : N := 92.

(** The two-character sequences backslash-n and backslash-t. *)
Definition esc_n : pystr := [BACKSLASH; 110].
Definition esc_t : pystr := [BACKSLASH; 116].

(** [s.startswith(p)] *)
Fixpoint starts_with (p s : pystr) : bool :=
  match p, s with
  | [], _ => true
  | _ :: _, [] => false
  | a :: p', b :: s' => (a =? b) && starts_with p' s'
  end.

(** [p in s] on strings: substring test. *)
Fixpoint is_infix (p s : pystr) : bool :=
  starts_with p s ||
  match s with
  | [] => false
  | _ :: s' => is_infix p s'
  end.

(** [re.sub('[class]', repl, text)] for a one-character class: every code
    point of the class is replaced by [repl]. *)
Definition re_sub_class (cls : N -> bool) (repl : pystr) (text : pystr) : pystr :=
  flat_map (fun c => if cls c then repl else [c]) text.

(** [text.replace(old, new)]: non-overlapping occurrences of [old], found
    from the left, are replaced by [new].  [skip] counts the code points of
    a matched occurrence that remain to be passed over. *)
Fixpoint replace_from (old new : pystr) (skip : nat) (s : pystr) : pystr :=
  match s with
  | [] => []
  | c :: r =>
      match skip with
      | S k => replace_from old new k r
      | O =>
          if starts_with old s
          then new ++ replace_from old new (Nat.pred (length old)) r
          else c :: replace_from old new O r
      end
  end.

Definition str_replace (old new s : pystr) : pystr :=
  match old with
  | [] => new ++ flat_map (fun c => c :: new) s
  | _ :: _ => replace_from old new O s
  end.

(** [text.split(sep)] for a one-character separator. *)
Fixpoint str_split (sep : N) (s : pystr) : list pystr :=
  match s with
  | [] => [[]]
  | c :: r =>
      if c =? sep then [] :: str_split sep r
      else match str_split sep r with
           | h :: t => (c :: h) :: t
           | [] => [[c]]
           end
  end.

(** [text.count(sep)] for a one-character [sep]. *)
Fixpoint str_count (sep : N) (s : pystr) : nat :=
  match s with
  | [] => O
  | c :: r => if c =? sep then S (str_count sep r) else str_count sep r
  end.

(** ** UTF-8 *)

Module Utf8.

Definition is_surrogate (c : N) : bool := (0xD800 <=? c) && (c <=? 0xDFFF).

Definition encode_cp (c : N) : list N :=
  if c <? 0x80 then [c]
  else if c <? 0x800 then [0xC0 + c / 64; 0x80 + c mod 64]
  else if c <? 0x10000 then
    [0xE0 + c / 4096; 0x80 + (c / 64) mod 64; 0x80 + c mod 64]
  else
    [0xF0 + c / 262144; 0x80 + (c / 4096) mod 64;
     0x80 + (c / 64) mod 64; 0x80 + c mod 64].

(** [text.encode('utf-8', errors='ignore')]: the code points that have no
    UTF-8 form (the surrogates) are left out. *)
Definition encode_ignore (s : pystr) : list N :=
  flat_map (fun c => if is_surrogate c then [] else encode_cp c) s.

Definition is_cont (b : N) : bool := (0x80 <=? b) && (b <? 0xC0).
Definition payload (b : N) : N := b - 0x80.

(** [data.decode('utf-8')] with the default strict error handling:
    truncated, overlong, surrogate and out-of-range sequences raise
    [UnicodeDecodeError]. *)
Fixpoint decode (bs : list N) : result pystr :=
  match bs with
  | [] => Ok []
  | b1 :: r1 =>
      if b1 <? 0x80 then
        rbind (decode r1) (fun s => Ok (b1 :: s))
      else if (0xC0 <=? b1) && (b1 <? 0xE0) then
        match r1 with
        | b2 :: r2 =>
            let c := (b1 - 0xC0) * 64 + payload b2 in
            if is_cont b2 && (0x80 <=? c)
            then rbind (decode r2) (fun s => Ok (c :: s))
            else Raise UnicodeDecodeError
        | _ => Raise UnicodeDecodeError
        end
      else if (0xE0 <=? b1) && (b1 <? 0xF0) then
        match r1 with
        | b2 :: b3 :: r3 =>
            let c := (b1 - 0xE0) * 4096 + payload b2 * 64 + payload b3 in
            if is_cont b2 && is_cont b3 && (0x800 <=? c)
               && negb (is_surrogate c)
            then rbind (decode r3) (fun s => Ok (c :: s))
            else Raise UnicodeDecodeError
        | _ => Raise UnicodeDecodeError
        end
      else if (0xF0 <=? b1) && (b1 <? 0xF8) then
        match r1 with
        | b2 :: b3 :: b4 :: r4 =>
            let c := (b1 - 0xF0) * 262144 + payload b2 * 4096
                     + payload b3 * 64 + payload b4 in
            if is_cont b2 && is_cont b3 && is_cont b4
               && (0x10000 <=? c) && (c <=? 0x10FFFF)
            then rbind (decode r4) (fun s => Ok (c :: s))
            else Raise UnicodeDecodeError
        | _ => Raise UnicodeDecodeError
        end
      else Raise UnicodeDecodeError
  end.

End Utf8.

(** ** JSON values *)

#[warnings="-register-all"]
Inductive value :=
  | VNone
  | VBool (b : bool)
  | VInt (z : Z)
  | VStr (s : pystr)
  | VList (l : list value)
  | VDict (d : gmap pystr value).

Abbreviation dict := (gmap pystr value).

(** Truth value of an object, as [if x] takes it. *)
Definition truthy (v : value) : bool :=
  match v with
  | VNone => false
  | VBool b => b
  | VInt z => negb (z =? 0)%Z
  | VStr s => negb (Nat.eqb (length s) 0)
  | VList l => negb (Nat.eqb (length l) 0)
  | VDict d => negb (Nat.eqb (size d) 0)
  end.

Definition is_list (v : value) : bool :=
  match v with
  | VList _ => true
  | _ => false
  end.

Definition is_str_value (v : value) (s : pystr) : bool :=
  match v with
  | VStr t => bool_decide (t = s)
  | _ => false
  end.

(** [key in container] for a string [key]. *)
Definition py_contains (container : value) (key : pystr) : result bool :=
  match container with
  | VDict d => Ok (bool_decide (is_Some (d !! key)))
  | VList l => Ok (existsb (fun v => is_str_value v key) l)
  | VStr s => Ok (is_infix key s)
  | VNone | VBool _ | VInt _ => Raise TypeError
  end.

(** [container[key]] for a string [key]. *)
Definition py_getitem (container : value) (key : pystr) : result value :=
  match container with
  | VDict d =>
      match d !! key with
      | Some v => Ok v
      | None => Raise KeyError
      end
  | _ => Raise TypeError
  end.

(** [container[key] = v] for a string [key]. *)
Definition py_setitem (container : value) (key : pystr) (v : value) : result value :=
  match container with
  | VDict d => Ok (VDict (<[key := v]> d))
  | _ => Raise TypeError
  end.

(** [left | right]: on two dicts, a new dict with the items of [left]
    updated by those of [right]; on integers and booleans, bitwise or. *)
Definition py_or (left right : value) : result value :=
  match left, right with
  | VDict d1, VDict d2 => Ok (VDict (d2 ∪ d1))
  | VBool a, VBool b => Ok (VBool (a || b))
  | VBool a, VInt z => Ok (VInt (Z.lor (Z.b2z a) z))
  | VInt z, VBool b => Ok (VInt (Z.lor z (Z.b2z b)))
  | VInt a, VInt b => Ok (VInt (Z.lor a b))
  | _, _ => Raise TypeError
  end.

(** [iter(x)]: the items a [for] loop visits. *)
Definition py_iter (v : value) : result (list value) :=
  match v with
  | VList l => Ok l
  | VStr s => Ok ((fun c => VStr [c]) <$> s)
  | VDict d => Ok ((fun kv => VStr kv.1) <$> map_to_list d)
  | VNone | VBool _ | VInt _ => Raise TypeError
  end.

(** [text.split('\n')] on an arbitrary object. *)
Definition py_split_lines (v : value) : result (list pystr) :=
  match v with
  | VStr s => Ok (str_split LF s)
  | _ => Raise AttributeError
  end.

(** [x.get(key, dflt)] for a string [key]. *)
Definition py_get (v : value) (key : pystr) (dflt : value) : result value :=
  match v with
  | VDict d => Ok (default dflt (d !! key))
  | _ => Raise AttributeError
  end.

(** [d.values()] *)
Definition py_values (v : value) : result (list value) :=
  match v with
  | VDict d => Ok ((map_to_list d).*2)
  | _ => Raise AttributeError
  end.

(** ** Hashing and sets *)

(** Hash keys: two hashable objects are equal for a [set] or a [dict]
    exactly when they have the same key ([True == 1], [False == 0]). *)
Inductive hkey :=
  | KNone
  | KNum (z : Z)
  | KStr (s : pystr).

#[global] Instance hkey_eq_dec : EqDecision hkey.
Proof. solve_decision. Defined.

Definition hkey_to_sum (k : hkey) : unit + (Z + pystr) :=
  match k with
  | KNone => inl tt
  | KNum z => inr (inl z)
  | KStr s => inr (inr s)
  end.

Definition hkey_of_sum (x : unit + (Z + pystr)) : hkey :=
  match x with
  | inl _ => KNone
  | inr (inl z) => KNum z
  | inr (inr s) => KStr s
  end.

#[global] Instance hkey_countable : Countable hkey.
Proof.
  refine (inj_countable' hkey_to_sum hkey_of_sum _).
  intros k. destruct k; reflexivity.
Defined.

(** [hash(v)]: lists and dicts are unhashable. *)
Definition py_hash (v : value) : result hkey :=
  match v with
  | VNone => Ok KNone
  | VBool b => Ok (KNum (Z.b2z b))
  | VInt z => Ok (KNum z)
  | VStr s => Ok (KStr s)
  | VList _ | VDict _ => Raise TypeError
  end.

Abbreviation pyset := (gmap hkey value).

(** [s.add(v)]: an object equal to a member is not inserted again. *)
Definition set_add (s : pyset) (v : value) : result pyset :=
  (k <- py_hash v ;;
   Ok (match s !! k with
       | Some _ => s
       | None => <[k := v]> s
       end))%res.

(** [s.update(items)] *)
Fixpoint set_update (s : pyset) (items : list value) : result pyset :=
  match items with
  | [] => Ok s
  | v :: rest => (s' <- set_add s v ;; set_update s' rest)%res
  end.

(** [list(s)], and the order in which [s] is iterated. *)
Definition set_to_list (s : pyset) : list value := (map_to_list s).*2.

(** [sep.join(items)]: every item has to be a [str]. *)
Fixpoint str_join (sep : pystr) (items : list value) : result pystr :=
  match items with
  | [] => Ok []
  | VStr s :: rest =>
      match rest with
      | [] => Ok s
      | _ :: _ => (joined <- str_join sep rest ;; Ok (s ++ sep ++ joined))%res
      end
  | _ :: _ => Raise TypeError
  end.

(** [d.get(key, dflt)] for an arbitrary [key]; the keys of a JSON object
    are strings, so only a string key can be found. *)
Definition py_get_value (d : value) (key dflt : value) : result value :=
  match d with
  | VDict m =>
      (k <- py_hash key ;;
       Ok (match k with
           | KStr s => default dflt (m !! s)
           | _ => dflt
           end))%res
  | _ => Raise AttributeError
  end.

(** ** The sanitizer *)

(** The class of the fallback pattern: everything outside the ranges
    U+0000-U+007F and U+0080-U+FFFF. *)
Definition outside_bmp (c : N) : bool :=
  negb ((c <=? 0x7F) || ((0x80 <=? c) && (c <=? 0xFFFF))).

(** [clean_unicode_text].  In the [try] block only the decoding step can
    raise; the handler then works on [text] as the first two steps left
    it. *)
Definition clean_unicode_text (text : value) : result value :=
  match text with
  | VStr s =>
      let text1 := re_sub_class Utf8.is_surrogate [] s in
      let text2 := str_replace esc_t [TAB] (str_replace esc_n [LF] text1) in
      rcatch
        (text3 <- Utf8.decode (Utf8.encode_ignore text2) ;; Ok (VStr text3))%res
        (fun _ => Ok (VStr (re_sub_class outside_bmp [SPACE] text2)))
  | _ => Ok text
  end.

(** The result of the three cleaning steps when none of them fails. *)
Definition sanitized (s : pystr) : pystr :=
  str_replace esc_t [TAB]
    (str_replace esc_n [LF] (re_sub_class Utf8.is_surrogate [] s)).

(** ** The environment: service, files, standard output, and the effect monad *)

(** The two requests sent to the service, each a fixed template with one
    hole. *)
Inductive prompt :=
  | ExtractPrompt (post : value)
  | UnifyPrompt (tags : pystr).

(** What one round [chain.invoke(...)], [response.content],
    [JsonOutputParser().parse(...)] comes to: the call raises, the parser
    rejects the text of the response with [OutputParserException], or a
    JSON value comes back. *)
Inductive llm_reply :=
  | Reply_raises (e : exn)
  | Reply_unparseable (text : pystr)
  | Reply_json (res : value).

(** What the output file holds once it was opened for writing.  Opening
    truncates it; the dump writes the JSON text piece by piece, and the
    text is that of the records only when the dump went through. *)
Inductive file_content :=
  | Unfinished
  | Dumped (posts : list value).

(** The requests sent so far, and the output file if the run opened it. *)
Record world := World {
  llm_log : list prompt;
  outfile : option (pystr * file_content)
}.

Definition M (A : Type) : Type := world -> result A * world.

Definition ret {A} (a : A) : M A := fun w => (Ok a, w).
Definition raise {A} (e : exn) : M A := fun w => (Raise e, w).
Definition lift {A} (r : result A) : M A := fun w => (r, w).

Definition bind {A B} (m : M A) (k : A -> M B) : M B := fun w =>
  match m w with
  | (Ok a, w') => k a w'
  | (Raise e, w') => (Raise e, w')
  end.

(** [try: body except e: handler]; what the handler raises is not caught
    again. *)
Definition catch {A} (body : M A) (handler : exn -> M A) : M A := fun w =>
  match body w with
  | (Ok a, w') => (Ok a, w')
  | (Raise e, w') => handler e w'
  end.

Declare Scope monad_scope.
Delimit Scope monad_scope with M.
Notation "x <- m ;; k" := (bind m (fun x => k))
  (at level 60, m at next level, right associativity) : monad_scope.

(** [str(e)] as the handlers print it: the message where it holds data,
    nothing for the classes whose message is ASCII. *)
Definition message (e : exn) : pystr :=
  match e with
  | OutputParserException msg | OSError msg | ServiceError msg => msg
  | _ => []
  end.

(** The message of the parser's exception:
    [f"Invalid json output: {text}"]. *)
Definition invalid_json (text : pystr) : pystr :=
  str "Invalid json output: " ++ text.

(** The message of the exception line 121 raises. *)
Definition context_too_big : pystr :=
  str "Context too big. Unable to parse jobs.".

(** The parts of a printed line: a literal of the f-string, a number, or a
    text. *)
Inductive piece :=
  | Lit (s : string)
  | Num (n : nat)
  | Txt (t : pystr).

(** Keys and constants. *)
Definition k_text : pystr := str "text".
Definition k_line_count : pystr := str "line_count".
Definition k_language : pystr := str "language".
Definition k_tags : pystr := str "tags".
Definition English : pystr := str "English".
Definition Hinglish : pystr := str "Hinglish".
Definition General : pystr := str "General".
Definition comma : pystr := str ",".

Definition required_keys : list pystr := [k_line_count; k_language; k_tags].

(** [all(key in res for key in keys)] *)
Fixpoint py_all_in (res : value) (keys : list pystr) : result bool :=
  match keys with
  | [] => Ok true
  | key :: rest =>
      (b <- py_contains res key ;;
       if b then py_all_in res rest else Ok false)%res
  end.

(** The metadata used when extraction fails. *)
Definition default_metadata (line_count : nat) : dict :=
  <[k_line_count := VInt (Z.of_nat line_count)]>
    (<[k_language := VStr English]>
       (<[k_tags := VList [VStr General]]> ∅)).

(** Lines 109-117 of [extract_metadata]: the checks on the parsed
    response, and [tags] made a list. *)
Definition validate_response (res : value) : result value :=
  (has_all <- py_all_in res required_keys ;;
   if negb has_all then Raise ValueError
   else
     tags <- py_getitem res k_tags ;;
     if is_list tags then Ok res
     else py_setitem res k_tags
            (if truthy tags then VList [tags] else VList [VStr General]))%res.

(** Lines 52-54 of [process_posts]: the defaults written into the post
    when extraction raised. *)
Definition set_defaults (post cleaned_text : value) : result value :=
  (parts <- py_split_lines cleaned_text ;;
   post <- py_setitem post k_line_count (VInt (Z.of_nat (length parts))) ;;
   post <- py_setitem post k_language (VStr English) ;;
   py_setitem post k_tags (VList [VStr General]))%res.

(** ** The pipeline *)

Section Pipeline.

(** The code points beyond ASCII that the encoding of the standard output
    has. *)
Variable stdout_encodes : N -> bool.

(** The generation service: given the prompts sent so far and the
    current one, what the round of invoking and parsing comes to. *)
Variable llm : list prompt -> prompt -> llm_reply.

(** Opening [processed_file_path] for writing (line 68), and dumping the
    records into the open file and closing it (line 69). *)
Variable open_w : pystr -> result unit.
Variable dump_json : pystr -> list value -> result unit.

(** Whether the standard output can encode a text. *)
Definition printable (text : pystr) : bool :=
  forallb (fun c => (c <? 0x80) || stdout_encodes c) text.

Definition piece_ok (p : piece) : bool :=
  match p with
  | Lit s => printable (str s)
  | Num _ => true
  | Txt t => printable t
  end.

(** [print(f"...")] *)
Definition print_line (line : list piece) : result unit :=
  if forallb piece_ok line then Ok tt else Raise UnicodeEncodeError.

(** Lines 105-107 and 166-168: one request, logged in the world. *)
Definition chain_invoke_parse (p : prompt) : M value := fun w =>
  let w' := World (llm_log w ++ [p]) (outfile w) in
  match llm (llm_log w) p with
  | Reply_raises e => (Raise e, w')
  | Reply_unparseable text =>
      (Raise (OutputParserException (invalid_json text)), w')
  | Reply_json res => (Ok res, w')
  end.

(** [extract_metadata] *)
Definition extract_metadata (post : value) : M value :=
  (cleaned_post <- lift (clean_unicode_text post) ;;
   catch
     (res <- chain_invoke_parse (ExtractPrompt cleaned_post) ;;
      lift (validate_response res))
     (fun e =>
        match e with
        | OutputParserException _ =>
            _ <- lift (print_line [Lit "JSON parsing error: "; Txt (message e)]) ;;
            raise (OutputParserException context_too_big)
        | _ =>
            _ <- lift (print_line [Lit "LLM processing error: "; Txt (message e)]) ;;
            parts <- lift (py_split_lines cleaned_post) ;;
            ret (VDict (default_metadata (length parts)))
        end))%M.

(** The body of the loop of [process_posts] (lines 39-55).  The handler
    of line 49 catches whatever [extract_metadata] raises, an exception of
    one of its prints included.  Line 39 prints two numbers, and line 50
    the exception caught, whose message is ASCII whatever the service
    said (see [extract_metadata_raises] below). *)
Definition enrich_post (post : value) : M value :=
  (text <- lift (py_getitem post k_text) ;;
   cleaned_text <- lift (clean_unicode_text text) ;;
   post <- lift (py_setitem post k_text cleaned_text) ;;
   catch
     (metadata <- extract_metadata cleaned_text ;;
      lift (py_or post metadata))
     (fun _ => lift (set_defaults post cleaned_text)))%M.

(** The loop of [process_posts] (line 38): the enriched posts, in
    order. *)
Fixpoint enrich_loop (posts : list value) : M (list value) :=
  match posts with
  | [] => ret []
  | post :: rest =>
      (enriched <- enrich_post post ;;
       others <- enrich_loop rest ;;
       ret (enriched :: others))%M
  end.

(** Lines 134-139 of [get_unified_tags]. *)
Fixpoint collect_unique_tags (unique_tags : pyset) (posts : list value)
  : result pyset :=
  match posts with
  | [] => Ok unique_tags
  | post :: rest =>
      (has_tags <- py_contains post k_tags ;;
       if has_tags then
         tags <- py_getitem post k_tags ;;
         match tags with
         | VList l =>
             unique_tags <- set_update unique_tags l ;;
             collect_unique_tags unique_tags rest
         | _ => collect_unique_tags unique_tags rest
         end
       else collect_unique_tags unique_tags rest)%res
  end.

(** [{tag: tag for tag in unique_tags}]; it is only built after the tags
    were joined, so every tag is a [str]. *)
Definition identity_mapping (unique_tags : pyset) : dict :=
  foldr (fun tag m =>
           match tag with
           | VStr s => <[s := tag]> m
           | _ => m
           end) ∅ (set_to_list unique_tags).

(** [get_unified_tags].  The print of line 145 is outside the [try]; those
    of lines 174 and 178 are inside the handlers.  Line 170 builds the set
    of the values, which may raise, and prints two numbers. *)
Definition get_unified_tags (posts_with_metadata : list value) : M value :=
  (unique_tags <- lift (collect_unique_tags ∅ posts_with_metadata) ;;
   if Nat.eqb (size unique_tags) 0 then ret (VDict ∅)
   else
     unique_tags_list <- lift (str_join comma (set_to_list unique_tags)) ;;
     _ <- lift (print_line [Lit "Found "; Num (size unique_tags);
                            Lit " unique tags: "; Txt unique_tags_list]) ;;
     catch
       (res <- chain_invoke_parse (UnifyPrompt unique_tags_list) ;;
        values <- lift (py_values res) ;;
        _ <- lift (set_update ∅ values) ;;
        ret res)
       (fun e =>
          match e with
          | OutputParserException _ =>
              _ <- lift (print_line [Lit "Tag unification parsing error: ";
                                     Txt (message e)]) ;;
              ret (VDict (identity_mapping unique_tags))
          | _ =>
              _ <- lift (print_line [Lit "Tag unification error: ";
                                     Txt (message e)]) ;;
              ret (VDict (identity_mapping unique_tags))
          end))%M.

(** [{unified_tags.get(tag, tag) for tag in current_tags}] *)
Fixpoint unified_set (unified_tags : value) (new_tags : pyset)
  (current_tags : list value) : result pyset :=
  match current_tags with
  | [] => Ok new_tags
  | tag :: rest =>
      (t <- py_get_value unified_tags tag tag ;;
       new_tags <- set_add new_tags t ;;
       unified_set unified_tags new_tags rest)%res
  end.

(** The body of the second loop of [process_posts] (lines 62-64). *)
Definition unify_post (unified_tags : value) (post : value) : result value :=
  (current_tags <- py_get post k_tags (VList []) ;;
   items <- py_iter current_tags ;;
   new_tags <- unified_set unified_tags ∅ items ;;
   py_setitem post k_tags (VList (set_to_list new_tags)))%res.

(** The second loop of [process_posts] (line 61). *)
Fixpoint apply_unified_tags (unified_tags : value) (posts : list value)
  : result (list value) :=
  match posts with
  | [] => Ok []
  | post :: rest =>
      (post' <- unify_post unified_tags post ;;
       rest' <- apply_unified_tags unified_tags rest ;;
       Ok (post' :: rest'))%res
  end.

(** Line 68: when opening fails the file is as it was; when it succeeds
    the file is truncated. *)
Definition open_for_writing (path : pystr) : M unit := fun w =>
  match open_w path with
  | Ok _ => (Ok tt, World (llm_log w) (Some (path, Unfinished)))
  | Raise e => (Raise e, w)
  end.

(** Line 69: when the dump fails the file keeps what was written of the
    text so far. *)
Definition write_json (path : pystr) (posts : list value) : M unit := fun w =>
  match dump_json path posts with
  | Ok _ => (Ok tt, World (llm_log w) (Some (path, Dumped posts)))
  | Raise e => (Raise e, w)
  end.

(** Lines 67-70: the file is written when a non-empty path is given, and
    the path is printed after the file is closed. *)
Definition save (processed_file_path : option pystr) (posts : list value)
  : M unit :=
  match processed_file_path with
  | Some path =>
      if truthy (VStr path) then
        (_ <- open_for_writing path ;;
         _ <- write_json path posts ;;
         lift (print_line [Lit "Processed "; Num (length posts);
                           Lit " posts saved to "; Txt path]))%M
      else ret tt
  | None => ret tt
  end.

(** [process_posts].  [raw_file] is what opening [raw_file_path] and
    [json.load] come to.  Each handler prints before it returns. *)
Definition process_posts (raw_file_path : pystr) (raw_file : result value)
  (processed_file_path : option pystr) : M (list value) :=
  catch
    (posts <- lift raw_file ;;
     items <- lift (py_iter posts) ;;
     enriched_posts <- enrich_loop items ;;
     unified_tags <- get_unified_tags enriched_posts ;;
     enriched_posts <- lift (apply_unified_tags unified_tags enriched_posts) ;;
     _ <- save processed_file_path enriched_posts ;;
     ret enriched_posts)%M
    (fun e =>
       match e with
       | FileNotFoundError =>
           (_ <- lift (print_line [Lit "Error: File "; Txt raw_file_path;
                                   Lit " not found"]) ;;
            ret [])%M
       | JSONDecodeError =>
           (_ <- lift (print_line [Lit "Error: Invalid JSON in ";
                                   Txt raw_file_path; Lit ": ";
                                   Txt (message e)]) ;;
            ret [])%M
       | _ =>
           (_ <- lift (print_line [Lit "Unexpected error: "; Txt (message e)]) ;;
            ret [])%M
       end).

End Pipeline.

(** ** Notions used in the statements *)

(** Unescaping one two-character sequence: [a b] becomes [c]. *)
Definition unescape (a b c : N) (s : pystr) : pystr := str_replace [a; b] [c] s.

(** Whether a text starts with the code point [x]. *)
Definition starts (x : N) (s : pystr) : bool :=
  match s with
  | y :: _ => x =? y
  | [] => false
  end.

(** Unicode scalar values: the code points UTF-8 can encode. *)
Definition scalar (c : N) : Prop :=
  c <= 0x10FFFF /\ Utf8.is_surrogate c = false.

(** The world after one more request. *)
Definition asked (p : prompt) (w : world) : world :=
  World (llm_log w ++ [p]) (outfile w).

(** [res['tags']] made a list (lines 114-115). *)
Definition normalize_tags (res : dict) : dict :=
  match res !! k_tags with
  | Some (VList _) | None => res
  | Some tags =>
      <[k_tags := if truthy tags then VList [tags] else VList [VStr General]]> res
  end.

Definition has_required_keys (res : dict) : bool :=
  forallb (fun key => bool_decide (is_Some (res !! key))) required_keys.

(** The metadata [extract_metadata] returns from a reply it accepts: a
    JSON object with the three required keys. *)
Definition accepted_metadata (reply : llm_reply) : option dict :=
  match reply with
  | Reply_json (VDict res) =>
      if has_required_keys res then Some (normalize_tags res) else None
  | _ => None
  end.

(** The message of the exception a failed round raises, as the handlers
    print it: what the call raised says, or what the parser says of the
    text.  On a parsed response the code and Python raise with ASCII
    messages. *)
Definition failure_message (reply : llm_reply) : pystr :=
  match reply with
  | Reply_raises e => message e
  | Reply_unparseable text => invalid_json text
  | Reply_json _ => []
  end.


(** The record enrichment is meant to produce: the post with its text
    sanitized, updated with the accepted metadata or else with the
    defaults. *)
Definition enriched_record (d : dict) (cleaned : pystr) (reply : llm_reply) : dict :=
  default (default_metadata (S (str_count LF cleaned))) (accepted_metadata reply)
  ∪ <[k_text := VStr cleaned]> d.

(** A record as the input file is meant to hold it: an object whose
    [text] is a string. *)
Definition well_formed_record (post : value) : Prop :=
  exists d text, post = VDict d /\ d !! k_text = Some (VStr text) /\ valid_str text.

(** The request the loop sends for a well-formed record. *)
Definition record_prompt (post : value) : prompt :=
  match post with
  | VDict d =>
      match d !! k_text with
      | Some (VStr text) => ExtractPrompt (VStr (sanitized text))
      | _ => ExtractPrompt VNone
      end
  | _ => ExtractPrompt VNone
  end.

(** The reply to the request for the record [post], the [i]-th of the
    batch [posts]: the request is made after those for the records before
    it. *)
Definition reply_at (llm : list prompt -> prompt -> llm_reply) (w : world)
  (posts : list value) (i : nat) (post : value) : llm_reply :=
  llm (llm_log w ++ (record_prompt <$> take i posts)) (record_prompt post).

(** What enrichment is meant to make of a well-formed record, given the
    reply to its request. *)
Definition enriched_post (post : value) (reply : llm_reply) : value :=
  match post with
  | VDict d =>
      match d !! k_text with
      | Some (VStr text) => VDict (enriched_record d (sanitized text) reply)
      | _ => post
      end
  | _ => post
  end.

(** The records of a batch, each enriched with the reply the service
    gives to its request; [log] holds the requests made before. *)
Fixpoint enriched_records (llm : list prompt -> prompt -> llm_reply)
  (log : list prompt) (posts : list value) : list value :=
  match posts with
  | [] => []
  | post :: rest =>
      enriched_post post (llm log (record_prompt post))
      :: enriched_records llm (log ++ [record_prompt post]) rest
  end.


(** Objects that can be members of a set. *)
Definition hashable (v : value) : Prop := exists k, py_hash v = Ok k.

(** Every member of a set sits under its own hash key. *)
Definition keyed (s : pyset) : Prop :=
  forall k v, s !! k = Some v -> py_hash v = Ok k.

(** [mapping.get(tag, tag)] *)
Definition mapping_get (m : dict) (tag : value) : value :=
  match tag with
  | VStr s => default tag (m !! s)
  | _ => tag
  end.

(** [l] lists the set of the objects [xs]: it has no two equal objects,
    all its objects are among [xs], and every object of [xs] has an equal
    one in it. *)
Definition lists_set_of (l xs : list value) : Prop :=
  NoDup (py_hash <$> l)
  /\ (forall v, v ∈ l -> v ∈ xs)
  /\ (forall x, x ∈ xs -> exists v, v ∈ l /\ py_hash v = py_hash x).

(** The ways in which the unification request fails: the call raises, the
    response is not parseable, or line 170 raises on what was parsed. *)
Inductive unification_fails : llm_reply -> Prop :=
  | unify_call_raises e : unification_fails (Reply_raises e)
  | unify_unparseable text : unification_fails (Reply_unparseable text)
  | unify_rejected res e :
      rbind (py_values res) (set_update ∅) = Raise e ->
      unification_fails (Reply_json res).

(** The mapping [get_unified_tags] is left with when the request was made
    with the collected tags [T] and the service gave [reply]: the parsed
    object if line 170 goes through, the identity mapping otherwise. *)
Definition mapping_of_reply (T : pyset) (reply : llm_reply) : value :=
  match reply with
  | Reply_json res =>
      match rbind (py_values res) (set_update ∅) with
      | Ok _ => res
      | Raise _ => VDict (identity_mapping T)
      end
  | _ => VDict (identity_mapping T)
  end.

(** The fields enrichment and unification write. *)
Definition written_keys : list pystr := [k_text; k_line_count; k_language; k_tags].

(** The field a response carries under [key], when the response is
    accepted. *)
Definition response_field (reply : llm_reply) (key : pystr) : option value :=
  match reply with
  | Reply_json (VDict res) => if has_required_keys res then res !! key else None
  | _ => None
  end.

(** What an output record is meant to satisfy at least: the three fields
    are there and the tags are a list. *)
Definition has_metadata (o : value) : Prop :=
  exists d l,
    o = VDict d /\ is_Some (d !! k_line_count) /\ is_Some (d !! k_language)
    /\ d !! k_tags = Some (VList l).

(** The stronger reading: a line count that is not null, one of the two
    languages, and at least one tag. *)
Definition strictly_enriched (o : value) : Prop :=
  exists d line_count language tags,
    o = VDict d
    /\ d !! k_line_count = Some line_count /\ line_count <> VNone
    /\ d !! k_language = Some (VStr language)
    /\ (language = English \/ language = Hinglish)
    /\ d !! k_tags = Some (VList tags) /\ tags <> [].

(** Total coverage under the stronger reading. *)
Definition total_enrichment_claim (stdout_encodes : N -> bool)
  (llm : list prompt -> prompt -> llm_reply)
  (posts : list value) (w : world) : Prop :=
  exists out w',
    enrich_loop stdout_encodes llm posts w = (Ok out, w')
    /\ length out = length posts
    /\ Forall strictly_enriched out.

(** A record [post'] carries as tags the list of the set of the tags of
    [post] passed through the mapping [m], and is [post] otherwise. *)
Definition tags_unified (m : dict) (post post' : value) : Prop :=
  exists d ts l,
    post = VDict d /\ d !! k_tags = Some (VList ts)
    /\ post' = VDict (<[k_tags := VList l]> d)
    /\ lists_set_of l (mapping_get m <$> ts).

Section Readings.
Variable stdout_encodes : N -> bool.
Variable llm : list prompt -> prompt -> llm_reply.
Variable open_w : pystr -> result unit.
Variable dump_json : pystr -> list value -> result unit.
Variable raw_file_path : pystr.
Variable posts : list value.
Variable path : option pystr.
Variable w : world.


(** Unification read of every object the service returns for the request:
    the result of the run carries the tags mapped through it. *)
Definition unified_tags_claim : Prop :=
  forall enriched w1 T joined m out w',
    enrich_loop stdout_encodes llm posts w = (Ok enriched, w1) ->
    collect_unique_tags ∅ enriched = Ok T ->
    str_join comma (set_to_list T) = Ok joined ->
    llm (llm_log w1) (UnifyPrompt joined) = Reply_json (VDict m) ->
    process_posts stdout_encodes llm open_w dump_json raw_file_path
      (Ok (VList posts)) path w = (Ok out, w') ->
    Forall2 (tags_unified m) enriched out.

(** The reading of field preservation that holds for every response. *)
Definition fields_preserved_claim : Prop :=
  forall i d key out w',
    process_posts stdout_encodes llm open_w dump_json raw_file_path
      (Ok (VList posts)) path w = (Ok out, w') ->
    posts !! i = Some (VDict d) -> key ∉ written_keys ->
    exists d', out !! i = Some (VDict d') /\ d' !! key = d !! key.

End Readings.

(** What the handlers of [process_posts] come to on the exception [e]:
    they print the path of the input file or the message of [e], and
    return the empty list. *)
Definition reported (stdout_encodes : N -> bool) (raw_file_path : pystr)
  (e : exn) : result (list value) :=
  if printable stdout_encodes
       match e with
       | FileNotFoundError | JSONDecodeError => raw_file_path
       | _ => message e
       end
  then Ok [] else Raise UnicodeEncodeError.

(** A computation that leaves the output file alone. *)
Definition keeps_file {A} (m : M A) : Prop :=
  forall w, outfile (m w).2 = outfile w.

Definition is_str (v : value) : Prop := exists s, v = VStr s.

(** A record whose tag list, if it has one, holds strings only. *)
Definition string_tagged (post : value) : Prop :=
  exists d,
    post = VDict d
    /\ forall ts, d !! k_tags = Some (VList ts) -> Forall is_str ts.

(** A service whose accepted extraction responses have strings for
    tags. *)
Definition sends_string_tags (llm : list prompt -> prompt -> llm_reply) : Prop :=
  forall h p m,
    accepted_metadata (llm h p) = Some m ->
    exists ts, m !! k_tags = Some (VList ts) /\ Forall is_str ts.

(** What every record of the result has: the text, the three fields of
    the metadata, and as tags a list without two equal members. *)
Definition complete_record (o : value) : Prop :=
  exists d l,
    o = VDict d
    /\ is_Some (d !! k_text) /\ is_Some (d !! k_line_count)
    /\ is_Some (d !! k_language)
    /\ d !! k_tags = Some (VList l) /\ NoDup (py_hash <$> l).

(** An exception whose message is ASCII. *)
Definition plain (e : exn) : Prop :=
  e = ValueError \/ e = TypeError \/ e = KeyError \/ e = AttributeError
  \/ e = UnicodeDecodeError \/ e = UnicodeEncodeError.

(** ** Concrete runs *)

Definition w0 : world := World [] None.

(** A standard output in UTF-8: it has every code point but the
    surrogates. *)
Definition stdout_utf8 : N -> bool := fun c => negb (Utf8.is_surrogate c).

(** A file system on which the output file can be written. *)
Definition open_ok : pystr -> result unit := fun _ => Ok tt.
Definition dump_ok : pystr -> list value -> result unit := fun _ _ => Ok tt.

(** One on which it cannot be opened, and one on which the dump fails. *)
Definition open_fails : pystr -> result unit := fun path =>
  Raise (OSError (str "[Errno 13] Permission denied: " ++ path)).

(** A post with a text and a counter. *)
Definition post_hello : value :=
  VDict (<[k_text := VStr (str "hello")]> (<[str "likes" := VInt 5]> ∅)).

(** A post with a text and no other field. *)
Definition post_bare : value := VDict (<[k_text := VStr (str "hello")]> ∅).

(** A service that answers every request with an object that has the
    three keys, but a null count, another language and no tag. *)
Definition llm_french : list prompt -> prompt -> llm_reply := fun _ _ =>
  Reply_json
    (VDict (<[k_line_count := VNone]>
              (<[k_language := VStr (str "French")]>
                 (<[k_tags := VList []]> ∅)))).

(** A service whose extraction response carries a field of its own. *)
Definition llm_likes : list prompt -> prompt -> llm_reply := fun _ p =>
  match p with
  | ExtractPrompt _ =>
      Reply_json
        (VDict (<[k_line_count := VInt 1]>
                  (<[k_language := VStr English]>
                     (<[k_tags := VList [VStr (str "Greeting")]]>
                        (<[str "likes" := VInt 0]> ∅)))))
  | UnifyPrompt _ => Reply_unparseable (str "sorry")
  end.

(** A service that never answers with JSON. *)
Definition llm_garbled : list prompt -> prompt -> llm_reply := fun _ _ =>
  Reply_unparseable (str "sorry").

(** A service that does not answer the extraction requests with JSON, and
    renames the default tag when asked to unify. *)
Definition llm_renames : list prompt -> prompt -> llm_reply := fun _ p =>
  match p with
  | ExtractPrompt _ => Reply_unparseable (str "sorry")
  | UnifyPrompt _ => Reply_json (VDict (<[General := VStr (str "Misc")]> ∅))
  end.

(** The merge scenario: three tagged records and the mapping of the
    prompt's own example. *)
Definition tagged (text tag : string) : value :=
  VDict (<[k_tags := VList [VStr (str tag)]]>
           (<[k_text := VStr (str text)]> ∅)).

Definition scenario_posts : list value :=
  [tagged "first" "Jobseekers"; tagged "second" "Job Hunting";
   tagged "third" "Motivation"].

Definition scenario_mapping : dict :=
  <[str "Jobseekers" := VStr (str "Job Search")]>
    (<[str "Job Hunting" := VStr (str "Job Search")]>
       (<[str "Motivation" := VStr (str "Motivation")]> ∅)).

Definition scenario_result : list value :=
  [tagged "first" "Job Search"; tagged "second" "Job Search";
   tagged "third" "Motivation"].

Definition llm_scenario : list prompt -> prompt -> llm_reply := fun _ _ =>
  Reply_json (VDict scenario_mapping).

(** The metadata of a response with one tag. *)
Definition one_tag (tag : string) : value :=
  VDict (<[k_line_count := VInt 1]>
           (<[k_language := VStr English]>
              (<[k_tags := VList [VStr (str tag)]]> ∅))).

(** [post_bare] enriched with one tag. *)
Definition post_bare_tagged (tag : string) : value :=
  VDict (<[k_text := VStr (str "hello")]>
           (<[k_line_count := VInt 1]>
              (<[k_language := VStr English]>
                 (<[k_tags := VList [VStr (str tag)]]> ∅)))).

(** A service that tags every post "a" and answers the unification
    request with an object one of whose values is a list. *)
Definition llm_list_value : list prompt -> prompt -> llm_reply := fun _ p =>
  match p with
  | ExtractPrompt _ => Reply_json (one_tag "a")
  | UnifyPrompt _ =>
      Reply_json (VDict (<[str "a" := VStr (str "b")]>
                           (<[str "x" := VList [VStr (str "y")]]> ∅)))
  end.

(** A service that tags every post "a" and answers the unification
    request with a text that is not JSON and holds a lone surrogate. *)
Definition llm_surrogate : list prompt -> prompt -> llm_reply := fun _ p =>
  match p with
  | ExtractPrompt _ => Reply_json (one_tag "a")
  | UnifyPrompt _ => Reply_unparseable [0xD800]
  end.

(** The name of a file with a byte that is not UTF-8, as Python decodes
    it: the byte E9 becomes the code point U+DCE9. *)
Definition path_latin : pystr := str "donn" ++ [0xDCE9] ++ str "es.json".

(** What the run on [post_hello] with [llm_likes] returns: the counter of
    the post has the value the service sent. *)
Definition post_hello_overwritten : value :=
  VDict (<[k_text := VStr (str "hello")]>
           (<[str "likes" := VInt 0]>
              (<[k_line_count := VInt 1]>
                 (<[k_language := VStr English]>
                    (<[k_tags := VList [VStr (str "Greeting")]]> ∅))))).

(** A service that answers every extraction request with two tags and a
    line count, and every unification request with a mapping. *)
Definition llm_tags : list prompt -> prompt -> llm_reply := fun _ p =>
  match p with
  | ExtractPrompt _ =>
      Reply_json
        (VDict (<[k_line_count := VInt 1]>
                  (<[k_language := VStr English]>
                     (<[k_tags := VList [VStr (str "a"); VStr (str "b")]]> ∅))))
  | UnifyPrompt _ =>
      Reply_json (VDict (<[str "a" := VStr (str "c")]>
                           (<[str "b" := VStr (str "c")]> ∅)))
  end.

(** A service whose extraction response has a number among the tags. *)
Definition llm_numeric : list prompt -> prompt -> llm_reply := fun _ p =>
  match p with
  | ExtractPrompt _ =>
      Reply_json
        (VDict (<[k_line_count := VInt 1]>
                  (<[k_language := VStr English]>
                     (<[k_tags := VList [VInt 7]]> ∅))))
  | UnifyPrompt _ => Reply_unparseable (str "sorry")
  end.

(** A service that raises on every call. *)
Definition llm_down : list prompt -> prompt -> llm_reply := fun _ _ =>
  Reply_raises (ServiceError (str "connection refused")).

(** A service that never answers with JSON, and whose text holds a lone
    surrogate. *)
Definition llm_garbled_surrogate : list prompt -> prompt -> llm_reply := fun _ _ =>
  Reply_unparseable [0xD800].

(** A service whose extraction response has a tag with a lone surrogate,
    as the JSON escape backslash-u-d800 gives it. *)
Definition llm_tag_surrogate : list prompt -> prompt -> llm_reply := fun _ p =>
  match p with
  | ExtractPrompt _ =>
      Reply_json
        (VDict (<[k_line_count := VInt 1]>
                  (<[k_language := VStr English]>
                     (<[k_tags := VList [VStr [0xD800]]]> ∅))))
  | UnifyPrompt _ => Reply_json (VDict ∅)
  end.

(** A standard output that has every code point, as one that escapes
    what its encoding lacks. *)
Definition stdout_escaping : N -> bool := fun _ => true.

(** What the run on [post_bare] returns when the service never answers
    with JSON. *)
Definition post_bare_defaulted : value :=
  VDict (<[k_text := VStr (str "hello")]>
           (<[k_line_count := VInt 1]>
              (<[k_language := VStr English]>
                 (<[k_tags := VList [VStr General]]> ∅)))).

(** * Properties *)

(** ** Strings *)

Ltac divlia := zify; Z.to_euclidean_division_equations; lia.

(** Decide every comparison in the goal and discard the impossible
    branches. *)
Ltac cmp_cases :=
  repeat match goal with
  | |- context [?a <? ?b] => destruct (N.ltb_spec a b); try lia
  | |- context [?a <=? ?b] => destruct (N.leb_spec a b); try lia
  end.

Lemma is_infix_cons p c s :
  is_infix p (c :: s) = starts_with p (c :: s) || is_infix p s.
Proof. reflexivity. Qed.

Lemma replace_from_cons_0 old new c r :
  replace_from old new 0 (c :: r)
  = if starts_with old (c :: r)
    then new ++ replace_from old new (Nat.pred (length old)) r
    else c :: replace_from old new 0 r.
Proof. reflexivity. Qed.

(** A string without an occurrence of [old] is left as it is. *)
Lemma replace_from_absent old new s :
  is_infix old s = false -> replace_from old new 0 s = s.
Proof.
  induction s as [|c r IH]; intros H; [reflexivity|].
  rewrite is_infix_cons in H. apply orb_false_iff in H as [H1 H2].
  rewrite replace_from_cons_0, H1. f_equal. auto.
Qed.

Lemma str_replace_absent old new s :
  old <> [] -> is_infix old s = false -> str_replace old new s = s.
Proof.
  intros Hold H. destruct old as [|a old]; [done|].
  apply replace_from_absent, H.
Qed.

(** Replacement keeps a property that holds of the text and of the
    replacement. *)
Lemma replace_from_Forall (P : N -> Prop) old new k s :
  Forall P new -> Forall P s -> Forall P (replace_from old new k s).
Proof.
  intros Hnew Hs. revert k. induction Hs as [|c r Hc Hr IH]; intros k.
  - destruct k; constructor.
  - destruct k as [|k]; [|apply IH].
    rewrite replace_from_cons_0. destruct (starts_with _ _).
    + apply Forall_app. split; [assumption | apply IH].
    + constructor; [assumption | apply IH].
Qed.

(** *** Two-character escapes *)

Section Escape.
(** [a b] is replaced by [c]. *)
Variables a b c : N.

Local Abbreviation unescape := (unescape a b c).

Lemma unescape_one x : unescape [x] = [x].
Proof.
  unfold unescape, str_replace. rewrite replace_from_cons_0. simpl.
  rewrite andb_false_r. reflexivity.
Qed.

Lemma unescape_two x y r :
  unescape (x :: y :: r)
  = if (a =? x) && (b =? y) then c :: unescape r
    else x :: unescape (y :: r).
Proof.
  unfold unescape, str_replace. rewrite replace_from_cons_0.
  cbn [starts_with]. rewrite andb_true_r.
  destruct ((a =? x) && (b =? y)); reflexivity.
Qed.

Lemma infix2_cons u v x s :
  is_infix [u; v] (x :: s) = (u =? x) && starts v s || is_infix [u; v] s.
Proof.
  rewrite is_infix_cons. f_equal. destruct s as [|y s]; cbn.
  - reflexivity.
  - rewrite andb_true_r. reflexivity.
Qed.

(** An induction principle that follows [unescape]. *)
Lemma unescape_ind (P : pystr -> Prop) :
  P [] -> (forall x, P [x]) ->
  (forall x y r, P r -> P (y :: r) -> P (x :: y :: r)) ->
  forall s, P s.
Proof.
  intros H0 H1 H2 s.
  assert (P s /\ forall x, P (x :: s)) as [? _]; [|assumption].
  induction s as [|y r [IHr IHyr]]; [by split|].
  split; [apply IHyr|]. intros x. apply H2; [assumption | apply IHyr].
Qed.

(** What the result starts with. *)
Lemma starts_unescape v s :
  v <> c -> starts v (unescape s) = true -> starts v s = true.
Proof.
  intros Hv. destruct s as [|x [|y r]]; [done | by rewrite unescape_one |].
  rewrite unescape_two. destruct ((a =? x) && (b =? y)); [|done].
  cbn. intros ?%N.eqb_eq. done.
Qed.

(** The pair [u v] does not arise from unescaping when [c] is neither
    [u] nor [v]. *)
Lemma unescape_no_new_pair u v s :
  u <> c -> v <> c ->
  is_infix [u; v] s = false -> is_infix [u; v] (unescape s) = false.
Proof.
  intros Hu Hv. induction s as [| x | x y r IHr IHyr] using unescape_ind.
  - done.
  - by rewrite unescape_one.
  - intros H. rewrite infix2_cons in H.
    apply orb_false_iff in H as [Hxy Hrest].
    rewrite unescape_two. destruct ((a =? x) && (b =? y)) eqn:Hm.
    + rewrite infix2_cons. apply orb_false_iff. split.
      * apply andb_false_iff. left. apply N.eqb_neq. congruence.
      * apply IHr. rewrite infix2_cons in Hrest.
        by apply orb_false_iff in Hrest as [_ ?].
    + rewrite infix2_cons. apply orb_false_iff. split; [|by apply IHyr].
      destruct (u =? x) eqn:Hux; [|done]. cbn in Hxy |- *.
      destruct (starts v (unescape (y :: r))) eqn:Hst; [|done].
      apply starts_unescape in Hst; [|done]. cbn in Hst. congruence.
Qed.

(** After unescaping, no occurrence of [a b] is left. *)
Lemma unescape_complete s :
  a <> c -> b <> c -> is_infix [a; b] (unescape s) = false.
Proof.
  intros Ha Hb. induction s as [| x | x y r IHr IHyr] using unescape_ind.
  - done.
  - rewrite unescape_one. cbn. by rewrite !andb_false_r.
  - rewrite unescape_two. destruct ((a =? x) && (b =? y)) eqn:Hm.
    + rewrite infix2_cons, IHr. apply orb_false_iff. split; [|done].
      apply andb_false_iff. left. apply N.eqb_neq. congruence.
    + rewrite infix2_cons, IHyr. apply orb_false_iff. split; [|done].
      destruct (a =? x) eqn:Hax; [|done]. cbn.
      destruct (starts b (unescape (y :: r))) eqn:Hst; [|done].
      apply starts_unescape in Hst; [|done]. cbn in Hst.
      cbn in Hm. congruence.
Qed.

End Escape.

(** [len(s.split(sep)) = s.count(sep) + 1] *)
Lemma str_split_nonempty sep s : str_split sep s <> [].
Proof.
  induction s as [|c r IH]; [done|]. cbn.
  destruct (c =? sep); [done|]. by destruct (str_split sep r).
Qed.

Lemma length_str_split sep s :
  length (str_split sep s) = S (str_count sep s).
Proof.
  induction s as [|c r IH]; [reflexivity|]. cbn.
  destruct (c =? sep); cbn; [by rewrite IH|].
  pose proof (str_split_nonempty sep r).
  destruct (str_split sep r); [done | exact IH].
Qed.

(** Check an ASCII literal code point by code point. *)
Ltac literal_valid :=
  unfold valid_str;
  match goal with
  | |- Forall _ ?l => let l' := eval vm_compute in l in change l with l'
  end;
  repeat (constructor; [lia|]); constructor.

(** An ASCII literal is a Python string. *)
Lemma str_valid (s : string) : valid_str (str s).
Proof.
  unfold valid_str, str. apply Forall_fmap, Forall_forall. intros a _.
  pose proof (N_ascii_bounded a). cbn. lia.
Qed.

(** ** UTF-8: decoding what was encoded *)

Module Utf8Facts.
Import Utf8.

Lemma decode_1 b1 rest :
  b1 < 0x80 ->
  decode (b1 :: rest) = rbind (decode rest) (fun s => Ok (b1 :: s)).
Proof. intros H. cbn [decode]. cmp_cases. reflexivity. Qed.

Lemma decode_2 b1 b2 rest :
  0xC0 <= b1 < 0xE0 -> 0x80 <= b2 < 0xC0 ->
  0x80 <= (b1 - 0xC0) * 64 + (b2 - 0x80) ->
  decode (b1 :: b2 :: rest)
  = rbind (decode rest)
      (fun s => Ok (((b1 - 0xC0) * 64 + (b2 - 0x80)) :: s)).
Proof.
  intros H1 H2 H3. cbn [decode]. unfold is_cont, payload.
  cmp_cases. reflexivity.
Qed.

Lemma decode_3 b1 b2 b3 rest :
  0xE0 <= b1 < 0xF0 -> 0x80 <= b2 < 0xC0 -> 0x80 <= b3 < 0xC0 ->
  let c := (b1 - 0xE0) * 4096 + (b2 - 0x80) * 64 + (b3 - 0x80) in
  0x800 <= c -> is_surrogate c = false ->
  decode (b1 :: b2 :: b3 :: rest)
  = rbind (decode rest) (fun s => Ok (c :: s)).
Proof.
  intros H1 H2 H3 c Hc Hs. cbn [decode]. unfold is_cont, payload.
  fold c. rewrite Hs. cmp_cases. reflexivity.
Qed.

Lemma decode_4 b1 b2 b3 b4 rest :
  0xF0 <= b1 < 0xF8 -> 0x80 <= b2 < 0xC0 -> 0x80 <= b3 < 0xC0 ->
  0x80 <= b4 < 0xC0 ->
  let c := (b1 - 0xF0) * 262144 + (b2 - 0x80) * 4096
           + (b3 - 0x80) * 64 + (b4 - 0x80) in
  0x10000 <= c <= 0x10FFFF ->
  decode (b1 :: b2 :: b3 :: b4 :: rest)
  = rbind (decode rest) (fun s => Ok (c :: s)).
Proof.
  intros H1 H2 H3 H4 c Hc. cbn [decode]. unfold is_cont, payload.
  fold c. cmp_cases. reflexivity.
Qed.

(** One code point. *)
Lemma decode_encode_cp c rest :
  scalar c ->
  decode (encode_cp c ++ rest) = rbind (decode rest) (fun s => Ok (c :: s)).
Proof.
  intros [Hmax Hsur]. unfold encode_cp.
  destruct (N.ltb_spec c 0x80); [by apply decode_1|].
  destruct (N.ltb_spec c 0x800).
  { cbn [app]. rewrite decode_2 by divlia.
    replace ((0xC0 + c / 64 - 0xC0) * 64 + (0x80 + c mod 64 - 0x80))
      with c by divlia. reflexivity. }
  destruct (N.ltb_spec c 0x10000).
  { cbn [app].
    assert ((0xE0 + c / 4096 - 0xE0) * 4096
            + (0x80 + (c / 64) mod 64 - 0x80) * 64
            + (0x80 + c mod 64 - 0x80) = c) as Hc by divlia.
    rewrite decode_3; rewrite ?Hc; try divlia; done. }
  cbn [app].
  assert ((0xF0 + c / 262144 - 0xF0) * 262144
          + (0x80 + (c / 4096) mod 64 - 0x80) * 4096
          + (0x80 + (c / 64) mod 64 - 0x80) * 64
          + (0x80 + c mod 64 - 0x80) = c) as Hc by divlia.
  rewrite decode_4; rewrite ?Hc; try divlia; done.
Qed.

(** A text without surrogates survives encoding and decoding. *)
Lemma decode_encode s :
  Forall scalar s -> decode (encode_ignore s) = Ok s.
Proof.
  induction 1 as [|c r Hc Hr IH]; [reflexivity|].
  unfold encode_ignore. cbn [flat_map].
  destruct Hc as [Hmax Hsur]. rewrite Hsur.
  rewrite decode_encode_cp by done.
  fold (encode_ignore r). rewrite IH. reflexivity.
Qed.

(** Removing the surrogates leaves scalar values only. *)
Lemma strip_scalar s :
  valid_str s -> Forall scalar (re_sub_class is_surrogate [] s).
Proof.
  induction 1 as [|c r Hc Hr IH]; [constructor|].
  unfold re_sub_class. cbn [flat_map].
  destruct (is_surrogate c) eqn:Hs; [exact IH|].
  constructor; [by split | exact IH].
Qed.

Lemma strip_id s :
  Forall scalar s -> re_sub_class is_surrogate [] s = s.
Proof.
  induction 1 as [|c r [_ Hc] Hr IH]; [reflexivity|].
  unfold re_sub_class. cbn [flat_map]. rewrite Hc. cbn. f_equal. exact IH.
Qed.

End Utf8Facts.

(** ** The sanitizer *)

Lemma sanitized_scalar s :
  valid_str s -> Forall scalar (sanitized s).
Proof.
  intros Hs. unfold sanitized, str_replace, esc_t, esc_n.
  apply replace_from_Forall; [by repeat constructor|].
  apply replace_from_Forall; [by repeat constructor|].
  by apply Utf8Facts.strip_scalar.
Qed.

(** On a Python string the first pass never fails. *)
Lemma clean_unicode_text_str s :
  valid_str s -> clean_unicode_text (VStr s) = Ok (VStr (sanitized s)).
Proof.
  intros Hs. unfold clean_unicode_text. fold (sanitized s).
  rewrite Utf8Facts.decode_encode by by apply sanitized_scalar.
  reflexivity.
Qed.

Lemma sanitized_no_escape s :
  is_infix esc_n (sanitized s) = false /\ is_infix esc_t (sanitized s) = false.
Proof.
  unfold sanitized. split.
  - apply (unescape_no_new_pair BACKSLASH 116 TAB); [done..|].
    by apply (unescape_complete BACKSLASH 110 LF).
  - by apply (unescape_complete BACKSLASH 116 TAB).
Qed.

Lemma sanitized_fixed s :
  Forall scalar s ->
  is_infix esc_n s = false -> is_infix esc_t s = false ->
  sanitized s = s.
Proof.
  intros Hs Hn Ht. unfold sanitized.
  rewrite Utf8Facts.strip_id by done.
  rewrite (str_replace_absent esc_n) by done.
  by rewrite (str_replace_absent esc_t).
Qed.

Lemma sanitized_idempotent s :
  valid_str s -> sanitized (sanitized s) = sanitized s.
Proof.
  intros Hs. destruct (sanitized_no_escape s).
  apply sanitized_fixed; [by apply sanitized_scalar | done..].
Qed.

Lemma sanitized_valid s : valid_str s -> valid_str (sanitized s).
Proof.
  intros Hs. eapply Forall_impl; [by apply sanitized_scalar|].
  by intros c [? _].
Qed.

(** ** The effect monad *)

Lemma bind_Ok {A B} (m : M A) (k : A -> M B) w a w1 :
  m w = (Ok a, w1) -> bind m k w = k a w1.
Proof. intros H. unfold bind. by rewrite H. Qed.

Lemma bind_Ok_inv {A B} (m : M A) (k : A -> M B) w b w' :
  bind m k w = (Ok b, w') ->
  exists a w1, m w = (Ok a, w1) /\ k a w1 = (Ok b, w').
Proof.
  unfold bind. destruct (m w) as [[a|e] w1]; [eauto | discriminate].
Qed.

Lemma catch_Ok_inv {A} (body : M A) handler w a w' :
  catch body handler w = (Ok a, w') ->
  body w = (Ok a, w') \/
  exists e w1, body w = (Raise e, w1) /\ handler e w1 = (Ok a, w').
Proof.
  unfold catch. destruct (body w) as [[a1|e] w1]; [by left | eauto].
Qed.

Lemma lift_Ok_inv {A} (r : result A) w a w' :
  lift r w = (Ok a, w') -> r = Ok a /\ w' = w.
Proof. unfold lift. by intros [= -> ->]. Qed.

Lemma rbind_Ok_inv {A B} (m : result A) (k : A -> result B) b :
  rbind m k = Ok b -> exists a, m = Ok a /\ k a = Ok b.
Proof. destruct m; [eauto | discriminate]. Qed.

(** ** Values *)

Lemma py_getitem_Ok_inv c key v :
  py_getitem c key = Ok v -> exists d, c = VDict d /\ d !! key = Some v.
Proof.
  destruct c as [| | | | |d]; try discriminate. cbn.
  destruct (d !! key) eqn:E; [|discriminate]. intros [= ->]. eauto.
Qed.

Lemma py_setitem_Ok_inv c key v c' :
  py_setitem c key v = Ok c' -> exists d, c = VDict d /\ c' = VDict (<[key := v]> d).
Proof. destruct c; try discriminate. cbn. intros [= <-]. eauto. Qed.

Lemma py_or_dict_Ok_inv d right o :
  py_or (VDict d) right = Ok o -> exists m, right = VDict m /\ o = VDict (m ∪ d).
Proof. destruct right; try discriminate. cbn. intros [= <-]. eauto. Qed.

Lemma clean_unicode_text_total v : exists v', clean_unicode_text v = Ok v'.
Proof.
  destruct v; cbn; eauto.
  destruct (Utf8.decode _); cbn; eauto.
Qed.

(** The keys are pairwise distinct. *)
Ltac key_neq := let H := fresh in intros H; vm_compute in H; discriminate.

Lemma has_required_keys_spec res :
  has_required_keys res = true <->
  is_Some (res !! k_line_count) /\ is_Some (res !! k_language)
  /\ is_Some (res !! k_tags).
Proof.
  unfold has_required_keys, required_keys. cbn [forallb].
  rewrite !andb_true_iff, !bool_decide_eq_true. tauto.
Qed.

Lemma py_all_in_dict res :
  py_all_in (VDict res) required_keys = Ok (has_required_keys res).
Proof.
  unfold has_required_keys, required_keys. cbn [py_all_in forallb py_contains rbind].
  repeat (destruct (bool_decide _); cbn [andb]; try reflexivity).
Qed.


Lemma default_metadata_union (n : nat) (post : dict) :
  default_metadata n ∪ post
  = <[k_tags := VList [VStr General]]>
      (<[k_language := VStr English]>
         (<[k_line_count := VInt (Z.of_nat n)]> post)).
Proof.
  unfold default_metadata.
  rewrite <- !insert_union_l, (left_id_L ∅ (∪)).
  rewrite (insert_insert_ne _ k_language k_tags) by key_neq.
  rewrite (insert_insert_ne _ k_line_count k_tags) by key_neq.
  rewrite (insert_insert_ne _ k_line_count k_language) by key_neq.
  reflexivity.
Qed.
(** ** Printing *)

Lemma printable_nil enc : printable enc [] = true.
Proof. reflexivity. Qed.

Lemma printable_app enc (a b : pystr) :
  printable enc (a ++ b) = printable enc a && printable enc b.
Proof. unfold printable. apply forallb_app. Qed.

(** The literal in front of the rejected text is ASCII. *)
Lemma printable_invalid_json enc text :
  printable enc (invalid_json text) = printable enc text.
Proof. unfold invalid_json. rewrite printable_app. reflexivity. Qed.

(** A line made of an ASCII literal and a text. *)
Lemma print_line_text enc (lit : string) (t : pystr) :
  printable enc (str lit) = true ->
  print_line enc [Lit lit; Txt t]
  = if printable enc t then Ok tt else Raise UnicodeEncodeError.
Proof.
  intros Hlit. unfold print_line. cbn [forallb piece_ok].
  by rewrite Hlit, andb_true_r.
Qed.

(** Lines, piece by piece. *)
Lemma print_line_nil enc : print_line enc [] = Ok tt.
Proof. reflexivity. Qed.

Lemma print_line_lit enc (lit : string) rest :
  printable enc (str lit) = true ->
  print_line enc (Lit lit :: rest) = print_line enc rest.
Proof. intros H. unfold print_line. cbn [forallb piece_ok]. by rewrite H. Qed.

Lemma print_line_num enc (n : nat) rest :
  print_line enc (Num n :: rest) = print_line enc rest.
Proof. reflexivity. Qed.

Lemma print_line_txt enc (t : pystr) rest :
  print_line enc (Txt t :: rest)
  = if printable enc t then print_line enc rest else Raise UnicodeEncodeError.
Proof.
  unfold print_line. cbn [forallb piece_ok]. by destruct (printable enc t).
Qed.

Ltac print_simpl :=
  repeat first
    [ rewrite print_line_lit by reflexivity
    | rewrite print_line_num
    | rewrite print_line_txt
    | rewrite print_line_nil ].

(** On a standard output that has every code point, printing never
    raises. *)
Lemma printable_total enc text :
  (forall c, enc c = true) -> printable enc text = true.
Proof.
  intros Henc. unfold printable. apply forallb_forall. intros c _.
  rewrite Henc. apply orb_true_r.
Qed.

(** An exception whose message is ASCII can be printed. *)
Lemma plain_printable enc e : plain e -> printable enc (message e) = true.
Proof. by intros [->|[->|[->|[->|[->| ->]]]]]. Qed.

(** ** Enrichment of one record *)

(** [validate_response] accepts exactly the objects with the three keys;
    what it raises otherwise has an ASCII message. *)
Lemma validate_response_spec res :
  match accepted_metadata (Reply_json res) with
  | Some m => validate_response res = Ok (VDict m)
  | None =>
      exists e, validate_response res = Raise e
                /\ (e = ValueError \/ e = TypeError)
  end.
Proof.
  unfold validate_response.
  destruct res as [| | | s | l | d]; cbn [accepted_metadata].
  1-3: exists TypeError; by split; [|right].
  - destruct (py_all_in (VStr s) required_keys) as [[]|e] eqn:Hb;
      cbn [rbind negb py_getitem];
      [exists TypeError; by split; [|right]
      |exists ValueError; by split; [|left] |].
    exfalso. revert Hb. unfold required_keys. cbn [py_all_in py_contains rbind].
    repeat (destruct (is_infix _ s); try discriminate).
  - destruct (py_all_in (VList l) required_keys) as [[]|e] eqn:Hb;
      cbn [rbind negb py_getitem];
      [exists TypeError; by split; [|right]
      |exists ValueError; by split; [|left] |].
    exfalso. revert Hb. unfold required_keys. cbn [py_all_in py_contains rbind].
    repeat (destruct (existsb _ l); try discriminate).
  - rewrite py_all_in_dict. cbn [rbind].
    destruct (has_required_keys d) eqn:Hkeys; cbn [negb];
      [|exists ValueError; by split; [|left]].
    apply has_required_keys_spec in Hkeys as (_ & _ & [tags Htags]).
    cbn [py_getitem]. rewrite Htags. unfold normalize_tags. rewrite Htags.
    destruct tags; reflexivity.
Qed.

Section Enrichment.
Variable stdout_encodes : N -> bool.
Variable llm : list prompt -> prompt -> llm_reply.

(** What [extract_metadata] comes to, by the reply of the service and by
    what the standard output can print. *)
Lemma extract_metadata_spec post cleaned w :
  clean_unicode_text post = Ok cleaned ->
  let p := ExtractPrompt cleaned in
  let reply := llm (llm_log w) p in
  extract_metadata stdout_encodes llm post w =
    match accepted_metadata reply with
    | Some m => (Ok (VDict m), asked p w)
    | None =>
        if printable stdout_encodes (failure_message reply) then
          match reply with
          | Reply_unparseable _ | Reply_raises (OutputParserException _) =>
              (Raise (OutputParserException context_too_big), asked p w)
          | _ =>
              (rbind (py_split_lines cleaned)
                 (fun parts => Ok (VDict (default_metadata (length parts)))),
               asked p w)
          end
        else (Raise UnicodeEncodeError, asked p w)
    end.
Proof.
  intros Hclean p reply. unfold extract_metadata.
  rewrite (bind_Ok _ _ w cleaned w) by (by rewrite Hclean).
  unfold catch, bind at 1, chain_invoke_parse. fold p. fold (asked p w).
  fold reply. destruct reply as [e|text|res].
  - cbn [accepted_metadata failure_message].
    destruct e; cbn [message]; unfold bind, lift, ret, raise;
      rewrite ?print_line_text by reflexivity;
      try (by destruct (py_split_lines cleaned));
      by destruct (printable stdout_encodes msg), (py_split_lines cleaned).
  - cbn [accepted_metadata failure_message message].
    unfold bind, lift, raise. rewrite print_line_text by reflexivity.
    by destruct (printable stdout_encodes (invalid_json text)).
  - pose proof (validate_response_spec res) as Hv. unfold lift at 1.
    destruct (accepted_metadata (Reply_json res)) as [m|].
    + by rewrite Hv.
    + destruct Hv as (e & -> & [-> | ->]); cbn [failure_message message];
        unfold bind, lift, ret; rewrite print_line_text by reflexivity;
        by destruct (py_split_lines cleaned).
Qed.

(** When [extract_metadata] does not accept the reply, it raises or
    returns the default metadata. *)
Lemma extract_metadata_rejects post cleaned w :
  clean_unicode_text post = Ok cleaned ->
  let p := ExtractPrompt cleaned in
  accepted_metadata (llm (llm_log w) p) = None ->
  exists r,
    extract_metadata stdout_encodes llm post w = (r, asked p w)
    /\ ((exists e, r = Raise e /\ printable stdout_encodes (message e) = true)
        \/ r = rbind (py_split_lines cleaned)
                 (fun parts => Ok (VDict (default_metadata (length parts))))).
Proof.
  intros Hclean p Hacc.
  rewrite (extract_metadata_spec post cleaned w Hclean). cbn zeta. fold p.
  rewrite Hacc.
  destruct (printable stdout_encodes _).
  - destruct (llm (llm_log w) p) as [e|text|res]; [destruct e|..];
      eexists; (split; [reflexivity|]); eauto.
  - eexists. split; [reflexivity|]. left. by eexists.
Qed.

(** What leaves [extract_metadata] has an ASCII message: the exception of
    line 121, the exception of a print, or what splitting a text that is
    not a string raises.  So the print of line 50, which shows it, cannot
    raise. *)
Lemma extract_metadata_raises post w e w' :
  extract_metadata stdout_encodes llm post w = (Raise e, w') ->
  forall enc, printable enc (message e) = true.
Proof.
  intros H enc.
  destruct (clean_unicode_text_total post) as [cleaned Hclean].
  rewrite (extract_metadata_spec post cleaned w Hclean) in H. cbn zeta in H.
  destruct (accepted_metadata _); [done|].
  destruct (printable stdout_encodes _); [|by injection H as <- _].
  assert (rbind (py_split_lines cleaned)
            (fun parts => Ok (VDict (default_metadata (length parts))))
          = Raise e -> printable enc (message e) = true) as Hsplit.
  { destruct cleaned; cbn; by intros [= <-]. }
  destruct (llm _ _) as [e0|text|res]; [destruct e0|..];
    injection H as H _; try (by apply Hsplit); by subst e.
Qed.

(** A well-formed record is enriched as [enriched_record] says, whatever
    the service does and whatever can be printed. *)
Lemma enrich_post_spec (d : dict) text w :
  d !! k_text = Some (VStr text) -> valid_str text ->
  let cleaned := sanitized text in
  let p := ExtractPrompt (VStr cleaned) in
  enrich_post stdout_encodes llm (VDict d) w
  = (Ok (VDict (enriched_record d cleaned (llm (llm_log w) p))), asked p w).
Proof.
  intros Htext Hvalid cleaned p. unfold enrich_post.
  rewrite (bind_Ok _ _ w (VStr text) w) by (unfold lift; cbn; by rewrite Htext).
  rewrite (bind_Ok _ _ w (VStr cleaned) w)
    by (unfold lift; by rewrite clean_unicode_text_str).
  rewrite (bind_Ok _ _ w (VDict (<[k_text := VStr cleaned]> d)) w) by done.
  assert (clean_unicode_text (VStr cleaned) = Ok (VStr cleaned)) as Hclean.
  { rewrite clean_unicode_text_str by by apply sanitized_valid.
    unfold cleaned. by rewrite sanitized_idempotent. }
  assert (set_defaults (VDict (<[k_text:=VStr cleaned]> d)) (VStr cleaned)
          = Ok (VDict (default_metadata (S (str_count LF cleaned))
                       ∪ <[k_text:=VStr cleaned]> d))) as Hfallback.
  { unfold set_defaults. cbn [py_split_lines py_setitem rbind].
    rewrite length_str_split, default_metadata_union. reflexivity. }
  unfold catch, bind at 1. unfold enriched_record.
  destruct (accepted_metadata (llm (llm_log w) p)) as [m|] eqn:Hacc.
  - rewrite (extract_metadata_spec _ (VStr cleaned) w Hclean). cbn zeta.
    fold p. by rewrite Hacc.
  - destruct (extract_metadata_rejects _ (VStr cleaned) w Hclean Hacc)
      as (r & -> & [(e & -> & _) | ->]); fold p; cbn [default from_option id].
    + unfold lift. by rewrite Hfallback.
    + cbn [py_split_lines rbind]. rewrite length_str_split. reflexivity.
Qed.

End Enrichment.

(** ** Sets *)

Lemma keyed_empty : keyed ∅.
Proof. intros k v H. by rewrite lookup_empty in H. Qed.

Lemma set_add_Ok_inv s v s' :
  set_add s v = Ok s' ->
  exists k, py_hash v = Ok k
            /\ s' = match s !! k with Some _ => s | None => <[k := v]> s end.
Proof.
  unfold set_add. destruct (py_hash v) as [k|e]; [|discriminate].
  cbn [rbind]. intros [= <-]. eauto.
Qed.

Lemma set_add_hashable s v :
  hashable v -> exists s', set_add s v = Ok s'.
Proof. intros [k Hk]. unfold set_add. rewrite Hk. cbn [rbind]. eauto. Qed.

(** What adding one object does. *)
Lemma set_add_spec s v s' :
  set_add s v = Ok s' -> keyed s ->
  keyed s'
  /\ (forall k x, s !! k = Some x -> s' !! k = Some x)
  /\ (forall k x, s' !! k = Some x -> s !! k = Some x \/ x = v)
  /\ (exists k, py_hash v = Ok k /\ is_Some (s' !! k)).
Proof.
  intros (k & Hk & ->)%set_add_Ok_inv Hkeyed.
  destruct (s !! k) as [x0|] eqn:Hsk.
  - split; [done|]. split; [done|]. split; [by left|].
    exists k. by rewrite Hsk.
  - split; [|split; [|split]].
    + intros k' x. destruct (decide (k = k')) as [<-|Hne].
      * rewrite lookup_insert_eq. by intros [= <-].
      * rewrite lookup_insert_ne by done. apply Hkeyed.
    + intros k' x Hx. rewrite lookup_insert_ne; [done|]. congruence.
    + intros k' x. destruct (decide (k = k')) as [<-|Hne].
      * rewrite lookup_insert_eq. intros [= <-]. by right.
      * rewrite lookup_insert_ne by done. by left.
    + exists k. by rewrite lookup_insert_eq.
Qed.

Lemma set_update_Ok_inv s xs s' :
  set_update s xs = Ok s' -> Forall hashable xs.
Proof.
  revert s. induction xs as [|x xs IH]; intros s; [constructor|].
  cbn [set_update]. intros (s1 & H1 & H2)%rbind_Ok_inv.
  apply set_add_Ok_inv in H1 as (k & Hk & _).
  constructor; [by exists k | by eapply IH].
Qed.

Lemma set_update_hashable s xs :
  Forall hashable xs -> exists s', set_update s xs = Ok s'.
Proof.
  intros Hxs. revert s. induction Hxs as [|x xs Hx _ IH]; intros s.
  - by exists s.
  - cbn [set_update]. destruct (set_add_hashable s x Hx) as [s1 ->].
    cbn [rbind]. apply IH.
Qed.

(** What adding a sequence of objects does. *)
Lemma set_update_spec s xs s' :
  set_update s xs = Ok s' -> keyed s ->
  keyed s'
  /\ (forall k x, s !! k = Some x -> s' !! k = Some x)
  /\ (forall k x, s' !! k = Some x -> s !! k = Some x \/ x ∈ xs)
  /\ (forall x, x ∈ xs -> exists k, py_hash x = Ok k /\ is_Some (s' !! k)).
Proof.
  revert s. induction xs as [|x xs IH]; intros s.
  - cbn [set_update]. intros [= <-] Hkeyed.
    split; [done|]. split; [done|]. split; [by left|].
    intros x Hx. by apply elem_of_nil in Hx.
  - cbn [set_update]. intros (s1 & H1 & H2)%rbind_Ok_inv Hkeyed.
    destruct (set_add_spec _ _ _ H1 Hkeyed) as (Hk1 & Hmono1 & Hfrom1 & Hin1).
    destruct (IH _ H2 Hk1) as (Hk' & Hmono & Hfrom & Hin).
    split; [done|]. split; [by eauto|]. split.
    + intros k y Hy. destruct (Hfrom _ _ Hy) as [Hy1|Hy1].
      * destruct (Hfrom1 _ _ Hy1) as [?| ->]; [by left|]. right. by left.
      * right. by right.
    + intros y [->|Hy]%elem_of_cons; [|by apply Hin].
      destruct Hin1 as (k & Hk & [z Hz]). exists k. split; [done|].
      exists z. by apply Hmono.
Qed.

Lemma elem_of_set_to_list (s : pyset) v :
  v ∈ set_to_list s <-> exists k, s !! k = Some v.
Proof.
  unfold set_to_list. rewrite list_elem_of_fmap. split.
  - intros ([k x] & -> & Hkx). exists k. by apply elem_of_map_to_list.
  - intros [k Hk]. exists (k, v). split; [done|]. by apply elem_of_map_to_list.
Qed.

Lemma set_to_list_empty : set_to_list ∅ = [].
Proof. unfold set_to_list. by rewrite map_to_list_empty. Qed.

(** A set holds no two equal objects. *)
Lemma set_to_list_NoDup (s : pyset) :
  keyed s -> NoDup (py_hash <$> set_to_list s).
Proof.
  intros Hkeyed. unfold set_to_list.
  assert (py_hash <$> (map_to_list s).*2 = Ok <$> (map_to_list s).*1) as ->.
  { rewrite <- !list_fmap_compose. apply list_fmap_ext.
    intros i [k v] Hi. cbn. apply Hkeyed.
    apply elem_of_map_to_list. by eapply list_elem_of_lookup_2. }
  apply NoDup_fmap; [by intros ?? [=] | apply NoDup_fst_map_to_list].
Qed.

(** The list of a set built from [xs] lists the set of [xs]. *)
Lemma set_update_lists_set_of xs s :
  set_update ∅ xs = Ok s -> lists_set_of (set_to_list s) xs.
Proof.
  intros Hs.
  destruct (set_update_spec _ _ _ Hs keyed_empty) as (Hk & _ & Hfrom & Hin).
  split; [by apply set_to_list_NoDup|]. split.
  - intros v [k Hv]%elem_of_set_to_list.
    destruct (Hfrom _ _ Hv) as [H0|]; [|done]. by rewrite lookup_empty in H0.
  - intros x Hx. destruct (Hin _ Hx) as (k & Hxk & [v Hv]).
    exists v. split; [apply elem_of_set_to_list; eauto|].
    rewrite Hxk. by apply Hk.
Qed.

(** ** Applying a mapping to the tags of a record *)

Lemma hashable_str s : hashable (VStr s).
Proof. by exists (KStr s). Qed.

Lemma py_get_value_hashable m tag :
  hashable tag -> py_get_value (VDict m) tag tag = Ok (mapping_get m tag).
Proof. intros [k Hk]. by destruct tag. Qed.

Lemma unified_set_eq m s ts :
  Forall hashable ts ->
  unified_set (VDict m) s ts = set_update s (mapping_get m <$> ts).
Proof.
  intros Hts. revert s. induction Hts as [|t ts Ht _ IH]; intros s; [done|].
  cbn [unified_set fmap list_fmap set_update].
  rewrite py_get_value_hashable by done. cbn [rbind].
  destruct (set_add s (mapping_get m t)); cbn [rbind]; [apply IH | done].
Qed.

Lemma mapping_get_hashable (m : dict) t :
  map_Forall (fun _ v => hashable v) m -> hashable t ->
  hashable (mapping_get m t).
Proof.
  intros Hm Ht. destruct t as [| | |s| |]; try done. cbn.
  destruct (m !! s) as [v|] eqn:Hv; [by eapply Hm | done].
Qed.

(** Lines 62-64 on a record with a list of tags: the new list is the list
    of the set of the mapped tags. *)
Lemma unify_post_spec (m d : dict) ts :
  map_Forall (fun _ v => hashable v) m ->
  d !! k_tags = Some (VList ts) -> Forall hashable ts ->
  exists l,
    unify_post (VDict m) (VDict d) = Ok (VDict (<[k_tags := VList l]> d))
    /\ lists_set_of l (mapping_get m <$> ts).
Proof.
  intros Hm Htags Hts. unfold unify_post. cbn [py_get]. rewrite Htags.
  cbn [from_option id py_iter rbind]. rewrite unified_set_eq by done.
  destruct (set_update_hashable ∅ (mapping_get m <$> ts)) as [s Hs].
  { apply Forall_fmap. eapply Forall_impl; [exact Hts|].
    intros t Ht. by apply mapping_get_hashable. }
  rewrite Hs. cbn [rbind py_setitem]. eexists. split; [reflexivity|].
  by apply set_update_lists_set_of.
Qed.

(** Lines 62-64 change nothing but [tags]. *)
Lemma unify_post_Ok_inv u post post' :
  unify_post u post = Ok post' ->
  exists d l, post = VDict d /\ post' = VDict (<[k_tags := VList l]> d).
Proof.
  unfold unify_post. intros (tags & _ & H)%rbind_Ok_inv.
  apply rbind_Ok_inv in H as (items & _ & H).
  apply rbind_Ok_inv in H as (new_tags & _ & H).
  apply py_setitem_Ok_inv in H as (d & -> & ->). eauto.
Qed.

Lemma apply_unified_tags_Forall2 u posts out :
  apply_unified_tags u posts = Ok out <->
  Forall2 (fun post post' => unify_post u post = Ok post') posts out.
Proof.
  revert out. induction posts as [|p posts IH]; intros out.
  - cbn. split; [intros [= <-]; constructor | by intros ->%Forall2_nil_inv_l].
  - cbn [apply_unified_tags]. split.
    + intros (o & Ho & H)%rbind_Ok_inv.
      apply rbind_Ok_inv in H as (out' & Hout & [= <-]).
      constructor; [done | by apply IH].
    + intros (o & out' & Ho & Hout & ->)%Forall2_cons_inv_l.
      rewrite Ho. cbn [rbind]. apply IH in Hout. by rewrite Hout.
Qed.

(** ** The identity mapping *)

Lemma identity_mapping_lookup (T : pyset) s v :
  identity_mapping T !! s = Some v -> v = VStr s.
Proof.
  unfold identity_mapping. induction (set_to_list T) as [|t l IH]; cbn [foldr].
  - by rewrite lookup_empty.
  - destruct t as [| | |s'| |]; try done.
    destruct (decide (s' = s)) as [->|Hne].
    + rewrite lookup_insert_eq. by intros [= <-].
    + by rewrite lookup_insert_ne.
Qed.

(** Every collected tag maps to itself. *)
Lemma identity_mapping_member (T : pyset) s :
  VStr s ∈ set_to_list T -> identity_mapping T !! s = Some (VStr s).
Proof.
  unfold identity_mapping. induction (set_to_list T) as [|t l IH]; cbn [foldr].
  - by intros ?%elem_of_nil.
  - intros [<-|Hin]%elem_of_cons; [by rewrite lookup_insert_eq|].
    destruct t as [| | |s'| |]; auto.
    destruct (decide (s' = s)) as [->|Hne].
    + by rewrite lookup_insert_eq.
    + rewrite lookup_insert_ne by done. auto.
Qed.

Lemma identity_mapping_get (T : pyset) s :
  mapping_get (identity_mapping T) (VStr s) = VStr s.
Proof.
  cbn. destruct (identity_mapping T !! s) as [v|] eqn:Hv; [|done].
  by apply identity_mapping_lookup in Hv as ->.
Qed.

Lemma identity_mapping_hashable (T : pyset) :
  map_Forall (fun _ v => hashable v) (identity_mapping T).
Proof.
  intros s v ->%identity_mapping_lookup. apply hashable_str.
Qed.

(** ** Collecting and joining the tags *)

Lemma str_join_Ok_inv sep items joined :
  str_join sep items = Ok joined ->
  Forall (fun v => exists s, v = VStr s) items.
Proof.
  revert joined. induction items as [|v items IH]; intros joined; [constructor|].
  cbn [str_join]. destruct v as [| | |s| |]; try discriminate.
  destruct items as [|v' items'].
  - intros _. repeat constructor. eauto.
  - intros (j & Hj & _)%rbind_Ok_inv. constructor; [eauto | by eapply IH].
Qed.

(** What the first loop of [get_unified_tags] collects. *)
Lemma collect_unique_tags_spec s posts T :
  collect_unique_tags s posts = Ok T -> keyed s ->
  keyed T
  /\ (forall k x, s !! k = Some x -> T !! k = Some x)
  /\ (forall d ts t,
        VDict d ∈ posts -> d !! k_tags = Some (VList ts) -> t ∈ ts ->
        exists k, py_hash t = Ok k /\ is_Some (T !! k)).
Proof.
  revert s. induction posts as [|p posts IH]; intros s.
  - cbn [collect_unique_tags]. intros [= <-] Hs. split; [done|]. split; [done|].
    intros d ts t Hd. by apply elem_of_nil in Hd.
  - cbn [collect_unique_tags]. intros H Hs.
    apply rbind_Ok_inv in H as (has & Hhas & H).
    assert (forall s1, keyed s1 -> (forall k x, s !! k = Some x -> s1 !! k = Some x) ->
              (forall d ts t, p = VDict d -> d !! k_tags = Some (VList ts) -> t ∈ ts ->
                 exists k, py_hash t = Ok k /\ is_Some (s1 !! k)) ->
              collect_unique_tags s1 posts = Ok T ->
              keyed T
              /\ (forall k x, s !! k = Some x -> T !! k = Some x)
              /\ (forall d ts t,
                    VDict d ∈ p :: posts -> d !! k_tags = Some (VList ts) -> t ∈ ts ->
                    exists k, py_hash t = Ok k /\ is_Some (T !! k))) as Hstep.
    { intros s1 Hs1 Hmono Hp Hrest.
      destruct (IH _ Hrest Hs1) as (HT & HmonoT & HinT).
      split; [done|]. split; [by eauto|].
      intros d ts t [Hd|Hd]%elem_of_cons Htags Ht; [|by eauto].
      destruct (Hp d ts t) as (k & Hk & [x Hx]); [done..|].
      exists k. split; [done|]. exists x. by apply HmonoT. }
    destruct has.
    + apply rbind_Ok_inv in H as (tags & Htags & H).
      apply py_getitem_Ok_inv in Htags as (d & -> & Htags).
      destruct tags as [| | | |l|];
        try (apply (Hstep s); [done | done | | done];
             intros d' ts t [= <-]; congruence).
      apply rbind_Ok_inv in H as (s1 & Hs1 & H).
      destruct (set_update_spec _ _ _ Hs1 Hs) as (Hk1 & Hmono1 & _ & Hin1).
      apply (Hstep s1); [done | done | | done].
      intros d' ts t [= <-] Hts Ht. rewrite Htags in Hts.
      injection Hts as <-. by apply Hin1.
    + apply (Hstep s); [done | done | | done].
      intros d ts t -> Htags Ht. cbn in Hhas. injection Hhas as Hhas.
      apply bool_decide_eq_false in Hhas. destruct Hhas. by rewrite Htags.
Qed.
(** ** [get_unified_tags] *)

Lemma set_update_raises s xs e : set_update s xs = Raise e -> e = TypeError.
Proof.
  revert s. induction xs as [|x xs IH]; intros s; [discriminate|].
  cbn [set_update]. unfold set_add.
  destruct (py_hash x) as [k|e1] eqn:Hx; cbn [rbind]; [apply IH|].
  intros [= <-]. destruct x; cbn in Hx; congruence.
Qed.

(** What line 170 raises has an ASCII message. *)
Lemma values_rejected_plain res e :
  rbind (py_values res) (set_update ∅) = Raise e ->
  e = AttributeError \/ e = TypeError.
Proof.
  destruct res as [| | | | |m]; cbn [py_values rbind];
    try (intros [= <-]; by left).
  intros ->%set_update_raises. by right.
Qed.

(** Collecting the tags raises [TypeError] only: on a record that is not
    a container, or on a tag that cannot be hashed. *)
Lemma collect_unique_tags_raises s posts e :
  collect_unique_tags s posts = Raise e -> e = TypeError.
Proof.
  revert s. induction posts as [|post posts IH]; intros s; [discriminate|].
  cbn [collect_unique_tags].
  destruct (py_contains post k_tags) as [[]|e1] eqn:Hhas; cbn [rbind].
  - destruct (py_getitem post k_tags) as [tags|e2] eqn:Hget; cbn [rbind].
    + destruct tags as [| | | |l|]; try apply IH.
      destruct (set_update s l) as [s1|e3] eqn:Hupd; cbn [rbind]; [apply IH|].
      intros [= <-]. by eapply set_update_raises.
    + intros [= <-]. destruct post; cbn in Hget, Hhas; try congruence.
      injection Hhas as Hhas. apply bool_decide_eq_true in Hhas as [x Hx].
      rewrite Hx in Hget. discriminate.
  - apply IH.
  - intros [= <-]. destruct post; cbn in Hhas; congruence.
Qed.

Lemma str_join_raises sep items e :
  str_join sep items = Raise e -> e = TypeError.
Proof.
  revert e. induction items as [|v items IH]; intros e; [discriminate|].
  cbn [str_join]. destruct v as [| | |s| |]; try by intros [= <-].
  destruct items as [|v' items']; [discriminate|].
  destruct (str_join sep (v' :: items')) as [j|e2]; [discriminate|].
  cbn [rbind]. intros [= <-]. by apply IH.
Qed.

Section Unification.
Variable stdout_encodes : N -> bool.
Variable llm : list prompt -> prompt -> llm_reply.

(** What [get_unified_tags] comes to, by the tags collected, the reply of
    the service and what the standard output can print. *)
Lemma get_unified_tags_spec posts w T :
  collect_unique_tags ∅ posts = Ok T ->
  get_unified_tags stdout_encodes llm posts w =
    if Nat.eqb (size T) 0 then (Ok (VDict ∅), w)
    else
      match str_join comma (set_to_list T) with
      | Raise e => (Raise e, w)
      | Ok joined =>
          if printable stdout_encodes joined then
            let p := UnifyPrompt joined in
            let reply := llm (llm_log w) p in
            (if printable stdout_encodes (failure_message reply)
             then Ok (mapping_of_reply T reply)
             else Raise UnicodeEncodeError,
             asked p w)
          else (Raise UnicodeEncodeError, w)
      end.
Proof.
  intros HT. unfold get_unified_tags.
  rewrite (bind_Ok _ _ w T w) by (by rewrite HT).
  destruct (Nat.eqb (size T) 0); [reflexivity|].
  unfold bind at 1, lift at 1.
  destruct (str_join comma (set_to_list T)) as [joined|e]; [|reflexivity].
  unfold bind at 1, lift at 1. print_simpl.
  destruct (printable stdout_encodes joined); [|reflexivity].
  cbn zeta. unfold catch, bind at 1, chain_invoke_parse.
  fold (asked (UnifyPrompt joined) w).
  destruct (llm (llm_log w) (UnifyPrompt joined)) as [e|text|res].
  - cbn [failure_message mapping_of_reply].
    destruct e; cbn [message]; unfold bind, lift, ret; print_simpl;
      try reflexivity; by destruct (printable stdout_encodes msg).
  - cbn [failure_message mapping_of_reply message].
    unfold bind, lift, ret. print_simpl.
    by destruct (printable stdout_encodes (invalid_json text)).
  - cbn [failure_message mapping_of_reply].
    change (printable stdout_encodes []) with true. cbn match.
    unfold bind at 1, lift at 1.
    destruct (rbind (py_values res) (set_update ∅)) as [s|e] eqn:Hs.
    + apply rbind_Ok_inv in Hs as (values & -> & Hs).
      unfold bind, lift, ret. by rewrite Hs.
    + assert (match py_values res with
              | Ok values =>
                  bind (lift (set_update ∅ values))
                    (fun _ => ret res)
                    (asked (UnifyPrompt joined) w)
              | Raise e' => (Raise e', asked (UnifyPrompt joined) w)
              end = (Raise e, asked (UnifyPrompt joined) w)) as ->.
      { destruct (py_values res) as [values|e']; cbn [rbind] in Hs;
          [|congruence]. unfold bind, lift. by rewrite Hs. }
      destruct (values_rejected_plain _ _ Hs) as [-> | ->];
        cbn [message]; unfold bind, lift, ret; by print_simpl.
Qed.

Lemma mapping_of_reply_fails T reply :
  unification_fails reply ->
  mapping_of_reply T reply = VDict (identity_mapping T).
Proof. destruct 1 as [e|text|res e H]; try reflexivity. cbn. by rewrite H. Qed.

(** A parsed object whose values are hashable is returned as it is. *)
Lemma mapping_of_reply_accepted (T : pyset) (m : dict) :
  map_Forall (fun _ v => hashable v) m ->
  mapping_of_reply T (Reply_json (VDict m)) = VDict m.
Proof.
  intros Hm. cbn [mapping_of_reply py_values rbind].
  destruct (set_update_hashable ∅ (map_to_list m).*2) as [s ->]; [|done].
  apply Forall_forall. intros v ([key v'] & -> & Hv)%list_elem_of_fmap.
  apply elem_of_map_to_list in Hv. by eapply Hm.
Qed.

(** A parsed object one of whose values cannot be hashed is discarded. *)
Lemma mapping_of_reply_discarded (T : pyset) (m : dict) :
  ~ map_Forall (fun _ v => hashable v) m ->
  mapping_of_reply T (Reply_json (VDict m)) = VDict (identity_mapping T).
Proof.
  intros Hm. cbn [mapping_of_reply py_values rbind].
  destruct (set_update ∅ (map_to_list m).*2) as [s|e] eqn:Hs; [|done].
  destruct Hm. apply set_update_Ok_inv in Hs.
  intros key v Hv. eapply Forall_forall; [exact Hs|].
  apply list_elem_of_fmap. exists (key, v). split; [done|].
  by apply elem_of_map_to_list.
Qed.

(** The object [get_unified_tags] is left with is a mapping whose values
    are hashable. *)
Lemma mapping_of_reply_hashable T reply :
  exists m, mapping_of_reply T reply = VDict m
            /\ map_Forall (fun _ v => hashable v) m.
Proof.
  pose proof (identity_mapping_hashable T) as Hid.
  destruct reply as [e|text|res]; cbn [mapping_of_reply]; eauto.
  destruct (rbind (py_values res) (set_update ∅)) as [s|e] eqn:Hs; eauto.
  apply rbind_Ok_inv in Hs as (values & Hvalues & Hs).
  destruct res as [| | | | |m]; try discriminate. exists m. split; [done|].
  injection Hvalues as <-. apply set_update_Ok_inv in Hs.
  intros key v Hv. eapply Forall_forall; [exact Hs|].
  apply list_elem_of_fmap. exists (key, v). split; [done|].
  by apply elem_of_map_to_list.
Qed.


(** What [get_unified_tags] raises has an ASCII message. *)
Lemma get_unified_tags_raises posts w e w' :
  get_unified_tags stdout_encodes llm posts w = (Raise e, w') ->
  e = TypeError \/ e = UnicodeEncodeError.
Proof.
  intros H.
  destruct (collect_unique_tags ∅ posts) as [T|e0] eqn:HT.
  - rewrite (get_unified_tags_spec posts w T HT) in H.
    destruct (Nat.eqb (size T) 0); [done|].
    destruct (str_join comma (set_to_list T)) as [joined|e1] eqn:Hjoin.
    + destruct (printable stdout_encodes joined); [|injection H as <- _; by right].
      cbn zeta in H.
      destruct (printable stdout_encodes (failure_message _)); [done|].
      injection H as <- _; by right.
    + injection H as <- _. left. by eapply str_join_raises.
  - unfold get_unified_tags, bind, lift in H. rewrite HT in H.
    injection H as <- _. left. by eapply collect_unique_tags_raises.
Qed.

End Unification.

(** ** The enrichment loop *)

Lemma normalize_tags_lookup_ne res key :
  key <> k_tags -> normalize_tags res !! key = res !! key.
Proof.
  intros Hne. unfold normalize_tags.
  destruct (res !! k_tags) as [[]|]; try done; by rewrite lookup_insert_ne.
Qed.

Lemma normalize_tags_list res :
  is_Some (res !! k_tags) -> exists l, normalize_tags res !! k_tags = Some (VList l).
Proof.
  intros [tags Htags]. unfold normalize_tags. rewrite Htags.
  destruct tags; rewrite ?lookup_insert_eq; eauto;
    match goal with |- context [truthy ?v] => destruct (truthy v) end; eauto.
Qed.

Lemma default_metadata_lookup (n : nat) :
  default_metadata n !! k_line_count = Some (VInt (Z.of_nat n))
  /\ default_metadata n !! k_language = Some (VStr English)
  /\ default_metadata n !! k_tags = Some (VList [VStr General]).
Proof. unfold default_metadata. by vm_compute. Qed.

Lemma default_metadata_frame (n : nat) key :
  key ∉ written_keys -> default_metadata n !! key = None.
Proof.
  intros Hkey. unfold default_metadata.
  rewrite !lookup_insert_ne, lookup_empty; [done|..];
    intros <-; apply Hkey; unfold written_keys; set_solver.
Qed.

(** An enriched record has the three fields, and its tags are a list. *)
Lemma enriched_record_fields d cleaned reply :
  let e := enriched_record d cleaned reply in
  is_Some (e !! k_line_count) /\ is_Some (e !! k_language)
  /\ exists l, e !! k_tags = Some (VList l).
Proof.
  unfold enriched_record.
  assert (forall (m : dict) key v,
            m !! key = Some v ->
            (m ∪ <[k_text := VStr cleaned]> d) !! key = Some v) as Hl.
  { intros m key v Hv. by apply lookup_union_Some_l. }
  destruct (accepted_metadata reply) as [m|] eqn:Hacc; cbn [from_option id].
  - destruct reply as [| |[| | | | |res]]; try discriminate.
    cbn [accepted_metadata] in Hacc.
    destruct (has_required_keys res) eqn:Hkeys; [|discriminate].
    injection Hacc as <-.
    apply has_required_keys_spec in Hkeys as ([lc Hlc] & [la Hla] & Htags).
    apply normalize_tags_list in Htags as [l Hl'].
    split; [|split].
    + exists lc. apply Hl. rewrite normalize_tags_lookup_ne; [done | key_neq].
    + exists la. apply Hl. rewrite normalize_tags_lookup_ne; [done | key_neq].
    + exists l. by apply Hl.
  - destruct (default_metadata_lookup (S (str_count LF cleaned))) as (? & ? & ?).
    split; [|split]; eauto.
Qed.

Lemma set_defaults_Ok_inv d cleaned o :
  set_defaults (VDict d) cleaned = Ok o ->
  exists n,
    o = VDict (<[k_tags := VList [VStr General]]>
                 (<[k_language := VStr English]>
                    (<[k_line_count := VInt (Z.of_nat n)]> d))).
Proof.
  unfold set_defaults. intros (parts & _ & H)%rbind_Ok_inv.
  cbn [py_setitem rbind] in H. injection H as <-. eauto.
Qed.

Lemma metadata_fields (m : dict) reply (n : nat) :
  accepted_metadata reply = Some m \/ m = default_metadata n ->
  is_Some (m !! k_line_count) /\ is_Some (m !! k_language)
  /\ exists l, m !! k_tags = Some (VList l).
Proof.
  intros [Hacc| ->].
  - destruct reply as [| |[| | | | |res]]; try discriminate.
    cbn [accepted_metadata] in Hacc.
    destruct (has_required_keys res) eqn:Hkeys; [|discriminate].
    injection Hacc as <-.
    apply has_required_keys_spec in Hkeys as (Hlc & Hla & Htags).
    rewrite !normalize_tags_lookup_ne by key_neq.
    split; [done|]. split; [done|]. by apply normalize_tags_list.
  - destruct (default_metadata_lookup n) as (-> & -> & ->). eauto.
Qed.


(** The fields of an enriched record that enrichment does not write: the
    field of the response when it carries one, the field of the post
    otherwise. *)
Lemma enriched_record_frame d cleaned reply key :
  key ∉ written_keys ->
  enriched_record d cleaned reply !! key
  = match response_field reply key with
    | Some v => Some v
    | None => d !! key
    end.
Proof.
  intros Hkey.
  assert (key <> k_text /\ key <> k_tags) as [Ht Htg].
  { unfold written_keys in Hkey. set_solver. }
  unfold enriched_record, response_field.
  assert (forall m : dict,
            (m ∪ <[k_text := VStr cleaned]> d) !! key
            = match m !! key with Some v => Some v | None => d !! key end) as Hu.
  { intros m. destruct (m !! key) as [v|] eqn:Hv.
    - by apply lookup_union_Some_l.
    - rewrite lookup_union_r by done. by rewrite lookup_insert_ne. }
  rewrite Hu.
  destruct reply as [e|text|[| | | | |res]]; cbn [accepted_metadata default from_option id];
    rewrite ?default_metadata_frame by done; try reflexivity.
  destruct (has_required_keys res); cbn [default from_option id].
  - by rewrite normalize_tags_lookup_ne.
  - by rewrite default_metadata_frame.
Qed.

Section Loop.
Variable stdout_encodes : N -> bool.
Variable llm : list prompt -> prompt -> llm_reply.

(** On well-formed records the loop never stops early: it returns the
    records enriched each with the reply to its own request, and has sent
    one request for each. *)
Lemma enrich_loop_enriched posts w :
  Forall well_formed_record posts ->
  enrich_loop stdout_encodes llm posts w
  = (Ok (enriched_records llm (llm_log w) posts),
     World (llm_log w ++ (record_prompt <$> posts)) (outfile w)).
Proof.
  intros Hwf. revert w.
  induction Hwf as [|post posts (d & text & -> & Htext & Hvalid) _ IH]; intros w.
  - cbn. rewrite app_nil_r. by destruct w.
  - cbn [enrich_loop].
    rewrite (bind_Ok _ _ w _ _
               (enrich_post_spec stdout_encodes llm d text w Htext Hvalid)).
    rewrite (bind_Ok _ _ _ _ _ (IH _)). unfold ret.
    cbn [enriched_records enriched_post fmap list_fmap record_prompt asked
           llm_log outfile].
    by rewrite Htext, <- app_assoc.
Qed.

Lemma length_enriched_records log posts :
  length (enriched_records llm log posts) = length posts.
Proof.
  revert log. induction posts as [|post posts IH]; intros log; [done|].
  cbn [enriched_records length]. by rewrite IH.
Qed.

(** The record at each place is the input record at that place, enriched
    with the reply to its own request. *)
Lemma enriched_records_lookup log posts i post :
  posts !! i = Some post ->
  enriched_records llm log posts !! i
  = Some (enriched_post post
            (llm (log ++ (record_prompt <$> take i posts)) (record_prompt post))).
Proof.
  revert log i. induction posts as [|p posts IH]; intros log i; [done|].
  destruct i as [|i]; cbn [enriched_records lookup list_lookup take fmap list_fmap].
  - intros [= ->]. by rewrite app_nil_r.
  - intros Hi. rewrite (IH _ _ Hi). by rewrite <- app_assoc.
Qed.

(** Every enriched record has the three fields, its tags being a list. *)
Lemma enriched_records_have_metadata log posts :
  Forall well_formed_record posts ->
  Forall has_metadata (enriched_records llm log posts).
Proof.
  intros Hwf. revert log.
  induction Hwf as [|post posts (d & text & -> & Htext & _) _ IH]; intros log;
    cbn [enriched_records]; constructor; [|apply IH].
  cbn [enriched_post record_prompt]. rewrite Htext.
  destruct (enriched_record_fields d (sanitized text)
              (llm log (ExtractPrompt (VStr (sanitized text)))))
    as (? & ? & [l ?]).
  by eexists _, l.
Qed.

(** Whenever the loop returns, it has enriched each record in turn. *)
Lemma enrich_loop_Ok_inv posts w out w' :
  enrich_loop stdout_encodes llm posts w = (Ok out, w') ->
  Forall2 (fun post o =>
             exists w1 w2, enrich_post stdout_encodes llm post w1 = (Ok o, w2))
    posts out.
Proof.
  revert w out. induction posts as [|post posts IH]; intros w out.
  - cbn. intros [= <- <-]. constructor.
  - cbn [enrich_loop]. intros (o & w1 & Ho & H)%bind_Ok_inv.
    apply bind_Ok_inv in H as (others & w2 & Hothers & H).
    injection H as <- <-. constructor; eauto.
Qed.

Lemma extract_metadata_fields v w m w' :
  extract_metadata stdout_encodes llm v w = (Ok (VDict m), w') ->
  is_Some (m !! k_line_count) /\ is_Some (m !! k_language)
  /\ exists l, m !! k_tags = Some (VList l).
Proof.
  intros H. destruct (clean_unicode_text_total v) as [cleaned Hclean].
  destruct (accepted_metadata (llm (llm_log w) (ExtractPrompt cleaned)))
    as [m'|] eqn:Hacc.
  - rewrite (extract_metadata_spec stdout_encodes llm v cleaned w Hclean) in H.
    cbn zeta in H. rewrite Hacc in H.
    injection H as <- <-. eapply (metadata_fields _ _ 0). by left.
  - destruct (extract_metadata_rejects stdout_encodes llm v cleaned w Hclean Hacc)
      as (r & Hr & [(e & -> & _) | ->]); rewrite Hr in H; [done|].
    injection H as H _.
    apply rbind_Ok_inv in H as (parts & _ & [= <-]).
    eapply (metadata_fields _ (Reply_json VNone)). by right.
Qed.

(** Whatever [enrich_post] returns has the text and the three fields. *)
Lemma enrich_post_fields post w o w' :
  enrich_post stdout_encodes llm post w = (Ok o, w') ->
  exists d l,
    o = VDict d /\ is_Some (d !! k_text) /\ is_Some (d !! k_line_count)
    /\ is_Some (d !! k_language) /\ d !! k_tags = Some (VList l).
Proof.
  intros H. unfold enrich_post in H.
  apply bind_Ok_inv in H as (text & w1 & Htext & H).
  apply lift_Ok_inv in Htext as [Htext ->].
  apply py_getitem_Ok_inv in Htext as (d & -> & Htext).
  apply bind_Ok_inv in H as (cleaned & w1 & _ & H).
  apply bind_Ok_inv in H as (post1 & w2 & Hpost1 & H).
  apply lift_Ok_inv in Hpost1 as [[= <-] ->].
  apply catch_Ok_inv in H as [H|(e & w3 & _ & H)].
  - apply bind_Ok_inv in H as (metadata & w3 & Hmeta & H).
    apply lift_Ok_inv in H as [H ->].
    apply py_or_dict_Ok_inv in H as (m & -> & ->).
    destruct (extract_metadata_fields _ _ _ _ Hmeta)
      as ([lc Hlc] & [la Hla] & l & Hl).
    eexists _, l. split; [done|].
    split; [|split; [|split]].
    + apply lookup_union_is_Some. right. rewrite lookup_insert_eq. eauto.
    + exists lc. by apply lookup_union_Some_l.
    + exists la. by apply lookup_union_Some_l.
    + by apply lookup_union_Some_l.
  - apply lift_Ok_inv in H as [H ->].
    apply set_defaults_Ok_inv in H as [n ->].
    eexists _, _. split; [done|].
    split; [|split; [|split]].
    + rewrite !lookup_insert_ne by key_neq. rewrite lookup_insert_eq. eauto.
    + rewrite !lookup_insert_ne by key_neq. rewrite lookup_insert_eq. eauto.
    + rewrite lookup_insert_ne by key_neq. rewrite lookup_insert_eq. eauto.
    + by rewrite lookup_insert_eq.
Qed.

(** What leaves [enrich_post] is raised by Python itself on a record that
    is not an object, has no [text], or has a [text] that is not a
    string: its message is ASCII. *)
Lemma enrich_post_raises post w e w' :
  enrich_post stdout_encodes llm post w = (Raise e, w') ->
  e = KeyError \/ e = TypeError \/ e = AttributeError.
Proof.
  unfold enrich_post, bind at 1, lift at 1.
  destruct (py_getitem post k_text) as [text|e0] eqn:Htext.
  2:{ intros [= <- _]. destruct post; cbn in Htext; try (injection Htext as <-; auto).
      destruct (_ !! _); [discriminate|]. injection Htext as <-. auto. }
  apply py_getitem_Ok_inv in Htext as (d & -> & Htext).
  destruct (clean_unicode_text_total text) as [cleaned Hclean].
  rewrite (bind_Ok _ _ w cleaned w) by (unfold lift; by rewrite Hclean).
  rewrite (bind_Ok _ _ w (VDict (<[k_text := cleaned]> d)) w) by done.
  unfold catch.
  match goal with |- context [let (_, _) := ?body w in _] =>
    destruct (body w) as [[o|e1] w1] end; [discriminate|].
  unfold lift, set_defaults.
  destruct (py_split_lines cleaned) as [parts|e2] eqn:Hsplit; [discriminate|].
  cbn [rbind]. intros [= <- _].
  destruct cleaned; cbn in Hsplit; try (injection Hsplit as <-; auto).
  discriminate.
Qed.

Lemma enrich_loop_raises posts w e w' :
  enrich_loop stdout_encodes llm posts w = (Raise e, w') ->
  e = KeyError \/ e = TypeError \/ e = AttributeError.
Proof.
  revert w. induction posts as [|post posts IH]; intros w; [discriminate|].
  cbn [enrich_loop]. unfold bind at 1.
  destruct (enrich_post stdout_encodes llm post w) as [[o|e1] w1] eqn:Hpost.
  - unfold bind, ret.
    destruct (enrich_loop stdout_encodes llm posts w1) as [[others|e2] w2] eqn:Hrest.
    { intros H. discriminate H. }
    intros [= <- <-]. by eapply IH.
  - intros [= <- _]. by eapply enrich_post_raises.
Qed.

End Loop.

(** Unification leaves the fields other than [tags] as they were. *)
Lemma unify_post_frame u post post' key :
  unify_post u post = Ok post' -> key <> k_tags ->
  exists d d', post = VDict d /\ post' = VDict d' /\ d' !! key = d !! key.
Proof.
  intros (d & l & -> & ->)%unify_post_Ok_inv Hkey.
  eexists _, _. split; [done|]. split; [done|]. by rewrite lookup_insert_ne.
Qed.

(** What the second loop raises has an ASCII message. *)
Lemma apply_unified_tags_raises u posts e :
  apply_unified_tags u posts = Raise e -> e = TypeError \/ e = AttributeError.
Proof.
  assert (forall v k, py_hash v = Raise k -> k = TypeError) as Hhash.
  { intros v k Hk. destruct v; cbn in Hk; congruence. }
  induction posts as [|post posts IH]; [discriminate|].
  cbn [apply_unified_tags].
  destruct (unify_post u post) as [post'|e1] eqn:Hpost; cbn [rbind].
  - destruct (apply_unified_tags u posts) as [rest|e2]; cbn [rbind];
      [discriminate|]. intros [= <-]. by apply IH.
  - intros [= <-]. revert Hpost. unfold unify_post.
    destruct (py_get post k_tags (VList [])) as [tags|e2] eqn:Hget; cbn [rbind].
    2:{ intros [= <-]. destruct post; cbn in Hget; inversion Hget; auto. }
    destruct (py_iter tags) as [items|e3] eqn:Hiter; cbn [rbind].
    2:{ intros [= <-]. destruct tags; cbn in Hiter; inversion Hiter; auto. }
    destruct (unified_set u ∅ items) as [s|e4] eqn:Hset; cbn [rbind].
    { destruct post; cbn; intros H; inversion H; auto. }
    intros [= <-]. clear -Hset Hhash. revert Hset. generalize (∅ : pyset).
    induction items as [|tag items IH]; intros s; [discriminate|].
    cbn [unified_set].
    destruct (py_get_value u tag tag) as [t|e5] eqn:Hget; cbn [rbind].
    + unfold set_add. destruct (py_hash t) as [k|e6] eqn:Hk; cbn [rbind];
        [apply IH|].
      intros [= <-]. left. by eapply Hhash.
    + intros [= <-]. destruct u; cbn in Hget; try (inversion Hget; by auto).
      destruct (py_hash tag) as [k|e6] eqn:Hk; cbn [rbind] in Hget;
        [discriminate|].
      injection Hget as <-. left. by eapply Hhash.
Qed.

(** ** [process_posts] *)

(** The handlers return the empty list when the exception has an ASCII
    message and is none of the two they report with the path. *)
Lemma reported_plain enc path e : plain e -> reported enc path e = Ok [].
Proof. by intros [->|[->|[->|[->|[->| ->]]]]]. Qed.

Lemma reported_printable enc path e :
  printable enc path = true -> printable enc (message e) = true ->
  reported enc path e = Ok [].
Proof. intros Hp He. unfold reported. destruct e; by rewrite ?Hp, ?He. Qed.

(** Whatever the handlers come to, it is the empty list or the exception
    of a print. *)
Lemma reported_cases enc path e :
  reported enc path e = Ok [] \/ reported enc path e = Raise UnicodeEncodeError.
Proof. unfold reported. destruct (printable enc _); auto. Qed.

Ltac handler_simpl :=
  unfold reported;
  match goal with |- context [match ?e with FileNotFoundError => _ | _ => _ end] =>
    destruct e end;
  lazy beta iota; cbn [message]; unfold bind, lift, ret; print_simpl;
  rewrite ?printable_nil;
  repeat match goal with
         | |- context [printable ?enc ?t] => destruct (printable enc t)
         end;
  reflexivity.

Section Process.
Variable stdout_encodes : N -> bool.
Variable llm : list prompt -> prompt -> llm_reply.
Variable open_w : pystr -> result unit.
Variable dump_json : pystr -> list value -> result unit.
Variable raw_file_path : pystr.

(** What [save] comes to. *)
Lemma save_spec path out w :
  save stdout_encodes open_w dump_json path out w
  = match path with
    | Some p =>
        if truthy (VStr p) then
          match open_w p with
          | Raise e => (Raise e, w)
          | Ok _ =>
              let opened := World (llm_log w) (Some (p, Unfinished)) in
              match dump_json p out with
              | Raise e => (Raise e, opened)
              | Ok _ =>
                  (if printable stdout_encodes p then Ok tt
                   else Raise UnicodeEncodeError,
                   World (llm_log w) (Some (p, Dumped out)))
              end
          end
        else (Ok tt, w)
    | None => (Ok tt, w)
    end.
Proof.
  unfold save. destruct path as [p|]; [|done].
  destruct (truthy (VStr p)); [|done].
  unfold bind, open_for_writing, write_json, lift.
  destruct (open_w p) as [[]|e]; [|done]. cbn [llm_log outfile].
  destruct (dump_json p out) as [[]|e]; [|done]. by print_simpl.
Qed.

(** When loading the input file raises. *)
Lemma process_posts_load_raises e path w :
  process_posts stdout_encodes llm open_w dump_json raw_file_path
    (Raise e) path w
  = (reported stdout_encodes raw_file_path e, w).
Proof. unfold process_posts, catch, bind at 1, lift at 1. handler_simpl. Qed.

(** When the value loaded cannot be iterated. *)
Lemma process_posts_iter_raises v e path w :
  py_iter v = Raise e ->
  process_posts stdout_encodes llm open_w dump_json raw_file_path
    (Ok v) path w
  = (reported stdout_encodes raw_file_path e, w).
Proof.
  intros Hiter. unfold process_posts, catch.
  rewrite (bind_Ok _ _ w v w) by done.
  unfold bind at 1, lift at 1. rewrite Hiter. handler_simpl.
Qed.

(** When the first loop raises. *)
Lemma process_posts_loop_raises v items path w e w1 :
  py_iter v = Ok items ->
  enrich_loop stdout_encodes llm items w = (Raise e, w1) ->
  process_posts stdout_encodes llm open_w dump_json raw_file_path
    (Ok v) path w
  = (reported stdout_encodes raw_file_path e, w1).
Proof.
  intros Hiter Hloop. unfold process_posts, catch.
  rewrite (bind_Ok _ _ w v w) by done.
  rewrite (bind_Ok _ _ w items w) by (unfold lift; by rewrite Hiter).
  unfold bind at 1. rewrite Hloop. handler_simpl.
Qed.

(** When [get_unified_tags] raises. *)
Lemma process_posts_unify_raises v items path w enriched w1 e w2 :
  py_iter v = Ok items ->
  enrich_loop stdout_encodes llm items w = (Ok enriched, w1) ->
  get_unified_tags stdout_encodes llm enriched w1 = (Raise e, w2) ->
  process_posts stdout_encodes llm open_w dump_json raw_file_path
    (Ok v) path w
  = (reported stdout_encodes raw_file_path e, w2).
Proof.
  intros Hiter Hloop Hunify. unfold process_posts, catch.
  rewrite (bind_Ok _ _ w v w) by done.
  rewrite (bind_Ok _ _ w items w) by (unfold lift; by rewrite Hiter).
  rewrite (bind_Ok _ _ _ _ _ Hloop).
  unfold bind at 1. rewrite Hunify. handler_simpl.
Qed.

(** When the second loop raises. *)
Lemma process_posts_apply_raises v items path w enriched w1 u w2 e :
  py_iter v = Ok items ->
  enrich_loop stdout_encodes llm items w = (Ok enriched, w1) ->
  get_unified_tags stdout_encodes llm enriched w1 = (Ok u, w2) ->
  apply_unified_tags u enriched = Raise e ->
  process_posts stdout_encodes llm open_w dump_json raw_file_path
    (Ok v) path w
  = (reported stdout_encodes raw_file_path e, w2).
Proof.
  intros Hiter Hloop Hunify Happly. unfold process_posts, catch.
  rewrite (bind_Ok _ _ w v w) by done.
  rewrite (bind_Ok _ _ w items w) by (unfold lift; by rewrite Hiter).
  rewrite (bind_Ok _ _ _ _ _ Hloop), (bind_Ok _ _ _ _ _ Hunify).
  unfold bind at 1, lift at 1. rewrite Happly. handler_simpl.
Qed.

(** When the two loops and the unifier go through: the result is the
    unified list if saving goes through, and what the handlers make of
    the exception otherwise. *)
Lemma process_posts_run v items path w enriched w1 u w2 out :
  py_iter v = Ok items ->
  enrich_loop stdout_encodes llm items w = (Ok enriched, w1) ->
  get_unified_tags stdout_encodes llm enriched w1 = (Ok u, w2) ->
  apply_unified_tags u enriched = Ok out ->
  process_posts stdout_encodes llm open_w dump_json raw_file_path
    (Ok v) path w
  = match save stdout_encodes open_w dump_json path out w2 with
    | (Ok _, w3) => (Ok out, w3)
    | (Raise e, w3) => (reported stdout_encodes raw_file_path e, w3)
    end.
Proof.
  intros Hiter Hloop Hunify Happly. unfold process_posts, catch.
  rewrite (bind_Ok _ _ w v w) by done.
  rewrite (bind_Ok _ _ w items w) by (unfold lift; by rewrite Hiter).
  rewrite (bind_Ok _ _ _ _ _ Hloop), (bind_Ok _ _ _ _ _ Hunify).
  rewrite (bind_Ok _ _ w2 out w2) by (unfold lift; by rewrite Happly).
  unfold bind at 1.
  destruct (save stdout_encodes open_w dump_json path out w2) as [[[]|e] w3];
    [done|]. handler_simpl.
Qed.

(** When [process_posts] returns records, each stage went through. *)
Lemma process_posts_stages raw_file path w out w' :
  process_posts stdout_encodes llm open_w dump_json raw_file_path
    raw_file path w = (Ok out, w') ->
  out = [] \/
  exists v items enriched w1 w2 u,
    raw_file = Ok v /\ py_iter v = Ok items
    /\ enrich_loop stdout_encodes llm items w = (Ok enriched, w1)
    /\ get_unified_tags stdout_encodes llm enriched w1 = (Ok u, w2)
    /\ apply_unified_tags u enriched = Ok out
    /\ save stdout_encodes open_w dump_json path out w2 = (Ok tt, w').
Proof.
  intros H.
  destruct raw_file as [v|e].
  2:{ rewrite process_posts_load_raises in H. left.
      destruct (reported_cases stdout_encodes raw_file_path e) as [Hr|Hr];
        rewrite Hr in H; congruence. }
  destruct (py_iter v) as [items|e] eqn:Hiter.
  2:{ rewrite (process_posts_iter_raises _ _ _ _ Hiter) in H. left.
      destruct (reported_cases stdout_encodes raw_file_path e) as [Hr|Hr];
        rewrite Hr in H; congruence. }
  destruct (enrich_loop stdout_encodes llm items w) as [[enriched|e] w1] eqn:Hloop.
  2:{ rewrite (process_posts_loop_raises _ _ _ _ _ _ Hiter Hloop) in H. left.
      destruct (reported_cases stdout_encodes raw_file_path e) as [Hr|Hr];
        rewrite Hr in H; congruence. }
  destruct (get_unified_tags stdout_encodes llm enriched w1) as [[u|e] w2] eqn:Hunify.
  2:{ rewrite (process_posts_unify_raises _ _ _ _ _ _ _ _ Hiter Hloop Hunify) in H.
      left.
      destruct (reported_cases stdout_encodes raw_file_path e) as [Hr|Hr];
        rewrite Hr in H; congruence. }
  destruct (apply_unified_tags u enriched) as [out'|e] eqn:Happly.
  2:{ rewrite (process_posts_apply_raises _ _ _ _ _ _ _ _ _ Hiter Hloop Hunify
                 Happly) in H. left.
      destruct (reported_cases stdout_encodes raw_file_path e) as [Hr|Hr];
        rewrite Hr in H; congruence. }
  rewrite (process_posts_run _ _ _ _ _ _ _ _ _ Hiter Hloop Hunify Happly) in H.
  destruct (save stdout_encodes open_w dump_json path out' w2)
    as [[[]|e] w3] eqn:Hsave.
  - injection H as <- <-. right. eauto 15.
  - left.
    destruct (reported_cases stdout_encodes raw_file_path e) as [Hr|Hr];
      rewrite Hr in H; congruence.
Qed.

End Process.

(** * The claims *)

(** ** The sanitizer *)

(** C7.  On every string the sanitizer returns a string and raises
    nothing: the string of the first pass when the decoding step goes
    through, and otherwise, when that step fails and the handler takes
    over, the string the stricter filter makes of the unescaped text. *)
Theorem clean_unicode_text_returns_str (text : pystr) :
  exists cleaned,
    clean_unicode_text (VStr text) = Ok (VStr cleaned)
    /\ (Utf8.decode (Utf8.encode_ignore (sanitized text)) = Ok cleaned
        \/ (exists e,
              Utf8.decode (Utf8.encode_ignore (sanitized text)) = Raise e)
           /\ cleaned = re_sub_class outside_bmp [SPACE] (sanitized text)).
Proof.
  unfold clean_unicode_text. fold (sanitized text).
  destruct (Utf8.decode _) as [text3|e]; cbn [rbind rcatch]; eauto 10.
Qed.

(** C8.  A clean ASCII string, one with no backslash-n and no backslash-t
    sequence in it, is returned as it is; sanitizing it again changes
    nothing either. *)
Theorem clean_unicode_text_clean_ascii (text : pystr) :
  Forall (fun c => c < 128) text ->
  is_infix esc_n text = false -> is_infix esc_t text = false ->
  clean_unicode_text (VStr text) = Ok (VStr text)
  /\ rbind (clean_unicode_text (VStr text)) clean_unicode_text = Ok (VStr text).
Proof.
  intros Hascii Hn Ht.
  assert (Forall scalar text) as Hscalar.
  { eapply Forall_impl; [exact Hascii|]. intros c Hc. cbn beta in Hc.
    split; [lia|]. unfold Utf8.is_surrogate. apply andb_false_iff. left.
    apply N.leb_gt. lia. }
  assert (valid_str text) as Hvalid.
  { eapply Forall_impl; [exact Hscalar|]. by intros c [? _]. }
  assert (clean_unicode_text (VStr text) = Ok (VStr text)) as Hfix.
  { rewrite clean_unicode_text_str by done. by rewrite sanitized_fixed. }
  split; [exact Hfix|]. rewrite Hfix. exact Hfix.
Qed.

Lemma clean_unicode_text_clean_ascii_witness :
  clean_unicode_text (VStr (str "hello, world"))
  = Ok (VStr (str "hello, world")).
Proof.
  apply (clean_unicode_text_clean_ascii (str "hello, world")).
  - unfold str. cbn [fmap list_fmap list_ascii_of_string].
    repeat (constructor; [reflexivity|]). constructor.
  - reflexivity.
  - reflexivity.
Defined.

(** C10.  A value that is not a string is returned as it is. *)
Theorem clean_unicode_text_non_str (v : value) :
  (forall s, v <> VStr s) -> clean_unicode_text v = Ok v.
Proof. intros Hv. destruct v as [| | |s| |]; try reflexivity. by destruct (Hv s). Qed.

Lemma clean_unicode_text_non_str_witness :
  clean_unicode_text VNone = Ok VNone /\ clean_unicode_text (VInt 7) = Ok (VInt 7).
Proof.
  split.
  - apply (clean_unicode_text_non_str VNone). intros s. discriminate.
  - apply (clean_unicode_text_non_str (VInt 7)). intros s. discriminate.
Defined.

(** ** Enrichment *)

Lemma well_formed_post_hello : well_formed_record post_hello.
Proof.
  eexists _, (str "hello"). split; [reflexivity|]. split; [reflexivity|].
  apply str_valid.
Qed.

Lemma well_formed_post_bare : well_formed_record post_bare.
Proof.
  eexists _, (str "hello"). split; [reflexivity|]. split; [reflexivity|].
  apply str_valid.
Qed.

(** C1, as the code has it.  On well-formed records, whatever the service
    does and whatever the standard output can print, the loop returns one
    record for each input record, after one request for each.  The record
    at each place is the input record at that place with its text
    sanitized, updated with the response the service gave to the request
    for that very record when that response is an object with the three
    keys (its tags made a list), and with the defaults otherwise; so every
    one of them has the fields [line_count], [language] and [tags], the
    tags being a list.  The values of an accepted response are taken as
    they come. *)
Theorem total_enrichment_coverage
  (stdout_encodes : N -> bool) (llm : list prompt -> prompt -> llm_reply)
  (posts : list value) (w : world) :
  Forall well_formed_record posts ->
  exists out,
    enrich_loop stdout_encodes llm posts w
    = (Ok out, World (llm_log w ++ (record_prompt <$> posts)) (outfile w))
    /\ length out = length posts
    /\ Forall has_metadata out
    /\ forall i d text,
         posts !! i = Some (VDict d) -> d !! k_text = Some (VStr text) ->
         out !! i
         = Some (VDict (enriched_record d (sanitized text)
                          (reply_at llm w posts i (VDict d)))).
Proof.
  intros Hwf. exists (enriched_records llm (llm_log w) posts).
  split; [by apply enrich_loop_enriched|].
  split; [apply length_enriched_records|].
  split; [by apply enriched_records_have_metadata|].
  intros i d text Hi Htext.
  rewrite (enriched_records_lookup llm _ _ _ _ Hi).
  unfold reply_at. cbn [enriched_post]. by rewrite Htext.
Qed.

Lemma total_enrichment_coverage_witness :
  exists out,
    enrich_loop stdout_utf8 llm_french [post_hello] w0
    = (Ok out, World [ExtractPrompt (VStr (str "hello"))] None)
    /\ length out = 1%nat /\ Forall has_metadata out.
Proof.
  destruct (total_enrichment_coverage stdout_utf8 llm_french [post_hello] w0)
    as (out & Hloop & Hlen & Hall & _).
  - constructor; [|constructor].
    eexists _, (str "hello"). split; [reflexivity|]. split; [reflexivity|].
    literal_valid.
  - exists out. split; [|by split]. rewrite Hloop. reflexivity.
Defined.

(** C1 as stated fails: the service may answer with the three keys and a
    null count, a third language and no tag; the response is accepted and
    the enriched record has these values. *)
Lemma total_enrichment_claim_fails :
  Forall well_formed_record [post_hello]
  /\ ~ total_enrichment_claim stdout_utf8 llm_french [post_hello] w0
  /\ exists d w',
       enrich_loop stdout_utf8 llm_french [post_hello] w0 = (Ok [VDict d], w')
       /\ d !! k_line_count = Some VNone
       /\ d !! k_language = Some (VStr (str "French"))
       /\ d !! k_tags = Some (VList []).
Proof.
  split; [repeat constructor; exact well_formed_post_hello|]. split.
  - intros (out & w' & Hloop & _ & Hall).
    vm_compute in Hloop. injection Hloop as <- _.
    apply Forall_cons in Hall as [(d & lc & la & tags & Hd & Hlc & Hnull & _) _].
    injection Hd as <-. vm_compute in Hlc. congruence.
  - eexists _, _. split; [by vm_compute|]. by vm_compute.
Qed.

(** ** Unification *)

Lemma py_hash_str_inv v s : py_hash v = Ok (KStr s) -> v = VStr s.
Proof. destruct v; cbn; congruence. Qed.

(** On strings, listing a set is listing without repetition. *)
Lemma lists_set_of_strings l xs :
  Forall (fun x => exists s, x = VStr s) xs ->
  lists_set_of l xs -> NoDup l /\ forall v, v ∈ l <-> v ∈ xs.
Proof.
  intros Hxs (Hnodup & Hsub & Hsup). split; [by eapply NoDup_fmap_1|].
  intros v. split; [apply Hsub|]. intros Hv.
  destruct (Hsup v Hv) as (v' & Hv' & Hhash).
  assert (exists s, v = VStr s) as [s ->].
  { by eapply Forall_forall in Hxs. }
  by apply py_hash_str_inv in Hhash as ->.
Qed.


(** The second loop on records whose tags can be hashed. *)
Lemma apply_unified_tags_unified (m : dict) posts :
  map_Forall (fun _ v => hashable v) m ->
  Forall (fun post =>
            exists d ts,
              post = VDict d /\ d !! k_tags = Some (VList ts)
              /\ Forall hashable ts) posts ->
  exists out,
    apply_unified_tags (VDict m) posts = Ok out
    /\ Forall2 (tags_unified m) posts out.
Proof.
  intros Hm.
  induction 1 as [|post posts (d & ts & -> & Htags & Hts) _ (out & Hout & Hrel)].
  - exists []. split; [reflexivity | constructor].
  - destruct (unify_post_spec m d ts Hm Htags Hts) as (l & Hpost & Hl).
    exists (VDict (<[k_tags := VList l]> d) :: out). split.
    + cbn [apply_unified_tags]. rewrite Hpost, Hout. reflexivity.
    + constructor; [|exact Hrel]. by exists d, ts, l.
Qed.





(** C3, as the code has it.  Given a mapping whose values can be put into
    a set, as those of a mapping from strings to strings can, the second
    loop gives every record the list of the set of its mapped tags: each
    tag is replaced by [mapping.get(tag, tag)], so a mapped tag by its
    canonical form and an unmapped one by itself, and equal results are
    kept once.  That mapping is the one [get_unified_tags] returns when
    the tags can be printed and the service answers the request with it.
    An object of the service one of whose values cannot be put into a set
    is not applied: line 170 raises on it and the identity mapping is
    returned instead.  In the merge scenario the three records end with
    the tags "Job Search", "Job Search" and "Motivation". *)
Theorem unified_tags_applied (m : dict) (posts : list value) :
  map_Forall (fun _ v => hashable v) m ->
  Forall (fun post =>
            exists d ts,
              post = VDict d /\ d !! k_tags = Some (VList ts)
              /\ Forall hashable ts) posts ->
  (exists out,
     apply_unified_tags (VDict m) posts = Ok out
     /\ Forall2 (tags_unified m) posts out)
  /\ (forall stdout_encodes llm w T joined,
        collect_unique_tags ∅ posts = Ok T -> size T <> 0%nat ->
        str_join comma (set_to_list T) = Ok joined ->
        printable stdout_encodes joined = true ->
        llm (llm_log w) (UnifyPrompt joined) = Reply_json (VDict m) ->
        get_unified_tags stdout_encodes llm posts w
        = (Ok (VDict m), asked (UnifyPrompt joined) w))
  /\ (forall stdout_encodes llm w T joined (m' : dict),
        collect_unique_tags ∅ posts = Ok T -> size T <> 0%nat ->
        str_join comma (set_to_list T) = Ok joined ->
        printable stdout_encodes joined = true ->
        llm (llm_log w) (UnifyPrompt joined) = Reply_json (VDict m') ->
        ~ map_Forall (fun _ v => hashable v) m' ->
        get_unified_tags stdout_encodes llm posts w
        = (Ok (VDict (identity_mapping T)), asked (UnifyPrompt joined) w))
  /\ apply_unified_tags (VDict scenario_mapping) scenario_posts
     = Ok scenario_result
  /\ (get_unified_tags stdout_utf8 llm_scenario scenario_posts w0).1
     = Ok (VDict scenario_mapping).
Proof.
  intros Hm Hposts.
  split; [by apply apply_unified_tags_unified|].
  split; [|split; [|split; by vm_compute]].
  - intros enc llm w T joined HT Hsize Hjoin Hprint Hreply.
    rewrite (get_unified_tags_spec enc llm posts w T HT).
    apply Nat.eqb_neq in Hsize. rewrite Hsize, Hjoin, Hprint. cbn zeta.
    by rewrite Hreply, mapping_of_reply_accepted.
  - intros enc llm w T joined m' HT Hsize Hjoin Hprint Hreply Hm'.
    rewrite (get_unified_tags_spec enc llm posts w T HT).
    apply Nat.eqb_neq in Hsize. rewrite Hsize, Hjoin, Hprint. cbn zeta.
    by rewrite Hreply, mapping_of_reply_discarded.
Qed.

Lemma unified_tags_applied_witness :
  exists out,
    apply_unified_tags (VDict scenario_mapping) scenario_posts = Ok out
    /\ length out = 3%nat.
Proof.
  destruct (unified_tags_applied scenario_mapping scenario_posts)
    as ((out & Hout & Hrel) & _).
  - intros key v Hv. revert Hv. unfold scenario_mapping.
    rewrite !lookup_insert_Some, lookup_empty.
    intros [[_ <-]|[_ [[_ <-]|[_ [[_ <-]|[_ ?]]]]]]; try done;
      apply hashable_str.
  - unfold scenario_posts, tagged.
    repeat (constructor;
            [eexists _, _; split; [reflexivity|]; split; [reflexivity|];
             repeat constructor; apply hashable_str|]).
    constructor.
  - exists out. split; [exact Hout|].
    symmetry. by apply Forall2_length in Hrel.
Defined.

(** C3 as stated fails: an object the service returns is not applied
    when one of its values is a list.  The record tagged "a" keeps its tag
    although the object maps "a" to "b". *)
Lemma unified_tags_claim_fails :
  Forall well_formed_record [post_bare]
  /\ ~ unified_tags_claim stdout_utf8 llm_list_value open_ok dump_ok (str "in")
         [post_bare] None w0
  /\ process_posts stdout_utf8 llm_list_value open_ok dump_ok (str "in")
       (Ok (VList [post_bare])) None w0
     = (Ok [post_bare_tagged "a"],
        World [ExtractPrompt (VStr (str "hello")); UnifyPrompt (str "a")] None).
Proof.
  split; [repeat constructor; exact well_formed_post_bare|].
  split; [|vm_compute; reflexivity].
  intros H.
  assert (Forall2 (tags_unified (<[str "a" := VStr (str "b")]>
                                   (<[str "x" := VList [VStr (str "y")]]> ∅)))
            [post_bare_tagged "a"] [post_bare_tagged "a"]) as Hclaim.
  { eapply H; vm_compute; reflexivity. }
  apply Forall2_cons_1 in Hclaim as [(d & ts & l & Hd & Hts & Hd' & _ & Hsub & _) _].
  injection Hd as <-. vm_compute in Hts. injection Hts as <-.
  apply (f_equal (fun o => match o with
                           | VDict m => m !! k_tags
                           | _ => None
                           end)) in Hd'.
  rewrite lookup_insert_eq in Hd'. vm_compute in Hd'. injection Hd' as <-.
  specialize (Hsub (VStr (str "a"))). vm_compute in Hsub.
  assert (VStr [97] ∈ [VStr [98]]) as Hin by (apply Hsub; by left).
  apply list_elem_of_singleton in Hin. discriminate.
Qed.

(** C4 fails on the code.  The service answers the unification request
    with a text that is not JSON and holds a lone surrogate.  The request
    has failed, by a response that does not parse; the handler of line
    173 prints the message of the parser, which quotes the text, before it
    returns the identity mapping, and a standard output in UTF-8 cannot
    encode it: [get_unified_tags] raises [UnicodeEncodeError] and
    [process_posts] returns the empty list. *)
Theorem unification_failure_raises :
  let w1 := World [ExtractPrompt (VStr (str "hello"))] None in
  let w2 := World [ExtractPrompt (VStr (str "hello")); UnifyPrompt (str "a")] None in
  enrich_loop stdout_utf8 llm_surrogate [post_bare] w0
  = (Ok [post_bare_tagged "a"], w1)
  /\ rbind (collect_unique_tags ∅ [post_bare_tagged "a"])
       (fun T => str_join comma (set_to_list T))
     = Ok (str "a")
  /\ unification_fails (llm_surrogate (llm_log w1) (UnifyPrompt (str "a")))
  /\ get_unified_tags stdout_utf8 llm_surrogate [post_bare_tagged "a"] w1
     = (Raise UnicodeEncodeError, w2)
  /\ process_posts stdout_utf8 llm_surrogate open_ok dump_ok (str "in")
       (Ok (VList [post_bare])) None w0
     = (Ok [], w2).
Proof.
  cbn zeta. split; [vm_compute; reflexivity|].
  split; [vm_compute; reflexivity|].
  split; [apply unify_unparseable|].
  split; vm_compute; reflexivity.
Qed.

(** C5.  When the collected tag set of the records the first loop
    returns is empty, [get_unified_tags] returns the empty mapping and
    sends no request (the world is as before); every record has an empty
    tag list, and the second loop returns every record as it was. *)
Theorem empty_tag_set_short_circuit
  (stdout_encodes : N -> bool) (llm : list prompt -> prompt -> llm_reply)
  (posts enriched : list value) (w w1 : world) :
  enrich_loop stdout_encodes llm posts w = (Ok enriched, w1) ->
  collect_unique_tags ∅ enriched = Ok ∅ ->
  get_unified_tags stdout_encodes llm enriched w1 = (Ok (VDict ∅), w1)
  /\ Forall (fun o => exists d, o = VDict d /\ d !! k_tags = Some (VList []))
       enriched
  /\ apply_unified_tags (VDict ∅) enriched = Ok enriched.
Proof.
  intros Hloop HT.
  split; [by rewrite (get_unified_tags_spec stdout_encodes llm enriched w1 ∅ HT)|].
  assert (Forall (fun o => exists d, o = VDict d /\ d !! k_tags = Some (VList []))
            enriched) as Hempty.
  { destruct (collect_unique_tags_spec _ _ _ HT keyed_empty) as (_ & _ & Hin).
    apply enrich_loop_Ok_inv in Hloop.
    apply Forall_forall. intros o Ho.
    apply list_elem_of_lookup in Ho as Hi. destruct Hi as [i Hi].
    destruct (Forall2_lookup_r _ _ _ _ _ Hloop Hi) as (post & _ & wa & wb & Hpost).
    destruct (enrich_post_fields _ _ _ _ _ _ Hpost) as (d & l & -> & _ & _ & _ & Hl).
    exists d. split; [done|]. destruct l as [|t l]; [done|].
    destruct (Hin d (t :: l) t Ho Hl) as (k & _ & [x Hx]); [by left|].
    by rewrite lookup_empty in Hx. }
  split; [exact Hempty|].
  clear -Hempty. induction Hempty as [|o enriched (d & -> & Htags) _ IH]; [done|].
  cbn [apply_unified_tags]. rewrite IH.
  unfold unify_post. cbn [py_get]. rewrite Htags.
  cbn [from_option id py_iter rbind unified_set py_setitem].
  by rewrite set_to_list_empty, insert_id.
Qed.

Lemma empty_tag_set_short_circuit_witness :
  let w1 := World [ExtractPrompt (VStr (str "hello"))] None in
  exists enriched,
    enrich_loop stdout_utf8 llm_french [post_hello] w0 = (Ok enriched, w1)
    /\ get_unified_tags stdout_utf8 llm_french enriched w1 = (Ok (VDict ∅), w1)
    /\ apply_unified_tags (VDict ∅) enriched = Ok enriched.
Proof.
  cbn zeta.
  let r := eval vm_compute in (enrich_loop stdout_utf8 llm_french [post_hello] w0) in
  lazymatch r with
  | (Ok ?enriched, ?w1) =>
      exists enriched; split; [vm_compute; reflexivity|];
      destruct (empty_tag_set_short_circuit stdout_utf8 llm_french [post_hello]
                  enriched w0 w1) as (Hunify & _ & Happly);
      [ vm_compute; reflexivity | vm_compute; reflexivity | ];
      split; [exact Hunify | exact Happly]
  end.
Defined.

(** ** The whole run *)

(** C6, as the code has it.  In a run on well-formed records that returns
    its records, a field of an input record other than [text],
    [line_count], [language] and [tags] has, in the record of the result at
    the same place, the value the response to the request for that very
    record carries under that name, when that response is accepted and
    carries such a field, and its original value otherwise.  What the
    service answers to the requests for other records or to the
    unification request has no bearing on it. *)
Theorem other_fields_preserved
  (stdout_encodes : N -> bool) (llm : list prompt -> prompt -> llm_reply)
  (open_w : pystr -> result unit)
  (dump_json : pystr -> list value -> result unit)
  (raw_file_path : pystr) (posts : list value) (path : option pystr)
  (w : world) (i : nat) (d : dict) (key : pystr) (out : list value)
  (w' : world) (o : value) :
  Forall well_formed_record posts ->
  process_posts stdout_encodes llm open_w dump_json raw_file_path
    (Ok (VList posts)) path w = (Ok out, w') ->
  posts !! i = Some (VDict d) -> out !! i = Some o ->
  key ∉ written_keys ->
  exists d',
    o = VDict d'
    /\ d' !! key
       = match response_field (reply_at llm w posts i (VDict d)) key with
         | Some v => Some v
         | None => d !! key
         end.
Proof.
  intros Hwf Hrun Hpost Ho Hkey.
  apply process_posts_stages in Hrun
    as [->|(v & items & enriched & w1 & w2 & u & [= <-] & [= <-] & Hloop & _
            & Happly & _)]; [done|].
  rewrite (enrich_loop_enriched stdout_encodes llm posts w Hwf) in Hloop.
  injection Hloop as <- _.
  apply apply_unified_tags_Forall2 in Happly.
  pose proof (enriched_records_lookup llm (llm_log w) _ _ _ Hpost) as He.
  destruct (Forall2_lookup_l _ _ _ _ _ Happly He) as (o' & Ho' & Hunify).
  assert (o' = o) as -> by congruence.
  destruct (proj1 (Forall_lookup _ _) Hwf i _ Hpost)
    as (d0 & text & [= <-] & Htext & _).
  cbn [enriched_post] in Hunify. rewrite Htext in Hunify.
  destruct (unify_post_frame _ _ _ key Hunify) as (d1 & d2 & [= <-] & -> & Hd2).
  { intros ->. apply Hkey. unfold written_keys. set_solver. }
  exists d2. split; [done|]. rewrite Hd2.
  by apply enriched_record_frame.
Qed.

Lemma likes_not_written : str "likes" ∉ written_keys.
Proof.
  unfold written_keys. intros Hin.
  repeat (apply elem_of_cons in Hin as [Hin|Hin]; [by vm_compute in Hin|]).
  by apply elem_of_nil in Hin.
Qed.

Lemma other_fields_preserved_witness :
  exists d',
    post_hello_overwritten = VDict d' /\ d' !! str "likes" = Some (VInt 0).
Proof.
  destruct (other_fields_preserved stdout_utf8 llm_likes open_ok dump_ok
              (str "in") [post_hello] None w0 0%nat
              (<[k_text := VStr (str "hello")]> (<[str "likes" := VInt 5]> ∅))
              (str "likes") [post_hello_overwritten]
              (World [ExtractPrompt (VStr (str "hello"));
                      UnifyPrompt (str "Greeting")] None)
              post_hello_overwritten)
    as (d' & Hd' & Hkey).
  - constructor; [|constructor].
    eexists _, (str "hello"). split; [reflexivity|]. split; [reflexivity|].
    literal_valid.
  - vm_compute. reflexivity.
  - reflexivity.
  - reflexivity.
  - unfold written_keys. intros Hin.
    repeat (apply elem_of_cons in Hin as [Hin|Hin]; [by vm_compute in Hin|]).
    by apply elem_of_nil in Hin.
  - exists d'. split; [exact Hd'|]. rewrite Hkey. vm_compute. reflexivity.
Defined.

(** C6 as stated fails: a field the extraction response carries replaces
    the field of the post. *)
Lemma fields_preserved_claim_fails :
  Forall well_formed_record [post_hello]
  /\ ~ fields_preserved_claim stdout_utf8 llm_likes open_ok dump_ok (str "in")
         [post_hello] None w0.
Proof.
  split; [repeat constructor; exact well_formed_post_hello|].
  intros H.
  destruct (H 0%nat
              (<[k_text := VStr (str "hello")]> (<[str "likes" := VInt 5]> ∅))
              (str "likes") [post_hello_overwritten]
              (World [ExtractPrompt (VStr (str "hello"));
                      UnifyPrompt (str "Greeting")] None))
    as (d' & Hout & Hval).
  - vm_compute. reflexivity.
  - reflexivity.
  - exact likes_not_written.
  - unfold post_hello_overwritten in Hout. cbn [lookup list_lookup] in Hout.
    injection Hout as <-. vm_compute in Hval. discriminate.
Qed.

(** C9 fails on the code.  The input file is missing, or does not hold
    JSON, and its name holds a byte that is not UTF-8, which Python
    decodes to the code point U+DCE9.  The handlers of lines 74 and 77
    print the name before they return the empty list, and a standard
    output in UTF-8 cannot encode it: [UnicodeEncodeError] leaves
    [process_posts], whatever the service and the file system do. *)
Theorem file_errors_print_raises
  (llm : list prompt -> prompt -> llm_reply)
  (open_w : pystr -> result unit)
  (dump_json : pystr -> list value -> result unit)
  (path : option pystr) (w : world) :
  process_posts stdout_utf8 llm open_w dump_json path_latin
    (Raise FileNotFoundError) path w
  = (Raise UnicodeEncodeError, w)
  /\ process_posts stdout_utf8 llm open_w dump_json path_latin
       (Raise JSONDecodeError) path w
     = (Raise UnicodeEncodeError, w).
Proof. by rewrite !process_posts_load_raises. Qed.

(** * Further properties of the code *)

(** ** The sanitizer on Python strings *)

Lemma encode_ignore_strip s :
  Utf8.encode_ignore (re_sub_class Utf8.is_surrogate [] s) = Utf8.encode_ignore s.
Proof.
  induction s as [|c r IH]; [reflexivity|].
  unfold Utf8.encode_ignore, re_sub_class in *. cbn [flat_map].
  destruct (Utf8.is_surrogate c) eqn:Hc; cbn [app flat_map]; [exact IH|].
  rewrite Hc. f_equal. exact IH.
Qed.

Lemma length_strip s :
  (length (re_sub_class Utf8.is_surrogate [] s) <= length s)%nat.
Proof.
  induction s as [|c r IH]; [done|]. unfold re_sub_class in *.
  cbn [flat_map]. destruct (Utf8.is_surrogate c); cbn; lia.
Qed.

Lemma length_unescape a b c s : (length (unescape a b c s) <= length s)%nat.
Proof.
  induction s as [| x | x y r IHr IHyr] using unescape_ind.
  - done.
  - by rewrite unescape_one.
  - rewrite unescape_two. destruct ((a =? x) && (b =? y)); cbn [length] in *; lia.
Qed.

Lemma length_sanitized s : (length (sanitized s) <= length s)%nat.
Proof.
  unfold sanitized.
  pose proof (length_unescape BACKSLASH 116 TAB
                (str_replace esc_n [LF] (re_sub_class Utf8.is_surrogate [] s))).
  pose proof (length_unescape BACKSLASH 110 LF
                (re_sub_class Utf8.is_surrogate [] s)).
  pose proof (length_strip s). unfold unescape in *. fold esc_t esc_n in *. lia.
Qed.

(** X1.  Line 22 on a Python string: encoding with [errors='ignore'] and
    decoding again never raises, and gives the text without its lone
    surrogates. *)
Theorem utf8_round_trip_drops_surrogates (s : pystr) :
  valid_str s ->
  Utf8.decode (Utf8.encode_ignore s)
  = Ok (re_sub_class Utf8.is_surrogate [] s).
Proof.
  intros Hs. rewrite <- encode_ignore_strip.
  apply Utf8Facts.decode_encode. by apply Utf8Facts.strip_scalar.
Qed.

Lemma utf8_round_trip_drops_surrogates_witness :
  Utf8.decode (Utf8.encode_ignore [104; 0xD800; 0xE9; 0x20AC; 0x1F600])
  = Ok [104; 0xE9; 0x20AC; 0x1F600].
Proof.
  apply (utf8_round_trip_drops_surrogates [104; 0xD800; 0xE9; 0x20AC; 0x1F600]).
  literal_valid.
Defined.

(** X2.  The text [clean_unicode_text] returns for a Python string holds no
    surrogate code point, and is a Python string again. *)
Theorem clean_unicode_text_no_surrogate (s : pystr) :
  valid_str s ->
  exists cleaned,
    clean_unicode_text (VStr s) = Ok (VStr cleaned)
    /\ Forall (fun c => Utf8.is_surrogate c = false) cleaned
    /\ valid_str cleaned.
Proof.
  intros Hs. exists (sanitized s). split; [by apply clean_unicode_text_str|].
  pose proof (sanitized_scalar s Hs) as Hscalar.
  split; (eapply Forall_impl; [exact Hscalar|]); by intros c [].
Qed.

Lemma clean_unicode_text_no_surrogate_witness :
  exists cleaned,
    clean_unicode_text (VStr [104; 0xDC00; 105]) = Ok (VStr cleaned)
    /\ Forall (fun c => Utf8.is_surrogate c = false) cleaned
    /\ valid_str cleaned.
Proof.
  apply (clean_unicode_text_no_surrogate [104; 0xDC00; 105]). literal_valid.
Defined.

(** X3.  The text [clean_unicode_text] returns for a Python string holds no
    backslash-n and no backslash-t sequence: none is left over, and the
    second replacement makes no new one. *)
Theorem clean_unicode_text_no_escape (s : pystr) :
  valid_str s ->
  exists cleaned,
    clean_unicode_text (VStr s) = Ok (VStr cleaned)
    /\ is_infix esc_n cleaned = false /\ is_infix esc_t cleaned = false.
Proof.
  intros Hs. exists (sanitized s). split; [by apply clean_unicode_text_str|].
  apply sanitized_no_escape.
Qed.

Lemma clean_unicode_text_no_escape_witness :
  exists cleaned,
    clean_unicode_text (VStr (str "a\nb\tc")) = Ok (VStr cleaned)
    /\ is_infix esc_n cleaned = false /\ is_infix esc_t cleaned = false.
Proof.
  apply (clean_unicode_text_no_escape (str "a\nb\tc")). literal_valid.
Defined.

(** X4.  Sanitizing a Python string twice gives what sanitizing it once
    gives. *)
Theorem clean_unicode_text_idempotent (s : pystr) :
  valid_str s ->
  rbind (clean_unicode_text (VStr s)) clean_unicode_text
  = clean_unicode_text (VStr s).
Proof.
  intros Hs. rewrite clean_unicode_text_str by done. cbn [rbind].
  rewrite clean_unicode_text_str by by apply sanitized_valid.
  by rewrite sanitized_idempotent.
Qed.

Lemma clean_unicode_text_idempotent_witness :
  rbind (clean_unicode_text (VStr (str "a\nb\tc"))) clean_unicode_text
  = clean_unicode_text (VStr (str "a\nb\tc")).
Proof.
  apply (clean_unicode_text_idempotent (str "a\nb\tc")). literal_valid.
Defined.

(** X5.  A Python string without surrogates and without the two escape
    sequences is returned as it is, whatever else it holds: code points
    beyond ASCII and beyond the Basic Multilingual Plane are kept, the
    fallback that blanks the latter is not taken. *)
Theorem clean_unicode_text_keeps_scalar_text (s : pystr) :
  Forall scalar s ->
  is_infix esc_n s = false -> is_infix esc_t s = false ->
  clean_unicode_text (VStr s) = Ok (VStr s).
Proof.
  intros Hs Hn Ht. rewrite clean_unicode_text_str.
  - by rewrite sanitized_fixed.
  - eapply Forall_impl; [exact Hs|]. by intros c [].
Qed.

Lemma clean_unicode_text_keeps_scalar_text_witness :
  clean_unicode_text (VStr [0x1F600; 0xE9; 104])
  = Ok (VStr [0x1F600; 0xE9; 104]).
Proof.
  apply (clean_unicode_text_keeps_scalar_text [0x1F600; 0xE9; 104]).
  - repeat (constructor; [split; [lia | reflexivity]|]). constructor.
  - reflexivity.
  - reflexivity.
Defined.

(** X6.  Sanitizing never makes a Python string longer: code points are
    removed, or two are replaced by one. *)
Theorem clean_unicode_text_not_longer (s : pystr) :
  valid_str s ->
  exists cleaned,
    clean_unicode_text (VStr s) = Ok (VStr cleaned)
    /\ (length cleaned <= length s)%nat.
Proof.
  intros Hs. exists (sanitized s). split; [by apply clean_unicode_text_str|].
  apply length_sanitized.
Qed.

Lemma clean_unicode_text_not_longer_witness :
  exists cleaned,
    clean_unicode_text (VStr (str "a\nb")) = Ok (VStr cleaned)
    /\ (length cleaned <= 4)%nat.
Proof.
  apply (clean_unicode_text_not_longer (str "a\nb")). literal_valid.
Defined.

(** ** Requests and the output file *)

Lemma keeps_file_ret {A} (a : A) : keeps_file (ret a).
Proof. by intros w. Qed.

Lemma keeps_file_raise {A} e : keeps_file (@raise A e).
Proof. by intros w. Qed.

Lemma keeps_file_lift {A} (r : result A) : keeps_file (lift r).
Proof. by intros w. Qed.

Lemma keeps_file_bind {A B} (m : M A) (k : A -> M B) :
  keeps_file m -> (forall a, keeps_file (k a)) -> keeps_file (bind m k).
Proof.
  intros Hm Hk w. unfold bind. specialize (Hm w).
  destruct (m w) as [[a|e] w1]; cbn [snd] in *; [|done].
  by rewrite Hk.
Qed.

Lemma keeps_file_catch {A} (body : M A) handler :
  keeps_file body -> (forall e, keeps_file (handler e)) ->
  keeps_file (catch body handler).
Proof.
  intros Hm Hk w. unfold catch. specialize (Hm w).
  destruct (body w) as [[a|e] w1]; cbn [snd] in *; [done|].
  by rewrite Hk.
Qed.

Section FileAndLog.
Variable stdout_encodes : N -> bool.
Variable llm : list prompt -> prompt -> llm_reply.

Lemma keeps_file_chain_invoke_parse p : keeps_file (chain_invoke_parse llm p).
Proof. intros w. unfold chain_invoke_parse. by destruct (llm _ _). Qed.

Lemma keeps_file_extract_metadata post :
  keeps_file (extract_metadata stdout_encodes llm post).
Proof.
  unfold extract_metadata.
  apply keeps_file_bind; [apply keeps_file_lift|]. intros cleaned.
  apply keeps_file_catch.
  - apply keeps_file_bind; [apply keeps_file_chain_invoke_parse|].
    intros res. apply keeps_file_lift.
  - intros e. destruct e;
      (apply keeps_file_bind; [apply keeps_file_lift|]); intros _;
      try apply keeps_file_raise;
      (apply keeps_file_bind; [apply keeps_file_lift|]);
      intros parts; apply keeps_file_ret.
Qed.

Lemma keeps_file_enrich_post post :
  keeps_file (enrich_post stdout_encodes llm post).
Proof.
  unfold enrich_post.
  repeat (apply keeps_file_bind; [apply keeps_file_lift|]; intros ?).
  apply keeps_file_catch.
  - apply keeps_file_bind; [apply keeps_file_extract_metadata|].
    intros metadata. apply keeps_file_lift.
  - intros e. apply keeps_file_lift.
Qed.

Lemma keeps_file_enrich_loop posts :
  keeps_file (enrich_loop stdout_encodes llm posts).
Proof.
  induction posts as [|post posts IH]; [apply keeps_file_ret|].
  cbn [enrich_loop].
  apply keeps_file_bind; [apply keeps_file_enrich_post|]. intros enriched.
  apply keeps_file_bind; [exact IH|]. intros others. apply keeps_file_ret.
Qed.

Lemma keeps_file_get_unified_tags posts :
  keeps_file (get_unified_tags stdout_encodes llm posts).
Proof.
  unfold get_unified_tags.
  apply keeps_file_bind; [apply keeps_file_lift|]. intros T.
  destruct (Nat.eqb (size T) 0); [apply keeps_file_ret|].
  apply keeps_file_bind; [apply keeps_file_lift|]. intros joined.
  apply keeps_file_bind; [apply keeps_file_lift|]. intros _.
  apply keeps_file_catch.
  - apply keeps_file_bind; [apply keeps_file_chain_invoke_parse|]. intros res.
    repeat (apply keeps_file_bind; [apply keeps_file_lift|]; intros ?).
    apply keeps_file_ret.
  - intros e. destruct e;
      (apply keeps_file_bind; [apply keeps_file_lift|]); intros _;
      apply keeps_file_ret.
Qed.

End FileAndLog.

(** X7.  [extract_metadata] sends exactly one request, whatever the post,
    whatever the reply and whatever can be printed: the extraction prompt
    with the sanitized post.  There is no second attempt, and the output
    file is not touched. *)
Theorem extract_metadata_one_request
  (stdout_encodes : N -> bool) (llm : list prompt -> prompt -> llm_reply)
  (post : value) (w : world) :
  exists cleaned,
    clean_unicode_text post = Ok cleaned
    /\ (extract_metadata stdout_encodes llm post w).2
       = World (llm_log w ++ [ExtractPrompt cleaned]) (outfile w).
Proof.
  destruct (clean_unicode_text_total post) as [cleaned Hclean].
  exists cleaned. split; [exact Hclean|].
  rewrite (extract_metadata_spec stdout_encodes llm post cleaned w Hclean).
  cbn zeta.
  destruct (accepted_metadata _); [reflexivity|].
  destruct (printable stdout_encodes _); [|reflexivity].
  destruct (llm _ _) as [e| |res]; [by destruct e|reflexivity..].
Qed.

(** X8.  How [extract_metadata] ends on a Python string.  An object with
    the three keys is returned with its tags made a list.  Otherwise the
    handler first prints the message of the failure: if the standard
    output cannot encode it, [UnicodeEncodeError] is raised; if it can, a
    response that does not parse is raised again as
    [OutputParserException], not defaulted, and any other failure gives
    the default metadata, whose line count is the number of line feeds of
    the sanitized text plus one, so at least one. *)
Theorem extract_metadata_outcomes
  (stdout_encodes : N -> bool) (llm : list prompt -> prompt -> llm_reply)
  (text : pystr) (w : world) :
  valid_str text ->
  let cleaned := sanitized text in
  let reply := llm (llm_log w) (ExtractPrompt (VStr cleaned)) in
  let outcome := (extract_metadata stdout_encodes llm (VStr text) w).1 in
  (forall m, accepted_metadata reply = Some m -> outcome = Ok (VDict m))
  /\ (accepted_metadata reply = None ->
      printable stdout_encodes (failure_message reply) = false ->
      outcome = Raise UnicodeEncodeError)
  /\ (printable stdout_encodes (failure_message reply) = true ->
      (exists rejected, reply = Reply_unparseable rejected)
      \/ (exists msg, reply = Reply_raises (OutputParserException msg)) ->
      outcome = Raise (OutputParserException context_too_big))
  /\ (accepted_metadata reply = None ->
      printable stdout_encodes (failure_message reply) = true ->
      (forall rejected, reply <> Reply_unparseable rejected) ->
      (forall msg, reply <> Reply_raises (OutputParserException msg)) ->
      outcome = Ok (VDict (default_metadata (S (str_count LF cleaned))))).
Proof.
  intros Hvalid cleaned reply outcome. subst outcome.
  rewrite (extract_metadata_spec stdout_encodes llm (VStr text) (VStr cleaned) w)
    by by apply clean_unicode_text_str.
  cbn zeta. fold reply. split; [|split; [|split]].
  - by intros m ->.
  - by intros -> ->.
  - by intros -> [[rejected ->] | [msg ->]].
  - intros -> -> Hn1 Hn2. cbn [py_split_lines rbind]. rewrite length_str_split.
    destruct reply as [e|rejected|res]; [destruct e| |]; try done.
    + by destruct (Hn2 msg).
    + by destruct (Hn1 rejected).
Qed.

Lemma extract_metadata_outcomes_witness :
  (extract_metadata stdout_utf8 llm_garbled (VStr (str "hello")) w0).1
  = Raise (OutputParserException context_too_big).
Proof.
  destruct (extract_metadata_outcomes stdout_utf8 llm_garbled (str "hello") w0)
    as (_ & _ & Hparse & _).
  - literal_valid.
  - apply Hparse; [reflexivity|]. left. by eexists.
Defined.

(** X9.  Whatever [validate_response] returns is the parsed object itself, which
    has the three keys, with all its fields as they were, further keys
    included, except that [tags] is a list: a list stays as it is, even an
    empty one, any other value that counts as true is wrapped, and one that
    counts as false is replaced by "General".  Nothing that is not an
    object gets through. *)
Theorem validate_response_accepts (res res' : value) :
  validate_response res = Ok res' ->
  exists d d',
    res = VDict d /\ res' = VDict d'
    /\ has_required_keys d = true
    /\ (forall key, key <> k_tags -> d' !! key = d !! key)
    /\ exists tags,
         d !! k_tags = Some tags
         /\ d' !! k_tags
            = Some (match tags with
                    | VList l => VList l
                    | _ => if truthy tags then VList [tags]
                           else VList [VStr General]
                    end).
Proof.
  intros Hok. pose proof (validate_response_spec res) as Hspec.
  destruct (accepted_metadata (Reply_json res)) as [m|] eqn:Hacc.
  2:{ destruct Hspec as (e & He & _). congruence. }
  rewrite Hspec in Hok. injection Hok as <-.
  destruct res as [| | | | |d]; try discriminate. cbn [accepted_metadata] in Hacc.
  destruct (has_required_keys d) eqn:Hkeys; [|discriminate].
  injection Hacc as <-. exists d, (normalize_tags d).
  split; [done|]. split; [done|]. split; [done|].
  split; [intros key Hkey; by apply normalize_tags_lookup_ne|].
  apply has_required_keys_spec in Hkeys as (_ & _ & [tags Htags]).
  exists tags. split; [done|]. unfold normalize_tags. rewrite Htags.
  destruct tags; rewrite ?lookup_insert_eq; done.
Qed.

Lemma validate_response_accepts_witness :
  exists d d',
    VDict (<[k_line_count := VInt 2]>
             (<[k_language := VStr English]> (<[k_tags := VStr (str "a")]> ∅)))
    = VDict d
    /\ VDict (<[k_line_count := VInt 2]>
                (<[k_language := VStr English]>
                   (<[k_tags := VList [VStr (str "a")]]> ∅)))
       = VDict d'
    /\ d' !! k_tags = Some (VList [VStr (str "a")]).
Proof.
  destruct (validate_response_accepts
              (VDict (<[k_line_count := VInt 2]>
                        (<[k_language := VStr English]>
                           (<[k_tags := VStr (str "a")]> ∅))))
              (VDict (<[k_line_count := VInt 2]>
                        (<[k_language := VStr English]>
                           (<[k_tags := VList [VStr (str "a")]]> ∅)))))
    as (d & d' & Hd & Hd' & _ & _ & tags & Htags & Htags').
  - vm_compute. reflexivity.
  - exists d, d'. split; [exact Hd|]. split; [exact Hd'|].
    injection Hd' as <-. reflexivity.
Defined.

(** X10.  On well-formed records the loop sends one request for each record, in
    the order of the records, each with the sanitized text of its record;
    it sends nothing else and does not touch the output file. *)
Theorem enrich_loop_requests
  (stdout_encodes : N -> bool) (llm : list prompt -> prompt -> llm_reply)
  (posts : list value) (w : world) :
  Forall well_formed_record posts ->
  (enrich_loop stdout_encodes llm posts w).2
  = World (llm_log w ++ (record_prompt <$> posts)) (outfile w).
Proof.
  intros Hwf. by rewrite (enrich_loop_enriched stdout_encodes llm posts w Hwf).
Qed.

Lemma enrich_loop_requests_witness :
  (enrich_loop stdout_utf8 llm_garbled [post_bare; post_bare] w0).2
  = World [ExtractPrompt (VStr (str "hello")); ExtractPrompt (VStr (str "hello"))]
      None.
Proof.
  apply (enrich_loop_requests stdout_utf8 llm_garbled [post_bare; post_bare] w0).
  repeat (constructor;
          [eexists _, (str "hello"); split; [reflexivity|];
           split; [reflexivity | literal_valid]|]).
  constructor.
Defined.

(** ** The records of the result *)

Lemma unified_set_keyed u s items s' :
  unified_set u s items = Ok s' -> keyed s -> keyed s'.
Proof.
  revert s. induction items as [|tag items IH]; intros s.
  - cbn. by intros [= <-].
  - cbn [unified_set]. intros (t & _ & H)%rbind_Ok_inv Hs.
    apply rbind_Ok_inv in H as (s1 & Hadd & H).
    eapply IH; [exact H|]. by destruct (set_add_spec _ _ _ Hadd Hs).
Qed.

(** The tags the second loop writes are a list without two equal
    members. *)
Lemma unify_post_NoDup u post post' :
  unify_post u post = Ok post' ->
  exists d l,
    post = VDict d /\ post' = VDict (<[k_tags := VList l]> d)
    /\ NoDup (py_hash <$> l).
Proof.
  unfold unify_post. intros (tags & _ & H)%rbind_Ok_inv.
  apply rbind_Ok_inv in H as (items & _ & H).
  apply rbind_Ok_inv in H as (new_tags & Hset & H).
  apply py_setitem_Ok_inv in H as (d & -> & ->).
  eexists _, _. split; [done|]. split; [done|].
  apply set_to_list_NoDup. eapply unified_set_keyed; [exact Hset|].
  apply keyed_empty.
Qed.

(** X11.  Whatever the input file holds and whatever the service, the file
    system and the standard output do, every record of a list
    [process_posts] returns is an object with a [text], a [line_count], a
    [language] and a list of [tags] without two equal members. *)
Theorem process_posts_records_complete
  (stdout_encodes : N -> bool) (llm : list prompt -> prompt -> llm_reply)
  (open_w : pystr -> result unit)
  (dump_json : pystr -> list value -> result unit)
  (raw_file_path : pystr) (raw_file : result value) (path : option pystr)
  (w : world) (out : list value) (w' : world) :
  process_posts stdout_encodes llm open_w dump_json raw_file_path
    raw_file path w = (Ok out, w') ->
  Forall complete_record out.
Proof.
  intros Hrun.
  apply process_posts_stages in Hrun
    as [->|(posts & items & enriched & w1 & w2 & u & _ & _ & Hloop & _
            & Happly & _)]; [constructor|].
  apply enrich_loop_Ok_inv in Hloop.
  apply apply_unified_tags_Forall2 in Happly.
  apply Forall_forall. intros o Ho.
  apply list_elem_of_lookup in Ho as [i Ho].
  destruct (Forall2_lookup_r _ _ _ _ _ Happly Ho) as (e & He & Hunify).
  destruct (Forall2_lookup_r _ _ _ _ _ Hloop He) as (p & _ & wa & wb & Henrich).
  destruct (enrich_post_fields _ _ _ _ _ _ Henrich)
    as (d & l0 & -> & Htext & Hlc & Hla & _).
  destruct (unify_post_NoDup _ _ _ Hunify) as (d' & l & [= <-] & -> & Hnodup).
  exists (<[k_tags := VList l]> d), l. split; [done|].
  rewrite !lookup_insert_ne by key_neq. rewrite lookup_insert_eq. done.
Qed.

Lemma process_posts_records_complete_witness :
  Forall complete_record [post_bare_tagged "Misc"].
Proof.
  apply (process_posts_records_complete stdout_utf8 llm_renames open_ok dump_ok
           (str "in") (Ok (VList [post_bare])) None w0
           [post_bare_tagged "Misc"]
           (World [ExtractPrompt (VStr (str "hello")); UnifyPrompt General] None)).
  vm_compute. reflexivity.
Defined.

(** ** Inputs that end the run *)

Lemma raised_plain e :
  e = KeyError \/ e = TypeError \/ e = AttributeError -> plain e.
Proof. unfold plain. intros [->|[->| ->]]; auto 10. Qed.

Lemma enrich_post_no_text stdout_encodes llm post w :
  (forall text, py_getitem post k_text <> Ok text) ->
  exists e, enrich_post stdout_encodes llm post w = (Raise e, w).
Proof.
  intros Hno. unfold enrich_post, bind at 1, lift at 1.
  destruct (py_getitem post k_text) as [text|e]; [by destruct (Hno text)|eauto].
Qed.

Lemma enrich_loop_bad_record stdout_encodes llm posts w post :
  post ∈ posts -> (forall text, py_getitem post k_text <> Ok text) ->
  exists e w', enrich_loop stdout_encodes llm posts w = (Raise e, w').
Proof.
  intros Hin Hno. revert w.
  induction posts as [|p posts IH]; intros w; [by apply elem_of_nil in Hin|].
  cbn [enrich_loop]. unfold bind at 1.
  destruct (enrich_post stdout_encodes llm p w) as [[o|e] w1] eqn:Hp; [|eauto].
  apply elem_of_cons in Hin as [<-|Hin].
  - destruct (enrich_post_no_text stdout_encodes llm post w Hno) as [e He].
    congruence.
  - destruct (IH Hin w1) as (e & w' & He). unfold bind. rewrite He. eauto.
Qed.

(** X12.  A top-level JSON value that is not an array ends the run with the
    empty list, before any request and with no file written, unless it is
    the empty string or the empty object: a non-empty object or string is
    iterated, and its first key or character has no [text]; null, a
    boolean or a number cannot be iterated at all.  The empty string and
    the empty object are iterated as an array without records would be:
    the run goes on to saving the empty list, and ends as saving ends, with
    an exception when saving fails with a message that cannot be
    printed. *)
Theorem process_posts_not_an_array
  (stdout_encodes : N -> bool) (llm : list prompt -> prompt -> llm_reply)
  (open_w : pystr -> result unit)
  (dump_json : pystr -> list value -> result unit)
  (raw_file_path : pystr) (v : value) (path : option pystr) (w : world) :
  (forall l, v <> VList l) ->
  (v <> VStr [] -> v <> VDict ∅ ->
   process_posts stdout_encodes llm open_w dump_json raw_file_path
     (Ok v) path w = (Ok [], w))
  /\ (v = VStr [] \/ v = VDict ∅ ->
      process_posts stdout_encodes llm open_w dump_json raw_file_path
        (Ok v) path w
      = match save stdout_encodes open_w dump_json path [] w with
        | (Ok _, w') => (Ok [], w')
        | (Raise e, w') => (reported stdout_encodes raw_file_path e, w')
        end).
Proof.
  intros Hv. split.
  - intros Hstr Hdict.
    destruct (py_iter v) as [items|e] eqn:Hiter.
    + assert (exists post rest,
                items = post :: rest
                /\ forall text, py_getitem post k_text <> Ok text)
        as (post & rest & -> & Hpost).
      { destruct v as [| | |s|l|d]; try discriminate.
        - injection Hiter as <-. destruct s as [|c s]; [done|].
          by eexists _, _.
        - by destruct (Hv l).
        - injection Hiter as <-.
          destruct (map_to_list d) as [|kv kvs] eqn:Hd.
          + apply map_to_list_empty_iff in Hd. by subst d.
          + by eexists _, _. }
      destruct (enrich_post_no_text stdout_encodes llm post w Hpost) as [e He].
      assert (enrich_loop stdout_encodes llm (post :: rest) w = (Raise e, w))
        as Hloop.
      { cbn [enrich_loop]. unfold bind at 1. by rewrite He. }
      rewrite (process_posts_loop_raises _ _ _ _ _ _ _ _ _ _ _ Hiter Hloop).
      by rewrite (reported_plain _ _ _ (raised_plain _ (enrich_loop_raises _ _ _ _ _ _ Hloop))).
    + rewrite (process_posts_iter_raises _ _ _ _ _ _ _ _ _ Hiter).
      rewrite reported_plain; [done|].
      destruct v; try discriminate; injection Hiter as <-;
        unfold plain; auto.
  - intros Hempty.
    assert (py_iter v = Ok []) as Hiter.
    { destruct Hempty as [-> | ->]; [done|]. cbn. by rewrite map_to_list_empty. }
    by rewrite (process_posts_run stdout_encodes llm open_w dump_json
                  raw_file_path v [] path w [] w (VDict ∅) w [] Hiter).
Qed.

Lemma process_posts_not_an_array_witness :
  process_posts stdout_utf8 llm_garbled open_ok dump_ok (str "in")
    (Ok post_bare) (Some (str "o")) w0
  = (Ok [], w0)
  /\ process_posts stdout_utf8 llm_garbled open_fails dump_ok (str "in")
       (Ok (VDict ∅)) (Some path_latin) w0
     = (Raise UnicodeEncodeError, w0).
Proof.
  split.
  - destruct (process_posts_not_an_array stdout_utf8 llm_garbled open_ok dump_ok
                (str "in") post_bare (Some (str "o")) w0) as [Hrun _].
    + intros l. discriminate.
    + apply Hrun.
      * discriminate.
      * intros H. apply (f_equal (fun o => match o with
                                           | VDict m => m !! k_text
                                           | _ => None
                                           end)) in H.
        vm_compute in H. discriminate.
  - destruct (process_posts_not_an_array stdout_utf8 llm_garbled open_fails
                dump_ok (str "in") (VDict ∅) (Some path_latin) w0) as [_ Hrun].
    + intros l. discriminate.
    + rewrite Hrun by (by right). reflexivity.
Defined.

(** X13.  One record that is not an object, or has no [text], ends the run for
    all of them: [process_posts] returns the empty list and writes no
    file, however many records before it were enriched. *)
Theorem process_posts_record_without_text
  (stdout_encodes : N -> bool) (llm : list prompt -> prompt -> llm_reply)
  (open_w : pystr -> result unit)
  (dump_json : pystr -> list value -> result unit)
  (raw_file_path : pystr) (posts : list value) (post : value)
  (path : option pystr) (w : world) :
  post ∈ posts ->
  (forall text, py_getitem post k_text <> Ok text) ->
  exists w',
    process_posts stdout_encodes llm open_w dump_json raw_file_path
      (Ok (VList posts)) path w = (Ok [], w')
    /\ outfile w' = outfile w.
Proof.
  intros Hin Hno.
  destruct (enrich_loop_bad_record stdout_encodes llm posts w post Hin Hno)
    as (e & w' & Hloop).
  exists w'. split.
  - rewrite (process_posts_loop_raises _ _ _ _ _ (VList posts) posts _ _ _ _
               eq_refl Hloop).
    by rewrite (reported_plain _ _ _ (raised_plain _ (enrich_loop_raises _ _ _ _ _ _ Hloop))).
  - pose proof (keeps_file_enrich_loop stdout_encodes llm posts w) as Hfile.
    by rewrite Hloop in Hfile.
Qed.

Lemma process_posts_record_without_text_witness :
  exists w',
    process_posts stdout_utf8 llm_garbled open_ok dump_ok (str "in")
      (Ok (VList [post_bare; VDict ∅])) (Some (str "o")) w0
    = (Ok [], w')
    /\ outfile w' = outfile w0.
Proof.
  apply (process_posts_record_without_text stdout_utf8 llm_garbled open_ok
           dump_ok (str "in") [post_bare; VDict ∅] (VDict ∅) (Some (str "o")) w0).
  - right. left.
  - intros text. discriminate.
Defined.

(** ** Tags that are not strings *)

Lemma str_join_not_str sep items x :
  x ∈ items -> (forall s, x <> VStr s) -> str_join sep items = Raise TypeError.
Proof.
  intros Hin Hx. induction items as [|v items IH]; [by apply elem_of_nil in Hin|].
  cbn [str_join]. destruct v as [| | |s| |]; try reflexivity.
  apply elem_of_cons in Hin as [->|Hin]; [by destruct (Hx s)|].
  destruct items as [|v' items']; [by apply elem_of_nil in Hin|].
  by rewrite IH.
Qed.

Lemma get_unified_tags_raises_on_tag
  (stdout_encodes : N -> bool) (llm : list prompt -> prompt -> llm_reply)
  (posts : list value) (w : world)
  (d : dict) (ts : list value) (t : value) :
  VDict d ∈ posts -> d !! k_tags = Some (VList ts) -> t ∈ ts ->
  (forall s, t <> VStr s) ->
  get_unified_tags stdout_encodes llm posts w = (Raise TypeError, w).
Proof.
  intros Hd Htags Ht Hnot.
  destruct (collect_unique_tags ∅ posts) as [T|e] eqn:HT.
  - destruct (collect_unique_tags_spec _ _ _ HT keyed_empty) as (Hkeyed & _ & Hin).
    destruct (Hin d ts t Hd Htags Ht) as (k & Hk & [x Hx]).
    rewrite (get_unified_tags_spec stdout_encodes llm posts w T HT).
    assert (size T <> 0%nat) as Hsize.
    { intros Hz. apply map_size_empty_inv in Hz. subst T.
      by rewrite lookup_empty in Hx. }
    apply Nat.eqb_neq in Hsize. rewrite Hsize.
    rewrite (str_join_not_str comma (set_to_list T) x); [done| |].
    + apply elem_of_set_to_list. eauto.
    + intros s ->. apply Hkeyed in Hx. cbn in Hx. injection Hx as <-.
      apply py_hash_str_inv in Hk. by destruct (Hnot s).
  - apply collect_unique_tags_raises in HT as Hty. subst e.
    unfold get_unified_tags, bind, lift. by rewrite HT.
Qed.

(** X14.  If some record has a tag that is not a string, [get_unified_tags]
    raises [TypeError] before any request is made and before anything is
    printed: a tag that cannot be hashed stops the collection, and any
    other one stops the join. *)
Theorem get_unified_tags_tag_not_str
  (stdout_encodes : N -> bool) (llm : list prompt -> prompt -> llm_reply)
  (posts : list value) (w : world)
  (d : dict) (ts : list value) (t : value) :
  VDict d ∈ posts -> d !! k_tags = Some (VList ts) -> t ∈ ts ->
  (forall s, t <> VStr s) ->
  get_unified_tags stdout_encodes llm posts w = (Raise TypeError, w).
Proof. apply get_unified_tags_raises_on_tag. Qed.

Lemma get_unified_tags_tag_not_str_witness :
  get_unified_tags stdout_utf8 llm_garbled
    [VDict (<[k_tags := VList [VStr (str "a"); VInt 7]]> ∅)] w0
  = (Raise TypeError, w0).
Proof.
  apply (get_unified_tags_tag_not_str stdout_utf8 llm_garbled
           [VDict (<[k_tags := VList [VStr (str "a"); VInt 7]]> ∅)] w0
           (<[k_tags := VList [VStr (str "a"); VInt 7]]> ∅)
           [VStr (str "a"); VInt 7] (VInt 7)).
  - left.
  - reflexivity.
  - right. left.
  - intros s. discriminate.
Defined.

(** X15.  A tag that is not a string, in one enriched record, costs the whole
    batch: [process_posts] returns the empty list and writes no file. *)
Theorem process_posts_tag_not_str
  (stdout_encodes : N -> bool) (llm : list prompt -> prompt -> llm_reply)
  (open_w : pystr -> result unit)
  (dump_json : pystr -> list value -> result unit)
  (raw_file_path : pystr)
  (posts enriched : list value) (path : option pystr) (w w1 : world)
  (d : dict) (ts : list value) (t : value) :
  enrich_loop stdout_encodes llm posts w = (Ok enriched, w1) ->
  VDict d ∈ enriched -> d !! k_tags = Some (VList ts) -> t ∈ ts ->
  (forall s, t <> VStr s) ->
  process_posts stdout_encodes llm open_w dump_json raw_file_path
    (Ok (VList posts)) path w = (Ok [], w1)
  /\ outfile w1 = outfile w.
Proof.
  intros Hloop Hd Htags Ht Hnot. split.
  - by rewrite (process_posts_unify_raises _ _ _ _ _ (VList posts) posts _ _ _ _
                  _ _ eq_refl Hloop
                  (get_unified_tags_raises_on_tag _ _ _ _ _ _ _ Hd Htags Ht Hnot)).
  - pose proof (keeps_file_enrich_loop stdout_encodes llm posts w) as Hfile.
    by rewrite Hloop in Hfile.
Qed.

Lemma process_posts_tag_not_str_witness :
  process_posts stdout_utf8 llm_numeric open_ok dump_ok (str "in")
    (Ok (VList [post_bare])) (Some (str "o")) w0
  = (Ok [], World [ExtractPrompt (VStr (str "hello"))] None).
Proof.
  apply (process_posts_tag_not_str stdout_utf8 llm_numeric open_ok dump_ok
           (str "in") [post_bare]
           [VDict (<[k_text := VStr (str "hello")]>
                     (<[k_line_count := VInt 1]>
                        (<[k_language := VStr English]>
                           (<[k_tags := VList [VInt 7]]> ∅))))]
           (Some (str "o")) w0 (World [ExtractPrompt (VStr (str "hello"))] None)
           (<[k_text := VStr (str "hello")]>
              (<[k_line_count := VInt 1]>
                 (<[k_language := VStr English]>
                    (<[k_tags := VList [VInt 7]]> ∅))))
           [VInt 7] (VInt 7)).
  - vm_compute. reflexivity.
  - left.
  - reflexivity.
  - left.
  - intros s. discriminate.
Defined.

(** ** Tags that are strings *)

Lemma str_join_strs sep items :
  Forall is_str items -> exists joined, str_join sep items = Ok joined.
Proof.
  induction 1 as [|v items [s ->] _ [joined IH]]; [by exists []|].
  cbn [str_join]. destruct items as [|v' items']; [by exists s|].
  rewrite IH. cbn [rbind]. eauto.
Qed.

Lemma is_str_hashable v : is_str v -> hashable v.
Proof. intros [s ->]. apply hashable_str. Qed.

Lemma collect_string_tagged s posts :
  Forall string_tagged posts -> keyed s ->
  map_Forall (fun _ v => is_str v) s ->
  exists T,
    collect_unique_tags s posts = Ok T /\ map_Forall (fun _ v => is_str v) T.
Proof.
  intros Hposts. revert s.
  induction Hposts as [|post posts (d & -> & Htags) _ IH]; intros s Hkeyed Hs.
  - by exists s.
  - cbn [collect_unique_tags py_contains rbind].
    destruct (bool_decide (is_Some (d !! k_tags))) eqn:Hhas; [|by apply IH].
    apply bool_decide_eq_true in Hhas as [tags Hd].
    cbn [py_getitem]. rewrite Hd. cbn [rbind].
    destruct tags as [| | | |l|]; try by apply IH.
    specialize (Htags l Hd).
    destruct (set_update_hashable s l) as [s1 Hs1].
    { eapply Forall_impl; [exact Htags|]. apply is_str_hashable. }
    rewrite Hs1. cbn [rbind].
    destruct (set_update_spec _ _ _ Hs1 Hkeyed) as (Hk1 & _ & Hfrom & _).
    apply IH; [done|]. intros k x Hx.
    destruct (Hfrom _ _ Hx) as [Hold|Hnew]; [by eapply Hs|].
    by eapply Forall_forall in Htags.
Qed.

(** The tags of string-tagged records can be collected and joined. *)
Lemma string_tagged_joined posts :
  Forall string_tagged posts ->
  exists T joined,
    collect_unique_tags ∅ posts = Ok T
    /\ str_join comma (set_to_list T) = Ok joined.
Proof.
  intros Hposts.
  destruct (collect_string_tagged ∅ posts Hposts keyed_empty) as (T & HT & Hstr).
  { intros k x Hx. by rewrite lookup_empty in Hx. }
  destruct (str_join_strs comma (set_to_list T)) as [joined Hjoin]; [|by eauto].
  apply Forall_forall. intros x [k Hx]%elem_of_set_to_list. by eapply Hstr.
Qed.

(** X16.  On records whose tags are strings the tags can be collected and
    joined, and [get_unified_tags] raises nothing but the
    [UnicodeEncodeError] of one of its prints.  With no tag at all it
    returns the empty mapping after no request.  With tags, it raises
    before any request when the joined tags cannot be printed; otherwise
    it sends exactly one request, and then returns a mapping whose values
    can be put into a set, unless the request failed with a message that
    cannot be printed. *)
Theorem get_unified_tags_string_tags
  (stdout_encodes : N -> bool) (llm : list prompt -> prompt -> llm_reply)
  (posts : list value) (w : world) :
  Forall string_tagged posts ->
  exists T joined,
    collect_unique_tags ∅ posts = Ok T
    /\ str_join comma (set_to_list T) = Ok joined
    /\ let p := UnifyPrompt joined in
       let reply := llm (llm_log w) p in
       let run := get_unified_tags stdout_encodes llm posts w in
       (size T = 0%nat -> run = (Ok (VDict ∅), w))
       /\ (size T <> 0%nat -> printable stdout_encodes joined = false ->
           run = (Raise UnicodeEncodeError, w))
       /\ (size T <> 0%nat -> printable stdout_encodes joined = true ->
           printable stdout_encodes (failure_message reply) = false ->
           run = (Raise UnicodeEncodeError, asked p w))
       /\ (size T <> 0%nat -> printable stdout_encodes joined = true ->
           printable stdout_encodes (failure_message reply) = true ->
           exists m,
             run = (Ok (VDict m), asked p w)
             /\ map_Forall (fun _ v => hashable v) m).
Proof.
  intros Hposts.
  destruct (string_tagged_joined posts Hposts) as (T & joined & HT & Hjoin).
  exists T, joined. split; [exact HT|]. split; [exact Hjoin|]. cbn zeta.
  rewrite (get_unified_tags_spec stdout_encodes llm posts w T HT), Hjoin.
  split; [by intros ->|].
  split; [|split].
  - intros Hsize%Nat.eqb_neq ->. by rewrite Hsize.
  - intros Hsize%Nat.eqb_neq -> Hmsg. rewrite Hsize. cbn zeta. by rewrite Hmsg.
  - intros Hsize%Nat.eqb_neq -> Hmsg. rewrite Hsize. cbn zeta. rewrite Hmsg.
    destruct (mapping_of_reply_hashable T (llm (llm_log w) (UnifyPrompt joined)))
      as (m & -> & Hm).
    by exists m.
Qed.

Lemma get_unified_tags_string_tags_witness :
  exists T joined,
    collect_unique_tags ∅ [tagged "p" "a"; post_bare] = Ok T
    /\ str_join comma (set_to_list T) = Ok joined
    /\ exists m,
         get_unified_tags stdout_utf8 llm_down [tagged "p" "a"; post_bare] w0
         = (Ok (VDict m), asked (UnifyPrompt joined) w0).
Proof.
  destruct (get_unified_tags_string_tags stdout_utf8 llm_down
              [tagged "p" "a"; post_bare] w0)
    as (T & joined & HT & Hjoin & _ & _ & _ & Hrun).
  - constructor; [|constructor; [|constructor]].
    + eexists. split; [reflexivity|]. intros ts Hts.
      vm_compute in Hts. injection Hts as <-.
      constructor; [by eexists | constructor].
    + eexists. split; [reflexivity|]. intros ts Hts.
      vm_compute in Hts. discriminate.
  - exists T, joined. split; [exact HT|]. split; [exact Hjoin|].
    destruct Hrun as (m & Hm & _).
    + intros Hsize. apply map_size_empty_inv in Hsize. subst T.
      vm_compute in HT. discriminate.
    + assert (joined = str "a") as ->.
      { vm_compute in HT. injection HT as <-. vm_compute in Hjoin.
        injection Hjoin as <-. reflexivity. }
      reflexivity.
    + reflexivity.
    + by exists m.
Defined.

Lemma lists_set_of_length l xs :
  lists_set_of l xs -> (length l <= length xs)%nat.
Proof.
  intros (Hnodup & Hsub & _).
  rewrite <- (length_fmap py_hash l), <- (length_fmap py_hash xs).
  apply submseteq_length, NoDup_submseteq; [done|].
  intros k (v & -> & Hv)%list_elem_of_fmap.
  apply list_elem_of_fmap. exists v. split; [done|]. by apply Hsub.
Qed.

(** X17.  The second loop never gives a record more tags than it had: the new
    list has one member for each distinct mapped tag. *)
Theorem unify_post_not_more_tags (m d : dict) (ts : list value) :
  map_Forall (fun _ v => hashable v) m ->
  d !! k_tags = Some (VList ts) -> Forall hashable ts ->
  exists l,
    unify_post (VDict m) (VDict d) = Ok (VDict (<[k_tags := VList l]> d))
    /\ (length l <= length ts)%nat.
Proof.
  intros Hm Htags Hts.
  destruct (unify_post_spec m d ts Hm Htags Hts) as (l & Hpost & Hl).
  exists l. split; [exact Hpost|].
  apply lists_set_of_length in Hl. by rewrite length_fmap in Hl.
Qed.

Lemma unify_post_not_more_tags_witness :
  exists l,
    unify_post (VDict (<[str "a" := VStr (str "c")]> (<[str "b" := VStr (str "c")]> ∅)))
      (VDict (<[k_tags := VList [VStr (str "a"); VStr (str "b")]]> ∅))
    = Ok (VDict (<[k_tags := VList l]>
                   (<[k_tags := VList [VStr (str "a"); VStr (str "b")]]> ∅)))
    /\ (length l <= 2)%nat.
Proof.
  apply (unify_post_not_more_tags
           (<[str "a" := VStr (str "c")]> (<[str "b" := VStr (str "c")]> ∅))
           (<[k_tags := VList [VStr (str "a"); VStr (str "b")]]> ∅)
           [VStr (str "a"); VStr (str "b")]).
  - intros key v Hv. revert Hv. rewrite !lookup_insert_Some, lookup_empty.
    intros [[_ <-]|[_ [[_ <-]|[_ ?]]]]; try done; apply hashable_str.
  - reflexivity.
  - repeat constructor; apply hashable_str.
Defined.

(** ** Runs on well-formed records *)

Section WellFormedRun.
Variable stdout_encodes : N -> bool.
Variable llm : list prompt -> prompt -> llm_reply.

Lemma enriched_record_string_tags d cleaned h p :
  sends_string_tags llm ->
  exists ts,
    enriched_record d cleaned (llm h p) !! k_tags = Some (VList ts)
    /\ Forall is_str ts.
Proof.
  intros Hllm. unfold enriched_record.
  destruct (accepted_metadata (llm h p)) as [m|] eqn:Hacc; cbn [from_option id].
  - destruct (Hllm h p m Hacc) as (ts & Hts & Hstr).
    exists ts. split; [by apply lookup_union_Some_l | done].
  - exists [VStr General]. split.
    + apply lookup_union_Some_l. apply default_metadata_lookup.
    + constructor; [by eexists | constructor].
Qed.

Lemma enriched_records_string_tags log posts :
  Forall well_formed_record posts -> sends_string_tags llm ->
  Forall (fun post =>
            exists d ts,
              post = VDict d /\ d !! k_tags = Some (VList ts)
              /\ Forall is_str ts) (enriched_records llm log posts).
Proof.
  intros Hwf Hllm. revert log.
  induction Hwf as [|post posts (d & text & -> & Htext & _) _ IH]; intros log;
    cbn [enriched_records]; constructor; [|apply IH].
  cbn [enriched_post record_prompt]. rewrite Htext.
  destruct (enriched_record_string_tags d (sanitized text) log
              (ExtractPrompt (VStr (sanitized text))) Hllm) as (ts & Hts & Hstr).
  by eexists _, ts.
Qed.

(** What a run on well-formed records comes to before the result is
    saved, when the service sends strings for tags and everything can be
    printed. *)
Lemma well_formed_run posts w :
  Forall well_formed_record posts -> sends_string_tags llm ->
  (forall c, stdout_encodes c = true) ->
  exists enriched unified_tags out unify_requests,
    let w1 := World (llm_log w ++ (record_prompt <$> posts)) (outfile w) in
    let w2 := World (llm_log w1 ++ unify_requests) (outfile w) in
    enrich_loop stdout_encodes llm posts w = (Ok enriched, w1)
    /\ get_unified_tags stdout_encodes llm enriched w1 = (Ok unified_tags, w2)
    /\ apply_unified_tags unified_tags enriched = Ok out
    /\ length out = length posts
    /\ (length unify_requests <= 1)%nat.
Proof.
  intros Hwf Hllm Hstdout.
  pose proof (enrich_loop_enriched stdout_encodes llm posts w Hwf) as Hloop.
  pose proof (enriched_records_string_tags (llm_log w) posts Hwf Hllm) as Htagged.
  set (enriched := enriched_records llm (llm_log w) posts) in *.
  set (w1 := World (llm_log w ++ (record_prompt <$> posts)) (outfile w)) in *.
  assert (exists m w2 requests,
            get_unified_tags stdout_encodes llm enriched w1 = (Ok (VDict m), w2)
            /\ map_Forall (fun _ v => hashable v) m
            /\ w2 = World (llm_log w1 ++ requests) (outfile w)
            /\ (length requests <= 1)%nat) as (m & w2 & rq & Hunify & Hm & -> & Hrq).
  { destruct (collect_string_tagged ∅ enriched) as (T & HT & Hstr).
    - eapply Forall_impl; [exact Htagged|].
      intros post (d & ts & -> & Hts & Hstr). exists d. split; [done|].
      intros ts' Hts'. congruence.
    - apply keyed_empty.
    - intros k x Hx. by rewrite lookup_empty in Hx.
    - rewrite (get_unified_tags_spec stdout_encodes llm enriched w1 T HT).
      destruct (Nat.eqb (size T) 0).
      { exists ∅, w1, []. split; [done|]. split.
        - intros k x Hx. by rewrite lookup_empty in Hx.
        - split; [|cbn; lia]. by rewrite app_nil_r. }
      destruct (str_join_strs comma (set_to_list T)) as [joined ->].
      { apply Forall_forall. intros x [k Hx]%elem_of_set_to_list.
        by eapply Hstr. }
      rewrite !printable_total by done. cbn zeta.
      rewrite printable_total by done.
      destruct (mapping_of_reply_hashable T
                  (llm (llm_log w1) (UnifyPrompt joined))) as (m & -> & Hm).
      exists m, (asked (UnifyPrompt joined) w1), [UnifyPrompt joined].
      split; [done|]. split; [done|]. split; [done | cbn; lia]. }
  destruct (apply_unified_tags_unified m enriched Hm) as (out & Hout & Hrel).
  { eapply Forall_impl; [exact Htagged|].
    intros post (d & ts & -> & Hts & Hstr). exists d, ts.
    split; [done|]. split; [done|].
    eapply Forall_impl; [exact Hstr|]. apply is_str_hashable. }
  exists enriched, (VDict m), out, rq. cbn zeta.
  split; [done|]. split; [done|]. split; [done|]. split; [|done].
  rewrite <- (Forall2_length _ _ _ Hrel). apply length_enriched_records.
Qed.

End WellFormedRun.

(** X18.  No record is dropped on a run that goes through: on well-formed
    records, with a service that sends strings for tags, a standard output
    that can print everything and a file that can be opened and written,
    [process_posts] returns one record for each input record, after one
    request for each record and at most one more for the tags; when a
    non-empty path is given the file holds the text of the returned
    list. *)
Theorem process_posts_no_record_dropped
  (stdout_encodes : N -> bool) (llm : list prompt -> prompt -> llm_reply)
  (open_w : pystr -> result unit)
  (dump_json : pystr -> list value -> result unit)
  (raw_file_path : pystr) (posts : list value) (path : option pystr)
  (w : world) :
  Forall well_formed_record posts -> sends_string_tags llm ->
  (forall c, stdout_encodes c = true) ->
  (forall p data,
     path = Some p -> open_w p = Ok tt /\ dump_json p data = Ok tt) ->
  exists out unify_requests,
    process_posts stdout_encodes llm open_w dump_json raw_file_path
      (Ok (VList posts)) path w
    = (Ok out,
       World (llm_log w ++ (record_prompt <$> posts) ++ unify_requests)
         (match path with
          | Some p => if truthy (VStr p) then Some (p, Dumped out) else outfile w
          | None => outfile w
          end))
    /\ length out = length posts
    /\ (length unify_requests <= 1)%nat.
Proof.
  intros Hwf Hllm Hstdout Hfile.
  destruct (well_formed_run stdout_encodes llm posts w Hwf Hllm Hstdout)
    as (enriched & u & out & rq & Hloop & Hunify & Happly & Hlen & Hrq).
  exists out, rq. split; [|done].
  rewrite (process_posts_run stdout_encodes llm open_w dump_json raw_file_path
             (VList posts) posts path w _ _ _ _ out eq_refl Hloop Hunify Happly).
  rewrite save_spec. cbn [llm_log outfile]. rewrite <- app_assoc.
  destruct path as [p|]; [|done].
  destruct (truthy (VStr p)); [|done].
  destruct (Hfile p out eq_refl) as [-> ->]. cbn zeta.
  by rewrite printable_total.
Qed.

Lemma llm_tags_sends_string_tags : sends_string_tags llm_tags.
Proof.
  intros h p m Hacc. destruct p as [post|tags].
  - cbn in Hacc. injection Hacc as <-.
    exists [VStr (str "a"); VStr (str "b")]. split; [by vm_compute|].
    repeat (constructor; [by eexists|]). constructor.
  - cbn [llm_tags accepted_metadata] in Hacc.
    by vm_compute in Hacc.
Qed.

Lemma process_posts_no_record_dropped_witness :
  exists (out : list value) (unify_requests : list prompt),
    (process_posts stdout_escaping llm_tags open_ok dump_ok (str "in")
       (Ok (VList [post_bare; post_bare])) (Some (str "o")) w0).1 = Ok out
    /\ length out = 2%nat
    /\ (length unify_requests <= 1)%nat.
Proof.
  destruct (process_posts_no_record_dropped stdout_escaping llm_tags open_ok
              dump_ok (str "in") [post_bare; post_bare] (Some (str "o")) w0)
    as (out & rq & Hrun & Hlen & Hrq).
  - repeat (constructor;
            [eexists _, (str "hello"); split; [reflexivity|];
             split; [reflexivity | literal_valid]|]).
    constructor.
  - exact llm_tags_sends_string_tags.
  - reflexivity.
  - intros p data _. by split.
  - exists out, rq. rewrite Hrun. by split.
Defined.



(** X20.  The file and the result.  Whatever the input, the service, the file
    system and the standard output do, when [process_posts] is done either
    the output file was not opened, or it was opened at the given
    non-empty path and then: the dump failed, the file holds an unfinished
    text, and the empty list is returned or the exception of a print is
    raised; or the dump went through, the file holds the text of a list,
    and that list is returned, unless the path could not be printed, in
    which case the empty list is returned. *)
Theorem process_posts_file_and_result
  (stdout_encodes : N -> bool) (llm : list prompt -> prompt -> llm_reply)
  (open_w : pystr -> result unit)
  (dump_json : pystr -> list value -> result unit)
  (raw_file_path : pystr) (raw_file : result value) (path : option pystr)
  (w : world) (r : result (list value)) (w' : world) :
  process_posts stdout_encodes llm open_w dump_json raw_file_path
    raw_file path w = (r, w') ->
  outfile w' = outfile w
  \/ exists p,
       path = Some p /\ p <> [] /\ open_w p = Ok tt
       /\ ((outfile w' = Some (p, Unfinished)
            /\ (r = Ok [] \/ r = Raise UnicodeEncodeError))
           \/ exists out,
                dump_json p out = Ok tt
                /\ outfile w' = Some (p, Dumped out)
                /\ (r = Ok out
                    \/ (r = Ok [] /\ printable stdout_encodes p = false))).
Proof.
  intros H.
  destruct raw_file as [v|e].
  2:{ rewrite process_posts_load_raises in H. injection H as _ <-. by left. }
  destruct (py_iter v) as [items|e] eqn:Hiter.
  2:{ rewrite (process_posts_iter_raises _ _ _ _ _ _ _ _ _ Hiter) in H.
      injection H as _ <-. by left. }
  pose proof (keeps_file_enrich_loop stdout_encodes llm items w) as Hf1.
  destruct (enrich_loop stdout_encodes llm items w) as [[enriched|e] w1] eqn:Hloop;
    cbn [snd] in Hf1.
  2:{ rewrite (process_posts_loop_raises _ _ _ _ _ _ _ _ _ _ _ Hiter Hloop) in H.
      injection H as _ <-. by left. }
  pose proof (keeps_file_get_unified_tags stdout_encodes llm enriched w1) as Hf2.
  destruct (get_unified_tags stdout_encodes llm enriched w1) as [[u|e] w2] eqn:Hunify;
    cbn [snd] in Hf2.
  2:{ rewrite (process_posts_unify_raises _ _ _ _ _ _ _ _ _ _ _ _ _ Hiter Hloop
                 Hunify) in H.
      injection H as _ <-. left. congruence. }
  destruct (apply_unified_tags u enriched) as [out|e] eqn:Happly.
  2:{ rewrite (process_posts_apply_raises _ _ _ _ _ _ _ _ _ _ _ _ _ _ Hiter Hloop
                 Hunify Happly) in H.
      injection H as _ <-. left. congruence. }
  rewrite (process_posts_run _ _ _ _ _ _ _ _ _ _ _ _ _ _ Hiter Hloop Hunify
             Happly) in H.
  rewrite save_spec in H.
  destruct path as [p|]; [|injection H as _ <-; left; congruence].
  destruct (truthy (VStr p)) eqn:Hp; [|injection H as _ <-; left; congruence].
  assert (p <> []) as Hne by (intros ->; discriminate).
  destruct (open_w p) as [[]|e] eqn:Hopen;
    [|injection H as _ <-; left; congruence].
  right. exists p. split; [done|]. split; [done|]. split; [done|].
  cbn zeta in H.
  destruct (dump_json p out) as [[]|e] eqn:Hdump.
  - right. exists out. split; [done|].
    destruct (printable stdout_encodes p) eqn:Hprint.
    + injection H as <- <-. split; [done|]. by left.
    + rewrite reported_plain in H by (unfold plain; auto 10).
      injection H as <- <-. split; [done|]. by right.
  - left. injection H as <- <-. split; [done|]. apply reported_cases.
Qed.

Lemma process_posts_file_and_result_witness :
  outfile (World [ExtractPrompt (VStr (str "hello")); UnifyPrompt General]
             (Some (str "o", Dumped [post_bare_defaulted])))
  = outfile w0
  \/ exists p,
       Some (str "o") = Some p /\ p <> [] /\ open_ok p = Ok tt
       /\ ((outfile (World [ExtractPrompt (VStr (str "hello")); UnifyPrompt General]
                       (Some (str "o", Dumped [post_bare_defaulted])))
            = Some (p, Unfinished)
            /\ (Ok [post_bare_defaulted] = Ok []
                \/ Ok [post_bare_defaulted] = Raise UnicodeEncodeError))
           \/ exists out,
                dump_ok p out = Ok tt
                /\ outfile (World [ExtractPrompt (VStr (str "hello"));
                                   UnifyPrompt General]
                              (Some (str "o", Dumped [post_bare_defaulted])))
                   = Some (p, Dumped out)
                /\ (Ok [post_bare_defaulted] = Ok out
                    \/ (Ok [post_bare_defaulted] = Ok []
                        /\ printable stdout_utf8 p = false))).
Proof.
  apply (process_posts_file_and_result stdout_utf8 llm_garbled open_ok dump_ok
           (str "in") (Ok (VList [post_bare])) (Some (str "o")) w0).
  vm_compute. reflexivity.
Defined.

(** ** A text that is not a string *)

(** X21.  A record whose [text] is not a string is enriched only if the service
    answers with an accepted object: the text is then left as it is.  When
    extraction fails instead, the fallback itself raises [AttributeError],
    because it splits the text, and the loop stops. *)
Theorem enrich_post_text_not_str
  (stdout_encodes : N -> bool) (llm : list prompt -> prompt -> llm_reply)
  (d : dict) (text : value) (w : world) :
  d !! k_text = Some text -> (forall s, text <> VStr s) ->
  let reply := llm (llm_log w) (ExtractPrompt text) in
  let w' := World (llm_log w ++ [ExtractPrompt text]) (outfile w) in
  (accepted_metadata reply = None ->
   enrich_post stdout_encodes llm (VDict d) w = (Raise AttributeError, w'))
  /\ (forall m,
        accepted_metadata reply = Some m ->
        enrich_post stdout_encodes llm (VDict d) w
        = (Ok (VDict (m ∪ <[k_text := text]> d)), w')).
Proof.
  intros Htext Hnot reply w'. subst reply w'.
  assert (clean_unicode_text text = Ok text) as Hclean.
  { destruct text as [| | |s| |]; try reflexivity. by destruct (Hnot s). }
  assert (py_split_lines text = Raise AttributeError) as Hsplit.
  { destruct text as [| | |s| |]; try reflexivity. by destruct (Hnot s). }
  assert (set_defaults (VDict (<[k_text := text]> d)) text
          = Raise AttributeError) as Hdefaults.
  { unfold set_defaults. by rewrite Hsplit. }
  assert (enrich_post stdout_encodes llm (VDict d) w
          = match accepted_metadata (llm (llm_log w) (ExtractPrompt text)) with
            | Some m =>
                (Ok (VDict (m ∪ <[k_text := text]> d)),
                 World (llm_log w ++ [ExtractPrompt text]) (outfile w))
            | None =>
                (Raise AttributeError,
                 World (llm_log w ++ [ExtractPrompt text]) (outfile w))
            end) as Hpost.
  { unfold enrich_post.
    rewrite (bind_Ok _ _ w text w) by (unfold lift; cbn; by rewrite Htext).
    rewrite (bind_Ok _ _ w text w) by (unfold lift; by rewrite Hclean).
    rewrite (bind_Ok _ _ w (VDict (<[k_text := text]> d)) w) by done.
    unfold catch, bind at 1.
    destruct (accepted_metadata (llm (llm_log w) (ExtractPrompt text)))
      as [m|] eqn:Hacc.
    - rewrite (extract_metadata_spec stdout_encodes llm text text w Hclean).
      cbn zeta. by rewrite Hacc.
    - destruct (extract_metadata_rejects stdout_encodes llm text text w Hclean
                  Hacc) as (r & -> & [(e & -> & _) | ->]);
        rewrite ?Hsplit; cbn [rbind]; unfold lift; by rewrite Hdefaults. }
  rewrite Hpost. split; [by intros ->|by intros m ->].
Qed.

Lemma enrich_post_text_not_str_witness :
  enrich_post stdout_utf8 llm_garbled (VDict (<[k_text := VInt 5]> ∅)) w0
  = (Raise AttributeError, World [ExtractPrompt (VInt 5)] None).
Proof.
  destruct (enrich_post_text_not_str stdout_utf8 llm_garbled
              (<[k_text := VInt 5]> ∅) (VInt 5) w0) as [Hfails _].
  - reflexivity.
  - intros s. discriminate.
  - apply Hfails. reflexivity.
Defined.

(** ** What the prints decide *)

(** X22.  When the unification request fails, by an exception of the call
    or by a response that does not parse (or that parses to something line
    170 cannot handle), and the standard output can print the joined tags
    and the message of the failure, [get_unified_tags] returns the
    identity mapping over the collected tags: every collected tag maps to
    itself.  Applying it leaves every record with the same set of tags. *)
Theorem unification_failure_identity
  (stdout_encodes : N -> bool) (llm : list prompt -> prompt -> llm_reply)
  (posts : list value) (w : world) (T : pyset) (joined : pystr) :
  collect_unique_tags ∅ posts = Ok T ->
  str_join comma (set_to_list T) = Ok joined ->
  printable stdout_encodes joined = true ->
  unification_fails (llm (llm_log w) (UnifyPrompt joined)) ->
  printable stdout_encodes
    (failure_message (llm (llm_log w) (UnifyPrompt joined))) = true ->
  (get_unified_tags stdout_encodes llm posts w).1
  = Ok (VDict (identity_mapping T))
  /\ (forall tag,
        tag ∈ set_to_list T ->
        exists s, tag = VStr s /\ identity_mapping T !! s = Some tag)
  /\ (forall d ts,
        VDict d ∈ posts -> d !! k_tags = Some (VList ts) ->
        exists l,
          unify_post (VDict (identity_mapping T)) (VDict d)
          = Ok (VDict (<[k_tags := VList l]> d))
          /\ NoDup l /\ forall v, v ∈ l <-> v ∈ ts).
Proof.
  intros HT Hjoin Hprint Hfails Hmsg.
  pose proof (str_join_Ok_inv _ _ _ Hjoin) as Hstr.
  destruct (collect_unique_tags_spec _ _ _ HT keyed_empty) as (Hkeyed & _ & Hin).
  split; [|split].
  - rewrite (get_unified_tags_spec stdout_encodes llm posts w T HT).
    destruct (Nat.eqb (size T) 0) eqn:Hsize.
    + apply Nat.eqb_eq, map_size_empty_inv in Hsize. subst T.
      unfold identity_mapping. by rewrite set_to_list_empty.
    + rewrite Hjoin, Hprint. cbn zeta. rewrite Hmsg. cbn [fst].
      by rewrite mapping_of_reply_fails.
  - intros tag Htag.
    destruct (proj1 (Forall_forall _ _) Hstr tag Htag) as [s ->].
    exists s. split; [done|]. by apply identity_mapping_member.
  - intros d ts Hd Htags.
    assert (Forall (fun t => exists s, t = VStr s) ts) as Hts.
    { apply Forall_forall. intros t Ht.
      destruct (Hin d ts t Hd Htags Ht) as (k & Hk & [x Hx]).
      assert (x ∈ set_to_list T) as Hxin by (apply elem_of_set_to_list; eauto).
      destruct (proj1 (Forall_forall _ _) Hstr x Hxin) as [s ->].
      apply Hkeyed in Hx. cbn in Hx. injection Hx as <-.
      exists s. by apply py_hash_str_inv. }
    destruct (unify_post_spec (identity_mapping T) d ts) as (l & Hpost & Hl);
      [apply identity_mapping_hashable | done | |].
    { eapply Forall_impl; [exact Hts|]. intros t [s ->]. apply hashable_str. }
    exists l. split; [exact Hpost|].
    apply lists_set_of_strings; [done|].
    assert (mapping_get (identity_mapping T) <$> ts = ts) as Hsame.
    { clear -Hts. induction Hts as [|t ts [s ->] _ IH]; [done|].
      cbn [fmap list_fmap]. rewrite identity_mapping_get. f_equal. exact IH. }
    by rewrite Hsame in Hl.
Qed.

Lemma unification_failure_identity_witness :
  exists T,
    collect_unique_tags ∅ [tagged "p" "a"; tagged "q" "b"] = Ok T
    /\ (get_unified_tags stdout_utf8 llm_garbled
          [tagged "p" "a"; tagged "q" "b"] w0).1
       = Ok (VDict (identity_mapping T)).
Proof.
  let r := eval vm_compute in
             (collect_unique_tags ∅ [tagged "p" "a"; tagged "q" "b"]) in
  lazymatch r with
  | Ok ?T =>
      let j := eval vm_compute in (str_join comma (set_to_list T)) in
      lazymatch j with
      | Ok ?joined =>
          exists T; split; [vm_compute; reflexivity|];
          apply (unification_failure_identity stdout_utf8 llm_garbled
                   [tagged "p" "a"; tagged "q" "b"] w0 T joined);
          [ vm_compute; reflexivity | vm_compute; reflexivity
          | vm_compute; reflexivity
          | apply unify_unparseable | vm_compute; reflexivity ]
      end
  end.
Defined.

(** X23.  When the input file cannot be opened or its content is not JSON,
    and the standard output can print the path of the file,
    [process_posts] raises nothing and returns the empty list; so it does
    when loading raises anything else whose message can be printed.  No
    request is sent and no file is written: the world is as before. *)
Theorem file_errors_give_empty
  (stdout_encodes : N -> bool) (llm : list prompt -> prompt -> llm_reply)
  (open_w : pystr -> result unit)
  (dump_json : pystr -> list value -> result unit)
  (raw_file_path : pystr) (path : option pystr) (w : world) :
  (printable stdout_encodes raw_file_path = true ->
   process_posts stdout_encodes llm open_w dump_json raw_file_path
     (Raise FileNotFoundError) path w = (Ok [], w)
   /\ process_posts stdout_encodes llm open_w dump_json raw_file_path
        (Raise JSONDecodeError) path w = (Ok [], w))
  /\ (forall e,
        e <> FileNotFoundError -> e <> JSONDecodeError ->
        printable stdout_encodes (message e) = true ->
        process_posts stdout_encodes llm open_w dump_json raw_file_path
          (Raise e) path w = (Ok [], w)).
Proof.
  split.
  - intros Hpath. rewrite !process_posts_load_raises. unfold reported.
    by rewrite Hpath.
  - intros e Hfnf Hjson Hmsg. rewrite process_posts_load_raises.
    unfold reported. destruct e; try done; by rewrite Hmsg.
Qed.

Lemma file_errors_give_empty_witness :
  process_posts stdout_utf8 llm_garbled open_ok dump_ok (str "raw.json")
    (Raise FileNotFoundError) (Some (str "o")) w0 = (Ok [], w0).
Proof.
  destruct (file_errors_give_empty stdout_utf8 llm_garbled open_ok dump_ok
              (str "raw.json") (Some (str "o")) w0) as [Hfile _].
  destruct Hfile as [Hmissing _]; [reflexivity|]. exact Hmissing.
Defined.

(** X24.  Tags that cannot be printed cost the whole batch: when the first
    loop has returned records whose tags, joined, hold a code point the
    standard output cannot encode, the print of line 145 raises before the
    request is made; [process_posts] returns the empty list, having sent
    no unification request and written no file. *)
Theorem process_posts_tags_not_printed
  (stdout_encodes : N -> bool) (llm : list prompt -> prompt -> llm_reply)
  (open_w : pystr -> result unit)
  (dump_json : pystr -> list value -> result unit)
  (raw_file_path : pystr) (posts enriched : list value)
  (path : option pystr) (w w1 : world) (T : pyset) (joined : pystr) :
  enrich_loop stdout_encodes llm posts w = (Ok enriched, w1) ->
  collect_unique_tags ∅ enriched = Ok T -> size T <> 0%nat ->
  str_join comma (set_to_list T) = Ok joined ->
  printable stdout_encodes joined = false ->
  get_unified_tags stdout_encodes llm enriched w1
  = (Raise UnicodeEncodeError, w1)
  /\ process_posts stdout_encodes llm open_w dump_json raw_file_path
       (Ok (VList posts)) path w = (Ok [], w1)
  /\ outfile w1 = outfile w.
Proof.
  intros Hloop HT Hsize%Nat.eqb_neq Hjoin Hprint.
  assert (get_unified_tags stdout_encodes llm enriched w1
          = (Raise UnicodeEncodeError, w1)) as Hunify.
  { rewrite (get_unified_tags_spec stdout_encodes llm enriched w1 T HT).
    by rewrite Hsize, Hjoin, Hprint. }
  split; [exact Hunify|]. split.
  - by rewrite (process_posts_unify_raises _ _ _ _ _ (VList posts) posts _ _ _ _
                  _ _ eq_refl Hloop Hunify).
  - pose proof (keeps_file_enrich_loop stdout_encodes llm posts w) as Hfile.
    by rewrite Hloop in Hfile.
Qed.

Lemma process_posts_tags_not_printed_witness :
  process_posts stdout_utf8 llm_tag_surrogate open_ok dump_ok (str "in")
    (Ok (VList [post_bare])) (Some (str "o")) w0
  = (Ok [], World [ExtractPrompt (VStr (str "hello"))] None).
Proof.
  let r := eval vm_compute in
             (enrich_loop stdout_utf8 llm_tag_surrogate [post_bare] w0) in
  lazymatch r with
  | (Ok ?enriched, ?w1) =>
      let t := eval vm_compute in (collect_unique_tags ∅ enriched) in
      lazymatch t with
      | Ok ?T =>
          destruct (process_posts_tags_not_printed stdout_utf8 llm_tag_surrogate
                      open_ok dump_ok (str "in") [post_bare] enriched
                      (Some (str "o")) w0 w1 T [0xD800])
            as (_ & Hrun & _);
          [ vm_compute; reflexivity | vm_compute; reflexivity
          | vm_compute; discriminate | vm_compute; reflexivity
          | vm_compute; reflexivity | exact Hrun ]
      end
  end.
Defined.

(** X25.  What the standard output can print has no bearing on the first
    loop: on well-formed records it returns the same records and sends the
    same requests on every standard output, because the handler of line
    49 catches what the prints of [extract_metadata] raise and the
    defaults it writes are those [extract_metadata] would have
    returned. *)
Theorem enrich_loop_ignores_stdout
  (stdout1 stdout2 : N -> bool) (llm : list prompt -> prompt -> llm_reply)
  (posts : list value) (w : world) :
  Forall well_formed_record posts ->
  enrich_loop stdout1 llm posts w = enrich_loop stdout2 llm posts w.
Proof. intros Hwf. by rewrite !enrich_loop_enriched. Qed.

Lemma enrich_loop_ignores_stdout_witness :
  enrich_loop stdout_utf8 llm_garbled_surrogate [post_bare] w0
  = enrich_loop stdout_escaping llm_garbled_surrogate [post_bare] w0.
Proof.
  apply (enrich_loop_ignores_stdout stdout_utf8 stdout_escaping
           llm_garbled_surrogate [post_bare] w0).
  repeat constructor. exact well_formed_post_bare.
Defined.

(** X26.  A path that cannot be printed loses the result after it was
    written: when the loops and the unifier went through and the file at
    the non-empty path was opened and dumped, but the standard output
    cannot encode the path, the print of line 70 raises, the handler of
    line 80 takes over, and [process_posts] returns the empty list while
    the file holds the text of the records. *)
Theorem process_posts_path_not_printed
  (stdout_encodes : N -> bool) (llm : list prompt -> prompt -> llm_reply)
  (open_w : pystr -> result unit)
  (dump_json : pystr -> list value -> result unit)
  (raw_file_path : pystr) (posts enriched out : list value) (p : pystr)
  (w w1 w2 : world) (u : value) :
  enrich_loop stdout_encodes llm posts w = (Ok enriched, w1) ->
  get_unified_tags stdout_encodes llm enriched w1 = (Ok u, w2) ->
  apply_unified_tags u enriched = Ok out ->
  open_w p = Ok tt -> dump_json p out = Ok tt ->
  printable stdout_encodes p = false ->
  process_posts stdout_encodes llm open_w dump_json raw_file_path
    (Ok (VList posts)) (Some p) w
  = (Ok [], World (llm_log w2) (Some (p, Dumped out))).
Proof.
  intros Hloop Hunify Happly Hopen Hdump Hprint.
  rewrite (process_posts_run stdout_encodes llm open_w dump_json raw_file_path
             (VList posts) posts (Some p) w _ _ _ _ out eq_refl Hloop Hunify
             Happly).
  rewrite save_spec.
  assert (truthy (VStr p) = true) as ->.
  { destruct p; [discriminate Hprint | done]. }
  by rewrite Hopen, Hdump, Hprint.
Qed.

Lemma process_posts_path_not_printed_witness :
  exists out w2,
    process_posts stdout_utf8 llm_tags open_ok dump_ok (str "in")
      (Ok (VList [post_bare])) (Some path_latin) w0
    = (Ok [], World (llm_log w2) (Some (path_latin, Dumped out)))
    /\ length out = 1%nat.
Proof.
  let r := eval vm_compute in (enrich_loop stdout_utf8 llm_tags [post_bare] w0) in
  lazymatch r with
  | (Ok ?enriched, ?w1) =>
      let g := eval vm_compute in
                 (get_unified_tags stdout_utf8 llm_tags enriched w1) in
      lazymatch g with
      | (Ok ?u, ?w2) =>
          let a := eval vm_compute in (apply_unified_tags u enriched) in
          lazymatch a with
          | Ok ?out =>
              exists out, w2; split; [|reflexivity];
              apply (process_posts_path_not_printed stdout_utf8 llm_tags open_ok
                       dump_ok (str "in") [post_bare] enriched out path_latin
                       w0 w1 w2 u);
              [ vm_compute; reflexivity | vm_compute; reflexivity
              | vm_compute; reflexivity | reflexivity | reflexivity
              | vm_compute; reflexivity ]
          end
      end
  end.
Defined.

(** ** What leaves [process_posts] *)

Section Outcomes.
Variable stdout_encodes : N -> bool.
Variable llm : list prompt -> prompt -> llm_reply.
Variable open_w : pystr -> result unit.
Variable dump_json : pystr -> list value -> result unit.
Variable raw_file_path : pystr.

(** [process_posts] returns its records, or ends in a handler.  When the
    file was loaded and the exception does not come from saving, its
    message is ASCII. *)
Lemma process_posts_cases raw_file path w :
  exists w',
    (exists out,
       process_posts stdout_encodes llm open_w dump_json raw_file_path
         raw_file path w = (Ok out, w'))
    \/ exists e,
         process_posts stdout_encodes llm open_w dump_json raw_file_path
           raw_file path w = (reported stdout_encodes raw_file_path e, w')
         /\ ((exists v, raw_file = Ok v) -> path = None -> plain e).
Proof.
  destruct raw_file as [v|e].
  2:{ exists w. right. exists e. split; [apply process_posts_load_raises|].
      by intros [v ?]. }
  destruct (py_iter v) as [items|e] eqn:Hiter.
  2:{ exists w. right. exists e.
      split; [by apply process_posts_iter_raises|]. intros _ _.
      destruct v; try discriminate; injection Hiter as <-; unfold plain; auto. }
  destruct (enrich_loop stdout_encodes llm items w) as [[enriched|e] w1] eqn:Hloop.
  2:{ exists w1. right. exists e.
      split; [by eapply process_posts_loop_raises|]. intros _ _.
      by eapply raised_plain, enrich_loop_raises. }
  destruct (get_unified_tags stdout_encodes llm enriched w1) as [[u|e] w2] eqn:Hunify.
  2:{ exists w2. right. exists e.
      split; [by eapply process_posts_unify_raises|]. intros _ _.
      destruct (get_unified_tags_raises _ _ _ _ _ _ Hunify) as [-> | ->];
        unfold plain; auto 10. }
  destruct (apply_unified_tags u enriched) as [out|e] eqn:Happly.
  2:{ exists w2. right. exists e.
      split; [by eapply process_posts_apply_raises|]. intros _ _.
      destruct (apply_unified_tags_raises _ _ _ Happly) as [-> | ->];
        unfold plain; auto 10. }
  rewrite (process_posts_run _ _ _ _ _ _ _ _ _ _ _ _ _ _ Hiter Hloop Hunify
             Happly).
  destruct (save stdout_encodes open_w dump_json path out w2)
    as [[[]|e] w3] eqn:Hsave.
  - exists w3. left. by exists out.
  - exists w3. right. exists e. split; [done|]. intros _ ->. discriminate.
Qed.

End Outcomes.

(** X27.  The only exception that leaves [process_posts] is the
    [UnicodeEncodeError] of the print in one of its three handlers:
    whatever else is raised inside is caught and turned into the empty
    list. *)
Theorem process_posts_raises_only_print
  (stdout_encodes : N -> bool) (llm : list prompt -> prompt -> llm_reply)
  (open_w : pystr -> result unit)
  (dump_json : pystr -> list value -> result unit)
  (raw_file_path : pystr) (raw_file : result value) (path : option pystr)
  (w : world) (e : exn) (w' : world) :
  process_posts stdout_encodes llm open_w dump_json raw_file_path
    raw_file path w = (Raise e, w') ->
  e = UnicodeEncodeError.
Proof.
  intros H.
  destruct (process_posts_cases stdout_encodes llm open_w dump_json raw_file_path
              raw_file path w) as (w1 & [[out Hout] | (e1 & He1 & _)]).
  - congruence.
  - rewrite He1 in H.
    destruct (reported_cases stdout_encodes raw_file_path e1) as [Hr|Hr];
      rewrite Hr in H; congruence.
Qed.

Lemma process_posts_raises_only_print_witness :
  process_posts stdout_utf8 llm_garbled open_ok dump_ok path_latin
    (Raise JSONDecodeError) None w0
  = (Raise UnicodeEncodeError, w0).
Proof.
  destruct (process_posts stdout_utf8 llm_garbled open_ok dump_ok path_latin
              (Raise JSONDecodeError) None w0) as [[out|e] w'] eqn:Hrun.
  - vm_compute in Hrun. discriminate.
  - rewrite (process_posts_raises_only_print stdout_utf8 llm_garbled open_ok
               dump_ok path_latin (Raise JSONDecodeError) None w0 e w' Hrun).
    vm_compute in Hrun. by injection Hrun as _ <-.
Defined.

(** X28.  On a standard output that can print everything no exception
    leaves [process_posts], whatever the input file holds and whatever the
    service and the file system do. *)
Theorem process_posts_never_raises
  (stdout_encodes : N -> bool) (llm : list prompt -> prompt -> llm_reply)
  (open_w : pystr -> result unit)
  (dump_json : pystr -> list value -> result unit)
  (raw_file_path : pystr) (raw_file : result value) (path : option pystr)
  (w : world) :
  (forall c, stdout_encodes c = true) ->
  exists out w',
    process_posts stdout_encodes llm open_w dump_json raw_file_path
      raw_file path w = (Ok out, w').
Proof.
  intros Hstdout.
  destruct (process_posts_cases stdout_encodes llm open_w dump_json raw_file_path
              raw_file path w) as (w1 & [[out Hout] | (e1 & He1 & _)]).
  - by exists out, w1.
  - exists [], w1. rewrite He1.
    by rewrite reported_printable by by apply printable_total.
Qed.

Lemma process_posts_never_raises_witness :
  exists out w',
    process_posts stdout_escaping llm_garbled_surrogate open_fails dump_ok
      path_latin (Ok (VList [post_bare])) (Some path_latin) w0
    = (Ok out, w').
Proof.
  apply (process_posts_never_raises stdout_escaping llm_garbled_surrogate
           open_fails dump_ok path_latin (Ok (VList [post_bare]))
           (Some path_latin) w0).
  reflexivity.
Defined.

(** X29.  When the input file could be loaded and no output path is
    given, no exception leaves [process_posts] either, whatever the
    standard output can print: every exception that can reach the last
    handler then has an ASCII message. *)
Theorem process_posts_without_file_never_raises
  (stdout_encodes : N -> bool) (llm : list prompt -> prompt -> llm_reply)
  (open_w : pystr -> result unit)
  (dump_json : pystr -> list value -> result unit)
  (raw_file_path : pystr) (v : value) (w : world) :
  exists out w',
    process_posts stdout_encodes llm open_w dump_json raw_file_path
      (Ok v) None w = (Ok out, w').
Proof.
  destruct (process_posts_cases stdout_encodes llm open_w dump_json raw_file_path
              (Ok v) None w) as (w1 & [[out Hout] | (e1 & He1 & Hplain)]).
  - by exists out, w1.
  - exists [], w1. rewrite He1.
    rewrite reported_plain; [done|]. apply Hplain; [by exists v | done].
Qed.

